(** * FastSSH: a shallow embedding of the provisioning tool

    The development follows the layout of the repository:
    - [Js]        the fragment of JavaScript values and string primitives
                  the sources rely on ([String.prototype.includes],
                  [toLowerCase], [trim], [replaceAll], [Number.parseInt],
                  [Buffer#toString('base64')]);
    - [EdgeCases] [src/utils/edge-cases.js] ([validatePort],
                  [retryWithBackoff]);
    - [Store]     [src/config/store.js];
    - [Init]      [src/commands/init.js];
    - [Connect]   [src/commands/connect.js];
    - [Remove]    the remove command;
    - [Validation], [Normalize]
                  the validators and normalizers of
                  [src/utils/edge-cases.js];
    - [ListCommand] [src/commands/list.js].

    Strings are byte strings; case folding and white space are those of
    ASCII.  Numbers are integers ([Z]); the only numbers the modelled code
    handles are ports, exit codes, attempt counters and delays.  Beyond the
    safe integers [VNum n] stands for the Number nearest to [n]. *)

From Stdlib Require Import ZArith Ascii String List Bool Lia.
From Stdlib Require Import DecimalString DecimalZ DecimalPos DecimalN.
From stdpp Require Import base option gmap strings.

Local Open Scope string_scope.
Local Open Scope Z_scope.

(** ** JavaScript values and string primitives *)

Module Js.

(** Primitive values that occur as prompt answers, record fields and
    function arguments. *)
Inductive value :=
| VUndefined
| VNull
| VBool (b : bool)
| VNum (n : Z)
| VStr (s : string).

(** ToBoolean. *)
Definition truthy (v : value) : bool :=
  match v with
  | VUndefined | VNull => false
  | VBool b => b
  | VNum n => negb (n =? 0)
  | VStr s => negb (String.eqb s "")
  end.

(** [a || b] *)
Definition or_else (a b : value) : value := if truthy a then a else b.

(** Number.isSafeInteger: the integers a Number holds exactly, each the
    only integer its Number is nearest to. *)
Definition isSafeInteger (n : Z) : Prop := Z.abs n <= 9007199254740991.

(** The decimal numeral of an integer. *)
Definition numeral (n : Z) : string := NilEmpty.string_of_int (Z.to_int n).

(** The Number nearest to a positive integer: 53 significant bits, ties to
    the even mantissa.  Safe integers are their own nearest Number. *)
Definition to_double (z : Z) : Z :=
  let shift := Z.log2 z - 52 in
  if shift <=? 0 then z
  else
    let q := z / 2 ^ shift in
    let r := z mod 2 ^ shift in
    let half := 2 ^ (shift - 1) in
    let q' := if (half <? r) || ((r =? half) && Z.odd q) then q + 1 else q in
    q' * 2 ^ shift.

(** Number::toString picks the fewest significant digits [k] such that some
    integer of [n] digits with [n - k] trailing zeros still denotes [x], and
    among those the one closest to [x]. *)
Definition candidate (x n k : Z) : option Z :=
  let unit := 10 ^ (n - k) in
  let lo := x / unit * unit in
  let hi := lo + unit in
  match to_double lo =? x, to_double hi =? x with
  | true, true =>
      Some (if x - lo <? hi - x then lo
            else if hi - x <? x - lo then hi
            else if Z.even (lo / unit) then lo else hi)
  | true, false => Some lo
  | false, true => Some hi
  | false, false => None
  end.

Fixpoint shortest_from (x n k : Z) (fuel : nat) : Z :=
  match fuel with
  | O => x
  | S fuel' =>
      if n <=? k then x
      else match candidate x n k with
           | Some v => v
           | None => shortest_from x n (k + 1) fuel'
           end
  end.

Definition shortest (x : Z) : Z :=
  shortest_from x (Z.of_nat (String.length (numeral x))) 1 17.

Fixpoint drop_zeros (s : string) : string :=
  match s with
  | String "0" s' => drop_zeros s'
  | _ => s
  end.

Fixpoint rev_string (s acc : string) : string :=
  match s with
  | String a s' => rev_string s' (String a acc)
  | EmptyString => acc
  end.

(** [d.ddde+x]: the form printed from 10^21 on. *)
Definition exponential (v : Z) : string :=
  let digits := numeral v in
  let e := numeral (Z.of_nat (String.length digits) - 1) in
  match rev_string (drop_zeros (rev_string digits "")) "" with
  | String d EmptyString => String d ("e+" +:+ e)
  | String d fraction => String d ("." +:+ fraction +:+ "e+" +:+ e)
  | EmptyString => digits
  end.

(** Number::toString of an integer-valued Number.  A safe integer prints as
    its decimal numeral.  Beyond that [VNum n] stands for the Number nearest
    to [n]: it prints with the shortest digits that denote it, as a numeral
    padded with zeros below 10^21 and in exponent form from there on
    ([String(1e21)] is [1e+21]); what exceeds the largest Number is
    Infinity. *)
Definition toString_number (n : Z) : string :=
  if Z.abs n <=? 9007199254740991 then numeral n
  else if 2 ^ 1024 - 2 ^ 970 <=? Z.abs n then
    (if n <? 0 then "-Infinity" else "Infinity")
  else
    let v := shortest (to_double (Z.abs n)) in
    (if n <? 0 then "-" else "") +:+
    (if v <? 10 ^ 21 then numeral v else exponential v).

(** ToString on primitives. *)
Definition toString (v : value) : string :=
  match v with
  | VUndefined => "undefined"
  | VNull => "null"
  | VBool true => "true"
  | VBool false => "false"
  | VNum n => toString_number n
  | VStr s => s
  end.

Definition code (a : ascii) : Z := Z.of_nat (nat_of_ascii a).

(** TAB, LF, VT, FF, CR and SPACE. *)
Definition is_white_space (a : ascii) : bool :=
  ((9 <=? code a) && (code a <=? 13)) || (code a =? 32).

Fixpoint trimStart (s : string) : string :=
  match s with
  | String a s' => if is_white_space a then trimStart s' else s
  | EmptyString => s
  end.

Definition trimEnd (s : string) : string :=
  rev_string (trimStart (rev_string s "")) "".

(** [s.trim()] *)
Definition trim (s : string) : string := trimEnd (trimStart s).

Definition lower (a : ascii) : ascii :=
  if (65 <=? code a) && (code a <=? 90)
  then ascii_of_nat (nat_of_ascii a + 32) else a.

(** [s.toLowerCase()] *)
Fixpoint toLowerCase (s : string) : string :=
  match s with
  | String a s' => String (lower a) (toLowerCase s')
  | EmptyString => EmptyString
  end.

(** [s.includes(needle)] *)
Fixpoint includes (s needle : string) : bool :=
  String.prefix needle s ||
  match s with
  | String _ s' => includes s' needle
  | EmptyString => false
  end.

(** [s.replaceAll(c, by)] for a one-character pattern [c]. *)
Fixpoint replaceAll (s : string) (c : ascii) (by_ : string) : string :=
  match s with
  | String a s' =>
      if Ascii.eqb a c then by_ +:+ replaceAll s' c by_
      else String a (replaceAll s' c by_)
  | EmptyString => EmptyString
  end.

(** [s.replace(c, by)]: the first occurrence only. *)
Fixpoint replace (s : string) (c : ascii) (by_ : string) : string :=
  match s with
  | String a s' =>
      if Ascii.eqb a c then by_ +:+ s' else String a (replace s' c by_)
  | EmptyString => EmptyString
  end.

Definition digit_of (a : ascii) : option Z :=
  if (48 <=? code a) && (code a <=? 57) then Some (code a - 48) else None.

(** The longest prefix of decimal digits, read left to right; [acc] is
    [None] as long as no digit was seen. *)
Fixpoint parse_digits (s : string) (acc : option Z) : option Z :=
  match s with
  | String a s' =>
      match digit_of a with
      | Some d => parse_digits s' (Some (10 * default 0 acc + d))
      | None => acc
      end
  | EmptyString => acc
  end.

(** [Number.parseInt(s, 10)]: leading white space is skipped, one sign is
    read, then the longest run of digits; [None] stands for NaN. *)
Definition parseInt_string (s : string) : option Z :=
  let s1 := trimStart s in
  let '(sign, s2) :=
    match s1 with
    | String "-" r => (-1, r)
    | String "+" r => (1, r)
    | _ => (1, s1)
    end in
  match parse_digits s2 None with
  | Some m => Some (sign * m)
  | None => None
  end.

(** [Number.parseInt(v, 10)] converts its argument with ToString first. *)
Definition parseInt (v : value) : option Z := parseInt_string (toString v).

(** [Buffer.from(s).toString('base64')] *)
Definition base64_alphabet : string :=
  "ABCDEFGHIJKLMNOPQRSTUVWXYZabcdefghijklmnopqrstuvwxyz0123456789+/".

Definition sextet (n : Z) : ascii :=
  default "="%char (String.get (Z.to_nat (n mod 64)) base64_alphabet).

Fixpoint base64 (s : string) : string :=
  match s with
  | EmptyString => EmptyString
  | String a EmptyString =>
      let n := code a * 65536 in
      String (sextet (n / 262144)) (String (sextet (n / 4096)) "==")
  | String a (String b EmptyString) =>
      let n := code a * 65536 + code b * 256 in
      String (sextet (n / 262144)) (String (sextet (n / 4096))
        (String (sextet (n / 64)) "="))
  | String a (String b (String c rest)) =>
      let n := code a * 65536 + code b * 256 + code c in
      String (sextet (n / 262144)) (String (sextet (n / 4096))
        (String (sextet (n / 64)) (String (sextet n) (base64 rest))))
  end.

(** The line feed of the source's escape sequence. *)
Definition nl : string := String (ascii_of_nat 10) EmptyString.

Global Instance value_eq_dec : EqDecision value.
Proof. solve_decision. Defined.

(** An object with primitive fields, and [o.k]. *)
Abbreviation object := (gmap string value).

Definition field (o : object) (k : string) : value :=
  default VUndefined (o !! k).

End Js.

(** ** src/utils/edge-cases.js *)

Module EdgeCases.
Import Js.

(** The object [validatePort] returns: [{ valid, error }] or
    [{ valid, port }]. *)
Record port_validation := {
  valid : bool;
  error : option string;
  port : option Z
}.

Definition validatePort (p : value) : port_validation :=
  match parseInt p with
  | None =>
      {| valid := false; error := Some "Port must be a number"; port := None |}
  | Some num =>
      if (num <? 1) || (num >? 65535) then
        {| valid := false;
           error := Some "Port must be between 1 and 65535";
           port := None |}
      else {| valid := true; error := None; port := Some num |}
  end.

(** [retryWithBackoff(fn, options)].  The operation [fn] runs on the state
    of the world [W]; its promise resolves with a value or rejects with an
    Error carrying a message.  The delays handed to [setTimeout] are
    recorded in the order in which they are awaited. *)
Record retry_options := { maxRetries : Z; initialDelay : Z }.

Definition defaults : retry_options :=
  {| maxRetries := 3; initialDelay := 100 |}.

Section Retry.
Context {W A : Type}.

Inductive settled :=
| Resolved (a : A)
| Rejected (message : string).

Inductive retry_outcome :=
| Returned (a : A)              (* the value of the attempt that resolved *)
| Failed (error : string)       (* { success: false, error: lastError.message } *)
| ThrewTypeError.                   (* lastError is undefined: reading .message throws *)

Record retry_run := {
  result : retry_outcome;
  world_after : W;
  calls : nat;                  (* how many times fn was invoked *)
  slept : list Z                (* the delays awaited, oldest first *)
}.

Variable fn : W -> settled * W.

(** The loop [for (let i = 0; i < maxRetries; i++)], entered at index [i]
    with [remaining] iterations to go. *)
Fixpoint retry_loop (o : retry_options) (remaining i : nat)
    (lastError : option string) (w : W) (n : nat) (ds : list Z) : retry_run :=
  match remaining with
  | O =>
      {| result := match lastError with
                    | Some m => Failed m
                    | None => ThrewTypeError
                    end;
         world_after := w; calls := n; slept := ds |}
  | S remaining' =>
      match fn w with
      | (Resolved a, w') =>
          {| result := Returned a; world_after := w';
             calls := S n; slept := ds |}
      | (Rejected m, w') =>
          let ds' :=
            if Z.of_nat i <? maxRetries o - 1
            then (ds ++ [initialDelay o * 2 ^ Z.of_nat i])%list
            else ds in
          retry_loop o remaining' (S i) (Some m) w' (S n) ds'
      end
  end.

Definition retryWithBackoff (options : option retry_options) (w : W)
    : retry_run :=
  let finalOptions := default defaults options in
  retry_loop finalOptions (Z.to_nat (maxRetries finalOptions)) 0 None w 0 [].

End Retry.

End EdgeCases.


(** ** The machine the commands run on *)

Module Sys.
Import Js.

(** The parsed content of [~/.fastssh/config.json]: alias to server
    object. *)
Abbreviation config := (gmap string (gmap string value)).

Inductive level := INFO | SUCCESS | ERROR | WARN.

(** Thrown values are error objects; all that is read of them is their
    [message]. *)
Inductive exn :=
| Error (message : string)
| TypeError (message : string)
| ReferenceError (message : string).

Definition message (e : exn) : string :=
  match e with Error m | TypeError m | ReferenceError m => m end.

(** What [ssh.execCommand] settles to. *)
Inductive exec_response :=
| ExecRejects (message : string)
| ExecResolves (code : option Z) (stderr : string).

(** How a session authenticates. *)
Inductive credential :=
| Password (password : string)
| PrivateKey (privateKey : string) (passphrase : value).

(** What a run does to the outside, in order.  A request to the remote
    side is recorded with its answer: [rejected] holds the message of the
    error a connection attempt fails with. *)
Inductive event :=
| Log (l : level) (msg : string)
| Prompt (question : string)
| ConfigWritten (data : config)
| KeychainSet (account secret : string)
| KeychainDelete (account : string)
| SshKeygen (keyPath : string)
| SshConnect (host user port : value) (c : credential) (rejected : option string)
| SshExec (command : string) (response : exec_response)
| SshShell (rejected : option string)
| SshDispose.

Definition is_network (e : event) : bool :=
  match e with
  | SshConnect _ _ _ _ _ | SshExec _ _ | SshShell _ | SshDispose => true
  | _ => false
  end.

Definition is_store_write (e : event) : bool :=
  match e with
  | ConfigWritten _ | KeychainSet _ _ | KeychainDelete _ => true
  | _ => false
  end.

Definition is_keygen (e : event) : bool :=
  match e with SshKeygen _ => true | _ => false end.

Inductive file :=
| Readable (content : string)
| Unreadable.

(** Local state.  Directories are not modelled: every parent directory
    exists.  [keychain] holds the passwords of service "fastssh" by
    account; when [keychain_error] is set the OS secret service is out of
    order and every keytar call rejects with that message. *)
Record world := {
  homedir : string;
  config_json : option (gmap string (gmap string value));
  files : gmap string file;
  keychain : gmap string string;
  keychain_error : option string;
  trace : list event
}.

Definition record_event (e : event) (w : world) : world :=
  {| homedir := homedir w; config_json := config_json w; files := files w;
     keychain := keychain w; keychain_error := keychain_error w;
     trace := trace w ++ [e] |}.

Definition with_config (c : config) (w : world) : world :=
  {| homedir := homedir w; config_json := Some c; files := files w;
     keychain := keychain w; keychain_error := keychain_error w;
     trace := trace w |}.

Definition with_files (f : gmap string file) (w : world) : world :=
  {| homedir := homedir w; config_json := config_json w; files := f;
     keychain := keychain w; keychain_error := keychain_error w;
     trace := trace w |}.

Definition with_keychain (k : gmap string string) (w : world) : world :=
  {| homedir := homedir w; config_json := config_json w; files := files w;
     keychain := k; keychain_error := keychain_error w;
     trace := trace w |}.

(** The collaborators: the answers typed at the prompts, ssh-keygen and
    the remote side.  The remote side may answer according to everything
    that happened before in the run. *)
Record environment := {
  answer_replace : bool;
  answer_host : string;
  answer_user : string;
  answer_port : value;
  answer_password : string;
  ssh_keygen : string + string * string;
  ssh_connect : list event -> value -> value -> value -> credential -> option string;
  ssh_exec : list event -> string -> exec_response;
  ssh_shell : list event -> option string
}.

(** A computation returns, throws, or ends the process
    ([process.exit]). *)
Inductive outcome (A : Type) :=
| Return (a : A)
| Throw (e : exn)
| Exit (code : Z).
Global Arguments Return {A} a.
Global Arguments Throw {A} e.
Global Arguments Exit {A} code.

Definition M (A : Type) : Type := world -> outcome A * world.

Global Instance M_ret : MRet M := fun A a w => (Return a, w).

Global Instance M_bind : MBind M := fun A B f m w =>
  match m w with
  | (Return a, w') => f a w'
  | (Throw e, w') => (Throw e, w')
  | (Exit c, w') => (Exit c, w')
  end.

Definition throw {A} (e : exn) : M A := fun w => (Throw e, w).

(** [process.exit(code)] *)
Definition exit {A} (c : Z) : M A := fun w => (Exit c, w).

(** [try { body } catch (err) { handler }]: a process that exits is not
    caught. *)
Definition try_catch {A} (body : M A) (handler : exn -> M A) : M A :=
  fun w =>
    match body w with
    | (Throw e, w') => handler e w'
    | r => r
    end.

Definition emit (e : event) : M unit := fun w => (Return tt, record_event e w).

Definition get_trace : M (list event) := fun w => (Return (trace w), w).

Module log.
Definition info (msg : string) : M unit := emit (Log INFO msg).
Definition success (msg : string) : M unit := emit (Log SUCCESS msg).
Definition error (msg : string) : M unit := emit (Log ERROR msg).
Definition warn (msg : string) : M unit := emit (Log WARN msg).
End log.

(** [keyPath.replace("~", os.homedir())] *)
Definition expand (keyPath : string) : M string :=
  fun w => (Return (Js.replace keyPath "~" (homedir w)), w).

Module fs.
Definition existsSync (path : string) : M bool :=
  fun w => (Return (bool_decide (is_Some (files w !! path))), w).

Definition readFileSync (path : string) : M string :=
  fun w =>
    match files w !! path with
    | Some (Readable c) => (Return c, w)
    | Some Unreadable =>
        (Throw (Error ("EACCES: permission denied, open '" +:+ path +:+ "'")), w)
    | None =>
        (Throw (Error ("ENOENT: no such file or directory, open '" +:+ path +:+ "'")), w)
    end.
End fs.

(** keytar, for the fixed service name. *)
Module keytar.
Definition setPassword (account secret : string) : M unit :=
  fun w =>
    match keychain_error w with
    | Some m => (Throw (Error m), w)
    | None =>
        (Return tt,
         record_event (KeychainSet account secret)
           (with_keychain (<[account := secret]> (keychain w)) w))
    end.

(** Resolves with null when there is no entry. *)
Definition getPassword (account : string) : M (option string) :=
  fun w =>
    match keychain_error w with
    | Some m => (Throw (Error m), w)
    | None => (Return (keychain w !! account), w)
    end.

(** Resolves with whether an entry was deleted. *)
Definition deletePassword (account : string) : M bool :=
  fun w =>
    match keychain_error w with
    | Some m => (Throw (Error m), w)
    | None =>
        (Return (bool_decide (is_Some (keychain w !! account))),
         record_event (KeychainDelete account)
           (with_keychain (delete account (keychain w)) w))
    end.
End keytar.

End Sys.

(** ** src/config/store.js *)

Module Store.
Import Js Sys.

Definition account (name : string) : string := name +:+ ":passphrase".

(** Reading [cfg[name]] on an object whose prototype is Object.prototype:
    an own property, else a member inherited from the prototype, else
    undefined. *)
Definition object_prototype : list string :=
  [ "constructor"; "__defineGetter__"; "__defineSetter__"; "hasOwnProperty";
    "__lookupGetter__"; "__lookupSetter__"; "isPrototypeOf";
    "propertyIsEnumerable"; "toString"; "valueOf"; "__proto__";
    "toLocaleString" ].

Inductive property :=
| Own (server : gmap string value)
| Inherited
| Undefined.

Definition get (cfg : config) (name : string) : property :=
  match cfg !! name with
  | Some server => Own server
  | None => if bool_decide (name ∈ object_prototype) then Inherited else Undefined
  end.

(** [cfg[name] = server].  Assigning to [__proto__] replaces the prototype
    and creates no own property, unless the parsed file already has an own
    property of that name. *)
Definition set (cfg : config) (name : string) (server : gmap string value)
    : config :=
  if bool_decide (name = "__proto__") && bool_decide (cfg !! name = None)
  then cfg
  else <[name := server]> cfg.

(** [JSON.stringify] leaves out the properties whose value is undefined. *)
Definition json (server : gmap string value) : gmap string value :=
  filter (fun kv => kv.2 <> VUndefined) server.

(** [loadConfig]: the parsed content of config.json, the empty object when
    the file does not exist.  [config_json] holds the content already
    parsed: a file that exists and is not JSON, for which [JSON.parse]
    throws, is outside this model, and every statement about the store is
    about a parseable file. *)
Definition loadConfig : M config :=
  fun w => (Return (default ∅ (config_json w)), w).

(** [saveConfig]: [ensureDir] then [writeFileSync] of the JSON text.  The
    write is taken to succeed: a directory or file that cannot be written,
    for which [writeFileSync] throws, is outside this model. *)
Definition saveConfig (data : config) : M unit :=
  fun w =>
    (Return tt,
     record_event (ConfigWritten (json <$> data)) (with_config (json <$> data) w)).

Definition hasServer (name : string) : M bool :=
  cfg ← loadConfig;
  mret (match get cfg name with Undefined => false | _ => true end).

(** The loop of [findServerByHostUser] over [Object.entries(cfg)]: the
    first alias whose host and user are strictly equal to the arguments,
    [None] (null) when there is none.  The entries are enumerated in the
    order of [map_to_list]; JavaScript enumerates own properties in creation
    order, which the map does not record.  The two agree on whether some
    entry matches, and on the alias when one entry matches; when several
    entries match, the code answers the one created first and this function
    one of them.  The statements below hold for whichever matching alias is
    answered: none of them depends on the order of enumeration. *)
Definition findByHostUser (cfg : config) (host user : value) : option string :=
  fst <$>
  List.find (fun '(name, server) =>
               bool_decide (field server "host" = host) &&
               bool_decide (field server "user" = user))
            (map_to_list cfg).

Definition findServerByHostUser (host user : value) : M (option string) :=
  cfg ← loadConfig;
  mret (findByHostUser cfg host user).

Definition addServer (name : string) (obj : object) : M unit :=
  cfg ← loadConfig;
  let server : gmap string value :=
    {[ "host" := field obj "host";
       "user" := field obj "user";
       "authType" := VStr "key" ]} in
  let server :=
    if truthy (field obj "keyPath")
    then <["keyPath" := field obj "keyPath"]> server
    else server in
  (if truthy (field obj "passphrase") then
     match field obj "passphrase" with
     | VStr p => keytar.setPassword (account name) p
     | _ => throw (TypeError "Parameter 'password' must be a string")
     end
   else mret tt);;
  saveConfig (set cfg name server).

(** [None] is undefined, the answer for an unknown alias. *)
Definition getServer (name : string) : M (option object) :=
  all ← loadConfig;
  match get all name with
  | Undefined => mret None
  | Inherited => mret (Some ∅)
  | Own cfg =>
      if bool_decide (field cfg "authType" = VStr "key") then
        passphrase ← keytar.getPassword (account name);
        mret (Some (<["passphrase" := from_option VStr VNull passphrase]> cfg))
      else mret (Some cfg)
  end.

Definition removeServer (name : string) : M unit :=
  cfg ← loadConfig;
  saveConfig (delete name cfg);;
  try_catch (keytar.deletePassword (account name);; mret tt)
            (fun _ => mret tt).

Definition listServers : M (list string) :=
  cfg ← loadConfig;
  mret (fst <$> map_to_list cfg).

End Store.

(** ** src/commands/init.js *)

Module Init.
Import Js Sys Store.

Section Commands.
Variable env : environment.

(** [execSync] of ssh-keygen: writes the private and the public key
    file, or throws. *)
Definition execSync_ssh_keygen (expandedPath : string) : M unit :=
  fun w =>
    let w := record_event (SshKeygen expandedPath) w in
    match ssh_keygen env with
    | inl m => (Throw (Error m), w)
    | inr (priv, pub) =>
        (Return tt,
         with_files (<[expandedPath +:+ ".pub" := Readable pub]>
                       (<[expandedPath := Readable priv]> (files w))) w)
    end.

(** [new NodeSSH().connect(config)] *)
Definition connect (host user port : value) (c : credential) : M unit :=
  fun w =>
    let answer := ssh_connect env (trace w) host user port c in
    let w' := record_event (SshConnect host user port c answer) w in
    match answer with
    | Some m => (Throw (Error m), w')
    | None => (Return tt, w')
    end.

(** [ssh.execCommand(command)]; the result is [(code, stderr)]. *)
Definition execCommand (command : string) : M (option Z * string) :=
  fun w =>
    let answer := ssh_exec env (trace w) command in
    let w' := record_event (SshExec command answer) w in
    match answer with
    | ExecRejects m => (Throw (Error m), w')
    | ExecResolves c e => (Return (c, e), w')
    end.

Definition dispose : M unit := emit SshDispose.

Definition generateSSHKey (keyPath : string) : M bool :=
  expandedPath ← expand keyPath;
  try_catch
    (log.info (nl +:+ " Generating RSA-4096 SSH key at: " +:+ keyPath);;
     execSync_ssh_keygen expandedPath;;
     log.success " SSH key generated successfully!";;
     mret true)
    (fun err =>
       log.error (" Failed to generate SSH key: " +:+ message err);;
       mret false).

(** [None] is null. *)
Definition getPublicKeyContent (keyPath : string) : M (option string) :=
  expandedPath ← expand keyPath;
  let pubKeyPath := expandedPath +:+ ".pub" in
  try_catch
    (there ← fs.existsSync pubKeyPath;
     if there : bool then
       content ← fs.readFileSync pubKeyPath;
       mret (Some content)
     else mret None)
    (fun err =>
       log.error (" Failed to read public key: " +:+ message err);;
       mret None).

Definition checkServerSSHConfig : M bool :=
  try_catch
    (permResult ←
       execCommand "touch ~/.fastssh_test && rm ~/.fastssh_test && echo 'OK'";
     mret (bool_decide (permResult.1 = Some 0)))
    (fun err =>
       log.warn ("Could not verify SSH config: " +:+ message err);;
       throw err).

(** [code === 0 || code === null] *)
Definition succeeded (code : option Z) : bool :=
  match code with
  | Some c => c =? 0
  | None => true
  end.

(** What a method returns: [true], or [{ success: false, stderr }]. *)
Inductive method_result :=
| Installed
| NotInstalled (stderr : string).

Definition command1 (keyLine : string) : string :=
  "echo '" +:+ replaceAll keyLine "'" "'\''" +:+ "' >> ~/.ssh/authorized_keys".

Definition command2 (keyLine : string) : string :=
  "echo '" +:+ base64 (keyLine +:+ nl) +:+ "' | base64 -d >> ~/.ssh/authorized_keys".

Definition tryDirectAppendMethod (keyLine : string) : M method_result :=
  log.info "   Attempting Method 1: Direct append with escaping...";;
  addResult1 ← execCommand (command1 keyLine);
  if succeeded addResult1.1 then
    log.success "Public key installed successfully";;
    execCommand "chmod 600 ~/.ssh/authorized_keys";;
    mret Installed
  else mret (NotInstalled addResult1.2).

Definition tryBase64Method (keyLine : string) : M method_result :=
  log.warn "Method 1 failed, trying Method 2: Base64 encoding...";;
  addResult2 ← execCommand (command2 keyLine);
  if succeeded addResult2.1 then
    log.success "Public key installed successfully (base64 method)";;
    execCommand "chmod 600 ~/.ssh/authorized_keys";;
    mret Installed
  else mret (NotInstalled addResult2.2).

Definition addPublicKeyToRemote (pubKeyContent : string) : M bool :=
  try_catch
    (log.info (nl +:+ " Adding public key to remote server...");;
     mkdirResult ← execCommand "mkdir -p ~/.ssh && chmod 700 ~/.ssh";
     (if negb (succeeded mkdirResult.1)
      then log.warn ("mkdir result: " +:+ mkdirResult.2)
      else mret tt);;
     let keyLine := trim pubKeyContent in
     result1 ← tryDirectAppendMethod keyLine;
     match result1 with
     | Installed => mret true
     | NotInstalled stderr1 =>
         result2 ← tryBase64Method keyLine;
         match result2 with
         | Installed => mret true
         | NotInstalled stderr2 =>
             log.error "Both methods failed";;
             log.error ("Method 1 stderr: " +:+ stderr1);;
             log.error ("Method 2 stderr: " +:+ stderr2);;
             mret false
         end
     end)
    (fun err =>
       log.error ("Error adding public key to remote: " +:+ message err);;
       mret false).

Definition testSSHKeyAuthentication (host user port : value)
    (keyPath : string) : M unit :=
  log.info (nl +:+ " Testing SSH key authentication...");;
  expandedPath ← expand keyPath;
  privateKeyContent ←
    try_catch (fs.readFileSync expandedPath)
      (fun err =>
         log.error ("Failed to read private key: " +:+ message err);;
         exit 1);
  try_catch
    (log.info "   Connecting with SSH key...";;
     connect host user (or_else port (VNum 22))
       (PrivateKey privateKeyContent VUndefined);;
     dispose;;
     log.success "SSH key authentication verified!")
    (fun err =>
       log.error "SSH key authentication failed";;
       log.error ("   Error: " +:+ message err);;
       log.info (nl +:+ "Troubleshooting steps:");;
       log.info "   1. Check if server has PubkeyAuthentication enabled:";;
       log.info "      ssh user@host 'cat /etc/ssh/sshd_config | grep PubkeyAuthentication'";;
       log.info "";;
       log.info "   2. Verify your public key is correct on server:";;
       log.info "      ssh user@host 'cat ~/.ssh/authorized_keys'";;
       log.info "";;
       log.info "   3. Try manual SSH connection:";;
       log.info ("      ssh -i " +:+ keyPath +:+ " user@host");;
       log.info "";;
       log.info "   4. Regenerate the RSA key if needed:";;
       log.info "      ssh-keygen -t rsa -b 4096 -m pem -f ~/.ssh/id_rsa";;
       exit 1).

Definition logAuthenticationInfo (name : string) : M unit :=
  log.success ("Setup complete. Connect with: fastssh " +:+ name).

(** The part of [init] after the first prompt; [init] returns early when
    the user declines to replace an existing alias. *)
Definition provision (name : string) : M unit :=
  emit (Prompt "IP:");;
  emit (Prompt "User:");;
  emit (Prompt "SSH Port:");;
  let host := VStr (answer_host env) in
  let user := VStr (answer_user env) in
  let port := answer_port env in
  let keyPath := "~/.ssh/id_rsa" in
  expandedPath ← expand keyPath;
  there ← fs.existsSync expandedPath;
  (if there : bool then log.info (nl +:+ " Using existing SSH keys")
   else
     log.info (nl +:+ " SSH key not found. Generating a new SSH key for you...");;
     generated ← generateSSHKey keyPath;
     if generated : bool then mret tt
     else log.error "Failed to generate SSH key.";; exit 1);;
  existingServer ← findServerByHostUser host user;
  (match existingServer with
   | Some existing =>
       if truthy (VStr existing) then
         log.error (" This IP and user combination already exist as '"
                    +:+ existing +:+ "'");;
         log.info ("Please use a different IP or user, or remove '"
                   +:+ existing +:+ "' first.");;
         exit 1
       else mret tt
   | None => mret tt
   end);;
  emit (Prompt "Your password (one-time for setup ):");;
  try_catch
    (connect host user (or_else port (VNum 22))
       (Password (answer_password env));;
     pubKeyContent ← getPublicKeyContent keyPath;
     (if truthy (from_option VStr VNull pubKeyContent) then mret tt
      else log.error "Could not read public key";; dispose;; exit 1);;
     installed ← addPublicKeyToRemote (default "" pubKeyContent);
     (if installed : bool then mret tt
      else log.error "Failed to install public key on server";;
           dispose;; exit 1);;
     checkServerSSHConfig;;
     dispose;;
     testSSHKeyAuthentication host user port keyPath;;
     addServer name
       {[ "host" := host; "user" := user;
          "port" := or_else port (VNum 22);
          "authType" := VStr "key"; "keyPath" := VStr keyPath ]};;
     logAuthenticationInfo name)
    (fun err =>
       log.error "Setup failed. Authentication with the server failed.";;
       log.error ("Error: " +:+ message err);;
       log.info (nl +:+ " Common issues:");;
       log.info "   • Incorrect password or username";;
       log.info "   • SSH access disabled on the server";;
       log.info "   • Firewall blocking SSH connection";;
       log.info "   • Wrong server IP address";;
       log.error (nl +:+ "Full error: " +:+ message err);;
       exit 1).

Definition init (name : string) : M unit :=
  known ← hasServer name;
  if known : bool then
    emit (Prompt ("Server '" +:+ name +:+ "' already exists. Remove and re-create it?"));;
    if answer_replace env then
      removeServer name;;
      provision name
    else log.info "Canceled."
  else provision name.

End Commands.

End Init.

(** ** src/commands/connect.js *)

Module Connect.
Import Js Sys Store.

Section Commands.
Variable env : environment.

Definition validateServerName (name : string) : M unit :=
  if truthy (VStr name) then mret tt
  else
    log.error "Provide server name. Usage: fastssh <server-name>";;
    exit 1.

Definition validateServerConfig (cfg : option object) (name : string)
    : M object :=
  match cfg with
  | Some cfg => mret cfg
  | None =>
      log.error ("Server '" +:+ name +:+ "' not found.");;
      log.info "Use 'fastssh list' to see saved servers, or 'fastssh init <name>' to add one.";;
      exit 1
  end.

(** [keyPath.replace("~", os.homedir())] on a field that may hold
    anything. *)
Definition expand_field (keyPath : value) : M string :=
  match keyPath with
  | VStr p => expand p
  | VUndefined | VNull =>
      throw (TypeError "Cannot read properties of undefined (reading 'replace')")
  | _ => throw (TypeError "keyPath.replace is not a function")
  end.

Definition validatePrivateKeyExists (keyPath : value) (name : string)
    : M unit :=
  expandedPath ← expand_field keyPath;
  there ← fs.existsSync expandedPath;
  if there : bool then mret tt
  else
    log.error (nl +:+ "SSH private key not found on this machine!");;
    log.error ("   Expected at: " +:+ expandedPath);;
    log.info (nl +:+ "Why this happened:");;
    log.info "   • You're trying to login from a different machine";;
    log.info "   • The key file was deleted or moved";;
    log.info "   • The key was stored with a different name";;
    log.info (nl +:+ "How to fix it:");;
    log.info "   Option 1: Copy the private key from the machine where you set it up";;
    log.info "            scp user@original-machine:~/.ssh/id_rsa ~/.ssh/id_rsa";;
    log.info "            chmod 600 ~/.ssh/id_rsa";;
    log.info "";;
    log.info "   Option 2: Re-setup the server from this machine (generates new key pair)";;
    log.info ("            fastssh init " +:+ name);;
    log.info "";;
    log.info "Warning: If you choose Option 2, you'll need to add the NEW public key";;
    log.info "   to the server's authorized_keys file before SSH key login will work.";;
    exit 1.

Definition handleConnectionError (err : exn) (name : string)
    (authType : value) : M unit :=
  let errorMsg := toLowerCase (message err) in
  log.error (nl +:+ "Connection failed!");;
  (if includes errorMsg "enotfound" || includes errorMsg "getaddrinfo" then
     log.error "  Cannot resolve hostname. Check network and host."
   else if includes errorMsg "econnrefused" then
     log.error "  Connection refused. Check SSH is running on that port."
   else if includes errorMsg "etimedout" || includes errorMsg "timeout" then
     log.error "  Connection timed out. Check network."
   else if includes errorMsg "authentication"
           || includes errorMsg "permission denied" then
     log.error "  Authentication failed.";;
     if bool_decide (authType = VStr "key") then
       log.info (nl +:+ "For SSH key authentication:");;
       log.info "   • Verify the private key on THIS machine matches server's public key";;
       log.info "   • Ensure server has PubkeyAuthentication enabled in SSH config";;
       log.info "   • Check that your public key is in ~/.ssh/authorized_keys on server";;
       log.info "   • Run: ssh-keygen -l -f ~/.ssh/id_rsa to see key fingerprint";;
       log.info (nl +:+ "   Try re-setup: fastssh init " +:+ name)
     else mret tt
   else log.error ("  " +:+ message err));;
  exit 1.

(** [ssh.requestShell()] *)
Definition requestShell : M unit :=
  fun w =>
    let answer := ssh_shell env (trace w) in
    let w' := record_event (SshShell answer) w in
    match answer with
    | Some m => (Throw (Error m), w')
    | None => (Return tt, w')
    end.

(** The identifier [authType] of the call in the catch clause of
    [connect]: the module binds no such name, neither as a parameter or
    local of [connect] nor at top level, so evaluating it throws. *)
Definition authType : M value :=
  throw (ReferenceError "authType is not defined").

(** Up to the point where the interactive shell is handed over to the
    terminal relay. *)
Definition connect (name : string) : M unit :=
  validateServerName name;;
  found ← getServer name;
  cfg ← validateServerConfig found name;
  validatePrivateKeyExists (field cfg "keyPath") name;;
  log.info ("Connecting to " +:+ toString (field cfg "user") +:+ "@"
            +:+ toString (field cfg "host") +:+ ":"
            +:+ toString (or_else (field cfg "port") (VNum 22)) +:+ "...");;
  try_catch
    (expandedPath ← expand_field (field cfg "keyPath");
     keyContent ←
       try_catch (fs.readFileSync expandedPath)
         (fun err =>
            log.error ("Failed to read private key: " +:+ message err);;
            exit 1);
     Init.connect env (field cfg "host") (field cfg "user")
       (or_else (field cfg "port") (VNum 22))
       (PrivateKey keyContent
          (if truthy (field cfg "passphrase") then field cfg "passphrase"
           else VUndefined));;
     log.success ("Connected! Starting interactive session..." +:+ nl);;
     requestShell)
    (fun err =>
       authType ← authType;
       handleConnectionError err name authType).

End Commands.

End Connect.


(** ** The remove command (commands/remove.js) *)

Module Remove.
Import Js Sys Store.

Section Commands.
Variable env : environment.

(** The answer to the confirmation "Delete public key from remote server
    before removing?". *)
Variable deleteRemote : bool.

(** The double quote of the sed command line. *)
Definition dq : string := String (ascii_of_nat 34) EmptyString.

Definition removeCommand (pubKeyContent : string) : string :=
  "sed -i.bak " +:+ dq +:+ "/'" +:+ replaceAll pubKeyContent "'" "'\''"
  +:+ "'/d" +:+ dq +:+ " ~/.ssh/authorized_keys".

(** [cfg.k] on what [getServer] returned; undefined has no properties. *)
Definition member (cfg : option object) (k : string) : M value :=
  match cfg with
  | Some o => mret (field o k)
  | None =>
      throw (TypeError ("Cannot read properties of undefined (reading '"
                        +:+ k +:+ "')"))
  end.

Definition remove (name : string) : M unit :=
  if negb (truthy (VStr name)) then log.error "Provide server name"
  else
    known ← hasServer name;
    if negb known then log.error ("Server '" +:+ name +:+ "' not found.")
    else
      cfg ← getServer name;
      emit (Prompt "Delete public key from remote server before removing?");;
      (if deleteRemote then
         emit (Prompt "Password (to remove public key from server):");;
         try_catch
           (log.info (nl +:+ " Connecting to server to remove public key...");;
            host ← member cfg "host";
            user ← member cfg "user";
            port ← member cfg "port";
            Init.connect env host user (or_else port (VNum 22))
              (Password (answer_password env));;
            keyPath ← member cfg "keyPath";
            keyPath ← Connect.expand_field keyPath;
            let pubKeyPath := keyPath +:+ ".pub" in
            pubKeyContent ←
              try_catch
                (content ← fs.readFileSync pubKeyPath;
                 mret (trim content))
                (fun err =>
                   log.warn ("Could not read public key from " +:+ pubKeyPath);;
                   log.info "Proceeding to remove from config only.";;
                   throw err);
            result ← Init.execCommand env (removeCommand pubKeyContent);
            Init.dispose;;
            if Init.succeeded result.1
            then log.success "Public key removed from server"
            else log.warn "Could not verify key deletion on server")
           (fun err =>
              log.error ("Failed to remove public key from server: "
                         +:+ message err);;
              log.info "Continuing to remove from local config...";;
              Init.dispose)
       else mret tt);;
      removeServer name;;
      log.success ("Removed server: " +:+ name).

End Commands.

End Remove.

(** ** src/utils/edge-cases.js, continued: the validators *)

Module Validation.
Import Js EdgeCases Sys.

(** The objects [{ valid: true }] and [{ valid: false, error }]. *)
Definition accepted : port_validation :=
  {| valid := true; error := None; port := None |}.

Definition rejected (e : string) : port_validation :=
  {| valid := false; error := Some e; port := None |}.

Definition is_digit (a : ascii) : bool := (48 <=? code a) && (code a <=? 57).

Definition is_alpha (a : ascii) : bool :=
  ((65 <=? code a) && (code a <=? 90)) || ((97 <=? code a) && (code a <=? 122)).

(** Every character of the string is in the class. *)
Fixpoint all (p : ascii -> bool) (s : string) : bool :=
  match s with
  | String a s' => p a && all p s'
  | EmptyString => true
  end.

(** The class [[a-zA-Z0-9.\-_]]. *)
Definition hostname_char (a : ascii) : bool :=
  is_alpha a || is_digit a || Ascii.eqb a "." || Ascii.eqb a "-"
  || Ascii.eqb a "_".

(** [/^[a-zA-Z0-9.\-_]+$/.test(s)] *)
Definition validPattern (s : string) : bool :=
  negb (String.eqb s "") && all hostname_char s.

(** [s.split(sep)] for a one-character separator. *)
Fixpoint split (s : string) (sep : ascii) : list string :=
  match s with
  | String a s' =>
      if Ascii.eqb a sep then EmptyString :: split s' sep
      else match split s' sep with
           | part :: parts => String a part :: parts
           | [] => [String a EmptyString]
           end
  | EmptyString => [EmptyString]
  end.

(** [\d{1,3}] as a whole part. *)
Definition octet_shape (s : string) : bool :=
  all is_digit s && (1 <=? String.length s)%nat && (String.length s <=? 3)%nat.

(** [/^(\d{1,3}\.){3}\d{1,3}$/.test(s)]: the string is four runs of one to
    three digits separated by dots. *)
Definition ipPattern (s : string) : bool :=
  match split s "." with
  | [a; b; c; d] => octet_shape a && octet_shape b && octet_shape c && octet_shape d
  | _ => false
  end.

(** [Number(part)] for a part made of decimal digits (0 for the empty
    part). *)
Definition Number (part : string) : Z := default 0 (parse_digits part None).

Definition validateHostname (hostname : value) : port_validation :=
  match hostname with
  | VStr s =>
      if negb (truthy hostname) then rejected "Hostname must be a non-empty string"
      else if negb (String.eqb (trim s) s) then
        rejected "Hostname contains leading/trailing whitespace"
      else if negb (validPattern s) then
        rejected "Hostname contains invalid characters"
      else if ipPattern s && existsb (fun p => 255 <? Number p) (split s ".") then
        rejected "Invalid IP address: octets must be 0-255"
      else accepted
  | _ => rejected "Hostname must be a non-empty string"
  end.

Definition validateUsername (username : value) : port_validation :=
  match username with
  | VStr s =>
      if negb (truthy username) then rejected "Username must be a non-empty string"
      else if includes s " " then rejected "Username cannot contain spaces"
      else if (32 <? String.length s)%nat then
        rejected "Username is too long (max 32 characters)"
      else accepted
  | _ => rejected "Username must be a non-empty string"
  end.

Definition validateKeyFormat (keyContent : value) : port_validation :=
  match keyContent with
  | VStr s =>
      if negb (truthy keyContent) then
        rejected "Key content must be a non-empty string"
      else if negb (includes s "BEGIN RSA PRIVATE KEY")
              && negb (includes s "BEGIN OPENSSH PRIVATE KEY") then
        rejected "Invalid SSH key format. Expected RSA or OpenSSH format"
      else if negb (includes s "END") then
        rejected "SSH key appears truncated (missing END marker)"
      else accepted
  | _ => rejected "Key content must be a non-empty string"
  end.

(** What [checkSSHConfigIssues] returns. *)
Record report := { hasIssues : bool; issues : list string }.

(** The condition [v?.includes(" ")]: undefined for undefined and null,
    the search on a string, and a TypeError on any other value, which has
    no [includes] method to call. *)
Definition includes_space (v : value) (what : string) : exn + bool :=
  match v with
  | VUndefined | VNull => inr false
  | VStr s => inr (includes s " ")
  | _ => inl (TypeError (what +:+ "?.includes is not a function"))
  end.

Definition push_if (c : bool) (issue : string) (issues : list string)
    : list string :=
  if c then (issues ++ [issue])%list else issues.

Definition checkSSHConfigIssues (cfg : object) : exn + report :=
  let issues := [] in
  let issues := push_if (negb (truthy (field cfg "host"))) "Missing host" issues in
  let issues := push_if (negb (truthy (field cfg "user"))) "Missing username" issues in
  let issues :=
    push_if (negb (truthy (field cfg "authType"))) "Missing auth type" issues in
  let issues :=
    push_if (bool_decide (field cfg "authType" = VStr "key")
             && negb (truthy (field cfg "keyPath")))
            "SSH key path not configured" issues in
  match includes_space (field cfg "host") "cfg.host" with
  | inl e => inl e
  | inr host_spaces =>
      let issues := push_if host_spaces "Host contains spaces" issues in
      match includes_space (field cfg "user") "cfg.user" with
      | inl e => inl e
      | inr user_spaces =>
          let issues := push_if user_spaces "Username contains spaces" issues in
          let issues :=
            if truthy (field cfg "port") then
              let portValidation := validatePort (field cfg "port") in
              push_if (negb (valid portValidation))
                ("Invalid port: " +:+ default "undefined" (error portValidation))
                issues
            else issues in
          inr {| hasIssues := (0 <? length issues)%nat; issues := issues |}
      end
  end.

End Validation.

(** ** src/utils/edge-cases.js, continued: the normalizers *)

Module Normalize.
Import Js Sys.

Definition cr : ascii := ascii_of_nat 13.
Definition lf : ascii := ascii_of_nat 10.

(** [s.replaceAll(pattern, by)] for a pattern of the two characters [a]
    and [b]: the text is scanned from the left and the search resumes
    after each replaced occurrence. *)
Fixpoint replaceAll2 (s : string) (a b : ascii) (by_ : string) : string :=
  match s with
  | String x s' =>
      match s' with
      | String y s'' =>
          if Ascii.eqb x a && Ascii.eqb y b then by_ +:+ replaceAll2 s'' a b by_
          else String x (replaceAll2 s' a b by_)
      | EmptyString => s
      end
  | EmptyString => EmptyString
  end.

(** A falsy argument is returned as it is; a truthy one must have a
    [replaceAll] method, which of the primitive values only strings
    have. *)
Definition normalizeLineEndings (content : value) : exn + value :=
  if negb (truthy content) then inr content
  else
    match content with
    | VStr s => inr (VStr (replaceAll (replaceAll2 s cr lf nl) cr nl))
    | _ => inl (TypeError "content.replaceAll is not a function")
    end.

Fixpoint all_slashes (s : string) : bool :=
  match s with
  | String a s' => Ascii.eqb a "/" && all_slashes s'
  | EmptyString => true
  end.

(** [s.replace(/\/+$/, "")]: the match starts at the first position from
    which only slashes follow up to the end. *)
Fixpoint strip_trailing_slashes (s : string) : string :=
  match s with
  | String a s' =>
      if all_slashes s then EmptyString
      else String a (strip_trailing_slashes s')
  | EmptyString => EmptyString
  end.

(** [home] is what [os.homedir()] returns. *)
Definition normalizePath (home : string) (filePath : value) : exn + value :=
  if negb (truthy filePath) then inr filePath
  else
    match filePath with
    | VStr s =>
        let expanded := replace s "~" home in
        let expanded := replaceAll expanded "\" "/" in
        let expanded := strip_trailing_slashes expanded in
        inr (VStr (if String.eqb expanded "" then "/" else expanded))
    | _ => inl (TypeError "filePath.replace is not a function")
    end.

(** [trimObjectStrings] on an object with primitive fields.  The result is
    built by assignment to a fresh object literal, and assigning a
    primitive to [__proto__] creates no property. *)
Definition trimObjectStrings (obj : object) : object :=
  delete "__proto__"
    ((fun value => match value with
                   | VStr s => VStr (trim s)
                   | _ => value
                   end) <$> obj).

End Normalize.

(** ** The list command (commands/list.js) *)

Module ListCommand.
Import Js Sys Store.

(** [list()]; the result is the lines written to standard output, in
    order. *)
Definition list : M (list string) :=
  servers ← listServers;
  if (length servers =? 0)%nat then mret ["No servers saved."]
  else mret ((fun s => "• " +:+ s) <$> servers).

End ListCommand.
(** ** Vocabulary of the properties *)

Module Observations.
Import Js Sys Store.

(** The content of the config file, as [loadConfig] reads it. *)
Definition stored (w : world) : config := default ∅ (config_json w).

Definition is_log (e : event) : bool :=
  match e with Log _ _ => true | _ => false end.

Definition is_exec (e : event) : bool :=
  match e with SshExec _ _ => true | _ => false end.

(** A key-authenticated session was opened, or refused. *)
Definition is_key_accept (e : event) : bool :=
  match e with
  | SshConnect _ _ _ (PrivateKey _ _) None => true
  | _ => false
  end.

Definition is_key_reject (e : event) : bool :=
  match e with
  | SshConnect _ _ _ (PrivateKey _ _) (Some _) => true
  | _ => false
  end.

(** The config file was written with an entry for [name]. *)
Definition records (name : string) (e : event) : bool :=
  match e with
  | ConfigWritten data => bool_decide (is_Some (data !! name))
  | _ => false
  end.

(** Both installer methods failed: the append of each came back with a
    non-zero exit code. *)
Definition install_failed (tr : list event) : Prop :=
  exists keyLine c1 e1 c2 e2,
    SshExec (Init.command1 keyLine) (ExecResolves c1 e1) ∈ tr /\
    Init.succeeded c1 = false /\
    SshExec (Init.command2 keyLine) (ExecResolves c2 e2) ∈ tr /\
    Init.succeeded c2 = false.

(** The key-based verification session failed to authenticate. *)
Definition verification_failed (tr : list event) : Prop :=
  exists e, e ∈ tr /\ is_key_reject e = true.

(** A monitor over a trace: every write of the config file that holds an
    entry for [name] comes after a key-authenticated session was opened.
    [verified] tells whether one was opened before [tr]. *)
Fixpoint written_after_verification (name : string) (verified : bool)
    (tr : list event) : bool :=
  match tr with
  | [] => true
  | e :: tr' =>
      (if records name e then verified else true)
      && written_after_verification name (verified || is_key_accept e) tr'
  end.

(** Value of a digit sequence read left to right onto [acc]. *)
Fixpoint uint_val (d : Decimal.uint) (acc : Z) : Z :=
  match d with
  | Decimal.Nil => acc
  | Decimal.D0 l => uint_val l (10 * acc + 0)
  | Decimal.D1 l => uint_val l (10 * acc + 1)
  | Decimal.D2 l => uint_val l (10 * acc + 2)
  | Decimal.D3 l => uint_val l (10 * acc + 3)
  | Decimal.D4 l => uint_val l (10 * acc + 4)
  | Decimal.D5 l => uint_val l (10 * acc + 5)
  | Decimal.D6 l => uint_val l (10 * acc + 6)
  | Decimal.D7 l => uint_val l (10 * acc + 7)
  | Decimal.D8 l => uint_val l (10 * acc + 8)
  | Decimal.D9 l => uint_val l (10 * acc + 9)
  end.

(** What follows the numeral is not a digit. *)
Definition no_leading_digit (s : string) : Prop :=
  match s with
  | String a _ => digit_of a = None
  | EmptyString => True
  end.

(** Runs of an operation that is called again and again: the world in
    which the [k]-th call starts, how that call settles, and the delay
    awaited after the [i]-th failure. *)
Section Attempts.
Context {W A : Type}.
Variable fn : W -> @EdgeCases.settled A * W.

Fixpoint world_at (w : W) (k : nat) : W :=
  match k with
  | O => w
  | S k' => world_at (snd (fn w)) k'
  end.

Definition attempt (w : W) (k : nat) : @EdgeCases.settled A :=
  fst (fn (world_at w k)).

End Attempts.

Definition backoff (o : EdgeCases.retry_options) (i : nat) : Z :=
  EdgeCases.initialDelay o * 2 ^ Z.of_nat i.

(** The server object [addServer] builds from its argument. *)
Definition built (obj : object) : gmap string value :=
  if truthy (field obj "keyPath")
  then {[ "keyPath" := field obj "keyPath"; "host" := field obj "host";
          "user" := field obj "user"; "authType" := VStr "key" ]}
  else {[ "host" := field obj "host"; "user" := field obj "user";
          "authType" := VStr "key" ]}.

(** What follows the first single quote of a string. *)
Fixpoint after_quote (s : string) : option string :=
  match s with
  | String a s' => if Ascii.eqb a "'" then Some s' else after_quote s'
  | EmptyString => None
  end.

(** The path of the local private key. *)
Definition id_rsa (w : world) : string := replace "~/.ssh/id_rsa" "~" (homedir w).

End Observations.

(** ** Concrete machines and environments *)

Module Scenarios.
Import Js EdgeCases Sys Store.

(** A fresh machine, and a server that accepts everything. *)
Definition env0 : environment :=
  {| answer_replace := false; answer_host := "203.0.113.10"; answer_user := "deploy";
     answer_port := VNum 22; answer_password := "hunter2";
     ssh_keygen := inr ("PRIV", "ssh-rsa AAAA fastssh");
     ssh_connect := fun _ _ _ _ _ => None;
     ssh_exec := fun _ _ => ExecResolves (Some 0) "";
     ssh_shell := fun _ => None |}.

Definition w0 : world :=
  {| homedir := "/home/u"; config_json := None; files := ∅; keychain := ∅; keychain_error := None; trace := [] |}.

(** The fields init passes to addServer, with a passphrase added. *)
Definition init_fields : object :=
  {[ "host" := VStr "203.0.113.10"; "user" := VStr "deploy";
     "port" := VNum 22; "authType" := VStr "key";
     "keyPath" := VStr "~/.ssh/id_rsa"; "passphrase" := VStr "s3cret" ]}.

(** Alias web1 is stored; the secret store is empty. *)
Definition stored_web1 : world :=
  {| homedir := "/home/u";
     config_json := Some {[ "web1" := {[ "host" := VStr "203.0.113.10";
                                         "user" := VStr "deploy";
                                         "authType" := VStr "key";
                                         "keyPath" := VStr "~/.ssh/id_rsa" ]} ]};
     files := ∅; keychain := ∅; keychain_error := None; trace := [] |}.

(** An operation that is rejected on its first two calls and resolves on
    the third; the world counts the calls. *)
Definition flaky (w : nat) : @settled string * nat :=
  (if (w <? 2)%nat then Rejected "ECONNRESET" else Resolved "connected", S w).

(** A remote shell on which the quoted append fails and every other
    command succeeds. *)
Definition env_escaping_fails : environment :=
  {| answer_replace := false; answer_host := "203.0.113.10";
     answer_user := "deploy"; answer_port := VNum 22;
     answer_password := "hunter2";
     ssh_keygen := inr ("PRIV", "ssh-rsa AAAA fastssh");
     ssh_connect := fun _ _ _ _ _ => None;
     ssh_exec := fun _ cmd =>
       if String.prefix "echo '" cmd && negb (includes cmd "base64")
       then ExecResolves (Some 2) "sh: 1: Syntax error: Unterminated quoted string"
       else ExecResolves (Some 0) "";
     ssh_shell := fun _ => None |}.

(** The server refuses the key-authenticated session. *)
Definition env_key_refused : environment :=
  {| answer_replace := false; answer_host := "203.0.113.10";
     answer_user := "deploy"; answer_port := VNum 22;
     answer_password := "hunter2";
     ssh_keygen := inr ("PRIV", "ssh-rsa AAAA fastssh");
     ssh_connect := fun _ _ _ _ c =>
       match c with
       | Password _ => None
       | PrivateKey _ _ => Some "All configured authentication methods failed"
       end;
     ssh_exec := fun _ _ => ExecResolves (Some 0) "";
     ssh_shell := fun _ => None |}.

(** Alias web1 holds the pair (203.0.113.10, deploy); there is no local
    key yet. *)
Definition w_taken : world :=
  {| homedir := "/home/u";
     config_json :=
       Some {[ "web1" := {[ "host" := VStr "203.0.113.10";
                            "user" := VStr "deploy";
                            "authType" := VStr "key";
                            "keyPath" := VStr "~/.ssh/id_rsa" ]};
               "web2" := {[ "host" := VStr "198.51.100.7";
                            "user" := VStr "deploy";
                            "authType" := VStr "key";
                            "keyPath" := VStr "~/.ssh/id_rsa" ]} ]};
     files := ∅; keychain := ∅; keychain_error := None; trace := [] |}.

(** The user confirms the re-creation of an alias. *)
Definition env_replace : environment :=
  {| answer_replace := true; answer_host := "203.0.113.10";
     answer_user := "deploy"; answer_port := VNum 22;
     answer_password := "hunter2";
     ssh_keygen := inr ("PRIV", "ssh-rsa AAAA fastssh");
     ssh_connect := fun _ _ _ _ _ => None;
     ssh_exec := fun _ _ => ExecResolves (Some 0) "";
     ssh_shell := fun _ => None |}.

(** A provisioned machine: web1 is stored and the private key is in
    place. *)
Definition w_ready : world :=
  {| homedir := "/home/u";
     config_json :=
       Some {[ "web1" := {[ "host" := VStr "203.0.113.10";
                            "user" := VStr "deploy";
                            "authType" := VStr "key";
                            "keyPath" := VStr "~/.ssh/id_rsa" ]} ]};
     files := {[ "/home/u/.ssh/id_rsa" := Readable "PRIV" ]};
     keychain := ∅; keychain_error := None; trace := [] |}.

(** Nothing listens on the port. *)
Definition env_refused : environment :=
  {| answer_replace := false; answer_host := "203.0.113.10";
     answer_user := "deploy"; answer_port := VNum 22;
     answer_password := "hunter2";
     ssh_keygen := inr ("PRIV", "ssh-rsa AAAA fastssh");
     ssh_connect := fun _ _ _ _ _ => Some "connect ECONNREFUSED 203.0.113.10:22";
     ssh_exec := fun _ _ => ExecResolves (Some 0) "";
     ssh_shell := fun _ => None |}.

End Scenarios.

(** ** Further vocabulary *)

Module Vocabulary2.
Import Js Sys.

(** The dotted-quad notation of four numbers. *)
Definition dotted_quad (a b c d : Z) : string :=
  toString (VNum a) +:+ "." +:+ toString (VNum b) +:+ "."
  +:+ toString (VNum c) +:+ "." +:+ toString (VNum d).

(** The character occurs in the string. *)
Fixpoint occurs (c : ascii) (s : string) : bool :=
  match s with
  | String a s' => Ascii.eqb a c || occurs c s'
  | EmptyString => false
  end.

(** The last character of a string, if any. *)
Fixpoint last_char (s : string) : option ascii :=
  match s with
  | String a EmptyString => Some a
  | String _ s' => last_char s'
  | EmptyString => None
  end.

(** The fields init hands to addServer. *)
Definition init_record (env : environment) : object :=
  {[ "host" := VStr (answer_host env); "user" := VStr (answer_user env);
     "port" := or_else (answer_port env) (VNum 22);
     "authType" := VStr "key"; "keyPath" := VStr "~/.ssh/id_rsa" ]}.

End Vocabulary2.

(** ** Further machines and environments *)

Module Scenarios2.
Import Js EdgeCases Sys Store Scenarios.

(** The user declines every confirmation. *)
Definition env_decline : environment :=
  {| answer_replace := false; answer_host := "203.0.113.10";
     answer_user := "deploy"; answer_port := VNum 22;
     answer_password := "hunter2";
     ssh_keygen := inr ("PRIV", "ssh-rsa AAAA fastssh");
     ssh_connect := fun _ _ _ _ _ => None;
     ssh_exec := fun _ _ => ExecResolves (Some 0) "";
     ssh_shell := fun _ => None |}.

(** The channel closes when chmod is sent; every other command succeeds. *)
Definition env_chmod_rejected : environment :=
  {| answer_replace := false; answer_host := "203.0.113.10";
     answer_user := "deploy"; answer_port := VNum 22;
     answer_password := "hunter2";
     ssh_keygen := inr ("PRIV", "ssh-rsa AAAA fastssh");
     ssh_connect := fun _ _ _ _ _ => None;
     ssh_exec := fun _ cmd =>
       if String.prefix "chmod 600" cmd then ExecRejects "Channel closed"
       else ExecResolves (Some 0) "";
     ssh_shell := fun _ => None |}.

(** A fresh machine whose secret store already holds the passphrase of
    another alias. *)
Definition w_secret : world :=
  {| homedir := "/home/u"; config_json := None; files := ∅;
     keychain := {[ "db:passphrase" := "tr0ub4dor" ]};
     keychain_error := None; trace := [] |}.

(** Alias web1 is stored and the OS secret service is out of order. *)
Definition w_locked : world :=
  {| homedir := "/home/u";
     config_json := Some {[ "web1" := {[ "host" := VStr "203.0.113.10";
                                         "user" := VStr "deploy";
                                         "authType" := VStr "key";
                                         "keyPath" := VStr "~/.ssh/id_rsa" ]} ]};
     files := ∅; keychain := ∅;
     keychain_error := Some "Cannot autolaunch D-Bus without X11 $DISPLAY";
     trace := [] |}.

(** The pair of env0 is stored under the empty alias, and under no other;
    no key is on the machine. *)
Definition w_unnamed : world :=
  {| homedir := "/home/u";
     config_json := Some {[ "" := {[ "host" := VStr "203.0.113.10";
                                     "user" := VStr "deploy";
                                     "authType" := VStr "key";
                                     "keyPath" := VStr "~/.ssh/id_rsa" ]} ]};
     files := ∅; keychain := ∅; keychain_error := None; trace := [] |}.

End Scenarios2.
(** * Properties *)

Import Js EdgeCases Sys Store Observations Scenarios Scenarios2.

(** ** Decimal numerals: printing then parsing *)

Lemma parse_digits_stop s acc :
  no_leading_digit s -> parse_digits s acc = acc.
Proof. destruct s as [|a s]; simpl; [done|]. by intros ->. Qed.

Lemma parse_digits_uint d rest acc :
  no_leading_digit rest ->
  parse_digits (NilEmpty.string_of_uint d +:+ rest) acc =
  match d with
  | Decimal.Nil => acc
  | _ => Some (uint_val d (default 0 acc))
  end.
Proof.
  intros Hrest. revert acc.
  induction d as [|d IH|d IH|d IH|d IH|d IH|d IH|d IH|d IH|d IH|d IH];
    intros acc; simpl.
  1: by apply parse_digits_stop.
  all: change (String.append ?a ?b) with (a +:+ b); rewrite IH;
       destruct d; reflexivity.
Qed.

Lemma of_uint_acc_val l p :
  Z.pos (Pos.of_uint_acc l p) = uint_val l (Z.pos p).
Proof.
  revert p. induction l; intros p; simpl; try reflexivity; rewrite IHl;
    f_equal; lia.
Qed.

Lemma of_uint_val d : Z.of_N (Pos.of_uint d) = uint_val d 0.
Proof.
  induction d; simpl; try done; rewrite of_uint_acc_val; reflexivity.
Qed.

Lemma to_uint_val p : uint_val (Pos.to_uint p) 0 = Z.pos p.
Proof. by rewrite <- of_uint_val, DecimalPos.Unsigned.of_to. Qed.

Lemma to_uint_not_nil p : Pos.to_uint p <> Decimal.Nil.
Proof.
  intros H. pose proof (DecimalPos.Unsigned.of_to p) as E.
  rewrite H in E. discriminate.
Qed.

Lemma parse_digits_pos p rest :
  no_leading_digit rest ->
  parse_digits (NilEmpty.string_of_uint (Pos.to_uint p) +:+ rest) None
  = Some (Z.pos p).
Proof.
  intros Hrest. rewrite parse_digits_uint by done.
  pose proof (to_uint_not_nil p). pose proof (to_uint_val p) as E.
  destruct (Pos.to_uint p); simpl in *; congruence.
Qed.

(** A numeral starts with a digit: nothing is trimmed, no sign is read. *)
Lemma string_of_uint_head d :
  d <> Decimal.Nil ->
  exists a s, NilEmpty.string_of_uint d = String a s /\
    is_white_space a = false /\ a <> "-"%char /\ a <> "+"%char.
Proof.
  destruct d; intros H; try done; simpl; eexists _, _;
    (split; [reflexivity|]); repeat split; done.
Qed.

Lemma parseInt_string_pos p rest :
  no_leading_digit rest ->
  parseInt_string (NilEmpty.string_of_uint (Pos.to_uint p) +:+ rest)
  = Some (Z.pos p).
Proof.
  intros Hrest. pose proof (parse_digits_pos p rest Hrest) as E.
  destruct (string_of_uint_head _ (to_uint_not_nil p)) as (a & s & Hs & Hw & Hm & Hp).
  unfold parseInt_string. rewrite Hs in *. simpl in *. rewrite Hw.
  destruct a as [[] [] [] [] [] [] [] []]; try done; simpl in *;
    rewrite E; reflexivity.
Qed.

Lemma append_empty_r (s : string) : s +:+ "" = s.
Proof.
  induction s as [|a s IH]; [done|].
  change (String a (s +:+ "") = String a s). by rewrite IH.
Qed.

(** Safe integers print as their numeral. *)
Lemma toString_safe (n : Z) :
  isSafeInteger n -> toString (VNum n) = numeral n.
Proof.
  unfold isSafeInteger, toString, toString_number. intros H.
  by destruct (Z.leb_spec (Z.abs n) 9007199254740991); [|lia].
Qed.

Lemma parseInt_numeral (p : Z) : parseInt_string (numeral p) = Some p.
Proof.
  unfold numeral. destruct p as [|p|p]; [reflexivity| |].
  - pose proof (parseInt_string_pos p "" I) as E.
    by rewrite append_empty_r in E.
  - pose proof (parse_digits_pos p "" I) as E.
    rewrite append_empty_r in E.
    unfold parseInt_string. cbn [Z.to_int NilEmpty.string_of_int trimStart].
    change (is_white_space "-") with false. cbv iota beta.
    rewrite E. reflexivity.
Qed.

Lemma parseInt_integer (p : Z) :
  isSafeInteger p -> parseInt (VNum p) = Some p.
Proof.
  intros H. unfold parseInt. rewrite toString_safe by done.
  apply parseInt_numeral.
Qed.

Lemma parseInt_numeral_prefix (n : Z) (rest : string) :
  0 < n <= 65535 -> no_leading_digit rest ->
  parseInt (VStr (toString (VNum n) +:+ rest)) = Some n.
Proof.
  intros Hn Hrest. rewrite toString_safe by (unfold isSafeInteger; lia).
  destruct n as [|p|p]; try lia.
  by apply parseInt_string_pos.
Qed.

(** *** Numbers beyond the safe integers *)

Lemma to_double_small (z : Z) : z < 2 ^ 53 -> to_double z = z.
Proof.
  intros H. unfold to_double.
  destruct (Z.leb_spec (Z.log2 z - 52) 0) as [_|Hs]; [done|].
  destruct (Z.le_gt_cases z 0) as [Hz|Hz].
  - rewrite Z.log2_nonpos in Hs by done. lia.
  - assert (Z.log2 z < 53) by (apply Z.log2_lt_pow2; lia). lia.
Qed.

(** Rounding to 53 bits never goes below the leading power of two, nor
    below a multiple of the unit in the last place. *)
Lemma to_double_lower (z m : Z) :
  0 < z -> 52 < Z.log2 z -> m * 2 ^ (Z.log2 z - 52) <= z ->
  m * 2 ^ (Z.log2 z - 52) <= to_double z.
Proof.
  intros Hz Hl Hm. unfold to_double.
  destruct (Z.leb_spec (Z.log2 z - 52) 0) as [Hs|Hs]; [lia|].
  set (u := 2 ^ (Z.log2 z - 52)) in *.
  assert (Hu : 0 < u) by (apply Z.pow_pos_nonneg; lia).
  assert (Hq : m <= z / u) by (apply Z.div_le_lower_bound; lia).
  destruct (_ || _); nia.
Qed.

Lemma to_double_leading (z : Z) :
  0 < z -> 2 ^ Z.log2 z <= to_double z.
Proof.
  intros Hz. destruct (Z.le_gt_cases (Z.log2 z) 52) as [Hl|Hl].
  - rewrite to_double_small.
    + apply Z.log2_spec. done.
    + apply Z.log2_lt_pow2; lia.
  - pose proof (to_double_lower z (2 ^ 52) Hz Hl) as H.
    rewrite <- Z.pow_add_r in H by lia.
    replace (52 + (Z.log2 z - 52)) with (Z.log2 z) in H by lia.
    apply H. apply Z.log2_spec. done.
Qed.

Lemma to_double_1e21 (z : Z) : 10 ^ 21 <= z -> 10 ^ 21 <= to_double z.
Proof.
  intros Hz. destruct (Z.le_gt_cases (2 ^ 70) z) as [Hbig|Hsmall].
  - assert (70 <= Z.log2 z) by (apply Z.log2_le_pow2; lia).
    assert (2 ^ 70 <= 2 ^ Z.log2 z) by (apply Z.pow_le_mono_r; lia).
    pose proof (to_double_leading z). lia.
  - assert (Hl : Z.log2 z = 69).
    { apply Z.log2_unique; [lia|]. split; [|exact Hsmall].
      transitivity (10 ^ 21); [by vm_compute|done]. }
    pose proof (to_double_lower z (10 ^ 21 / 2 ^ 17)) as H.
    rewrite Hl in H. change (69 - 52) with 17 in H.
    change (10 ^ 21 / 2 ^ 17 * 2 ^ 17) with (10 ^ 21) in H.
    apply H; lia.
Qed.

Lemma candidate_denotes (x n k v : Z) :
  candidate x n k = Some v -> to_double v = x.
Proof.
  unfold candidate.
  set (unit := 10 ^ (n - k)). set (lo := x / unit * unit).
  destruct (Z.eqb_spec (to_double lo) x) as [Hlo|_],
           (Z.eqb_spec (to_double (lo + unit)) x) as [Hhi|_];
    intros [= <-]; try done.
  repeat case_match; done.
Qed.

Lemma shortest_from_denotes (x n : Z) (fuel : nat) : forall k,
  shortest_from x n k fuel = x \/ to_double (shortest_from x n k fuel) = x.
Proof.
  induction fuel as [|fuel IH]; intros k; simpl; [by left|].
  destruct (n <=? k); [by left|].
  destruct (candidate x n k) as [v|] eqn:E; [|apply IH].
  right. by eapply candidate_denotes.
Qed.

(** The digits printed for a Number between 2^53 and 10^21 spell an integer
    in the same range. *)
Lemma shortest_range (x : Z) :
  2 ^ 53 <= x < 10 ^ 21 -> 2 ^ 53 <= shortest x < 10 ^ 21.
Proof.
  intros Hx. unfold shortest.
  destruct (shortest_from_denotes x (Z.of_nat (String.length (numeral x))) 17 1)
    as [->|Hv]; [done|].
  set (v := shortest_from _ _ _ _) in *. split.
  - destruct (Z.le_gt_cases (2 ^ 53) v) as [|Hsmall]; [done|].
    rewrite to_double_small in Hv by done. lia.
  - destruct (Z.le_gt_cases (10 ^ 21) v) as [Hbig|]; [|done].
    apply to_double_1e21 in Hbig. lia.
Qed.

Lemma parseInt_string_negative (v : Z) :
  0 < v -> parseInt_string ("-" +:+ numeral v) = Some (- v).
Proof.
  intros Hv. destruct v as [|q|q]; try lia.
  pose proof (parse_digits_pos q "" I) as E. rewrite append_empty_r in E.
  unfold parseInt_string, numeral.
  change ("-" +:+ ?s) with (String "-" s).
  cbn [Z.to_int NilEmpty.string_of_int trimStart].
  change (is_white_space "-") with false. cbv iota beta.
  rewrite E. reflexivity.
Qed.

(** What [parseInt] reads from an integer Number below 10^21 that is not a
    safe integer: an integer of the same sign, at least 2^53 in absolute
    value. *)
Lemma parseInt_unsafe (p : Z) :
  ~ isSafeInteger p -> to_double (Z.abs p) < 10 ^ 21 ->
  exists v, 2 ^ 53 <= v /\
    parseInt (VNum p) = Some (if p <? 0 then - v else v).
Proof.
  unfold isSafeInteger. intros Hp Hx.
  assert (Habs : 2 ^ 53 <= Z.abs p) by (change (2 ^ 53) with 9007199254740992; lia).
  assert (Hlog : 53 <= Z.log2 (Z.abs p)) by (apply Z.log2_le_pow2; lia).
  assert (H53 : 2 ^ 53 <= to_double (Z.abs p)).
  { pose proof (to_double_leading (Z.abs p)).
    assert (2 ^ 53 <= 2 ^ Z.log2 (Z.abs p)) by (apply Z.pow_le_mono_r; lia).
    lia. }
  assert (Hfinite : Z.abs p < 2 ^ 1024 - 2 ^ 970).
  { destruct (Z.le_gt_cases (2 ^ 1024 - 2 ^ 970) (Z.abs p)) as [Hinf|]; [|done].
    assert (2 ^ 1023 <= Z.abs p).
    { etransitivity; [|exact Hinf]. by vm_compute. }
    assert (1023 <= Z.log2 (Z.abs p)) by (apply Z.log2_le_pow2; lia).
    assert (2 ^ 1023 <= 2 ^ Z.log2 (Z.abs p)) by (apply Z.pow_le_mono_r; lia).
    pose proof (to_double_leading (Z.abs p)).
    assert (10 ^ 21 <= 2 ^ 1023) by (by vm_compute).
    lia. }
  destruct (shortest_range (to_double (Z.abs p))) as [Hlo Hhi]; [lia|].
  exists (shortest (to_double (Z.abs p))). split; [done|].
  unfold parseInt, toString, toString_number.
  destruct (Z.leb_spec (Z.abs p) 9007199254740991); [lia|].
  destruct (Z.leb_spec (2 ^ 1024 - 2 ^ 970) (Z.abs p)); [lia|].
  set (v := shortest _) in *.
  destruct (Z.ltb_spec v (10 ^ 21)); [|lia].
  destruct (p <? 0).
  - apply parseInt_string_negative. lia.
  - change ("" +:+ ?s) with s. apply parseInt_numeral.
Qed.

(** ** Port validation *)

(** C7: for every integer port p below 10^21 in absolute value (the
    Numbers that ToString prints as a decimal numeral), validatePort(p)
    succeeds if and only if 1 <= p <= 65535, and then returns p; 0 and
    65536 fail while 1 and 65535 succeed. *)
Theorem validatePort_integer_range (p : Z) :
  to_double (Z.abs p) < 10 ^ 21 ->
  (valid (validatePort (VNum p)) = true <-> 1 <= p <= 65535) /\
  (1 <= p <= 65535 ->
   validatePort (VNum p) = {| valid := true; error := None; port := Some p |}) /\
  valid (validatePort (VNum 0)) = false /\
  valid (validatePort (VNum 65536)) = false /\
  valid (validatePort (VNum 1)) = true /\
  valid (validatePort (VNum 65535)) = true.
Proof.
  intros Hp. split; [|split; [|by vm_compute]].
  - destruct (Z.le_gt_cases (Z.abs p) 9007199254740991) as [Hsafe|Hunsafe].
    + unfold validatePort. rewrite parseInt_integer by done.
      destruct (p <? 1) eqn:E1, (p >? 65535) eqn:E2; simpl; split;
        try done; try lia.
    + destruct (parseInt_unsafe p) as (v & Hv & E);
        [unfold isSafeInteger; lia|done|].
      assert (65535 < v) by (change (2 ^ 53) with 9007199254740992 in Hv; lia).
      unfold validatePort. rewrite E.
      destruct (Z.ltb_spec p 0).
      * destruct (- v <? 1) eqn:E1; simpl; split; try done; lia.
      * destruct (v <? 1) eqn:E1, (v >? 65535) eqn:E2; simpl; split;
          try done; lia.
  - intros Hr. unfold validatePort.
    rewrite parseInt_integer by (unfold isSafeInteger; lia).
    destruct (p <? 1) eqn:E1, (p >? 65535) eqn:E2; simpl; try done; lia.
Qed.

Lemma validatePort_integer_range_witness :
  to_double (Z.abs 22) < 10 ^ 21 /\
  validatePort (VNum 22) = {| valid := true; error := None; port := Some 22 |}.
Proof.
  assert (H : to_double (Z.abs 22) < 10 ^ 21) by (vm_compute; reflexivity).
  split; [exact H|].
  apply (validatePort_integer_range 22 H). lia.
Defined.

(** C7, the claim as first stated: 10^21 is an integer outside 1..65535,
    yet validatePort(1e21) succeeds.  ToString prints it as 1e+21, of which
    parseInt reads the leading 1; likewise 5e21 is accepted as port 5. *)
Lemma validatePort_accepts_1e21 :
  toString (VNum (10 ^ 21)) = "1e+21" /\
  validatePort (VNum (10 ^ 21))
    = {| valid := true; error := None; port := Some 1 |} /\
  validatePort (VNum (5 * 10 ^ 21))
    = {| valid := true; error := None; port := Some 5 |} /\
  ~ (1 <= 10 ^ 21 <= 65535).
Proof. repeat split; try (vm_compute; reflexivity). lia. Qed.

(** C10: validatePort parses its argument with Number.parseInt, so a string
    made of an in-range numeral followed by anything that does not start
    with a digit is accepted, and the returned port is the integer the
    leading digits spell; validatePort("22abc") and validatePort("8.5")
    return { valid: true } with ports 22 and 8. *)
Theorem validatePort_lenient_prefix (n : Z) (rest : string) :
  1 <= n <= 65535 -> no_leading_digit rest ->
  validatePort (VStr (toString (VNum n) +:+ rest))
    = {| valid := true; error := None; port := Some n |} /\
  validatePort (VStr "22abc")
    = {| valid := true; error := None; port := Some 22 |} /\
  validatePort (VStr "8.5")
    = {| valid := true; error := None; port := Some 8 |}.
Proof.
  intros Hn Hrest. split; [|by vm_compute].
  unfold validatePort. rewrite parseInt_numeral_prefix by (done || lia).
  destruct (n <? 1) eqn:E1, (n >? 65535) eqn:E2; simpl; try done; lia.
Qed.

Lemma validatePort_lenient_prefix_witness :
  validatePort (VStr "443/tcp")
    = {| valid := true; error := None; port := Some 443 |}.
Proof.
  assert (Hn : 1 <= 443 <= 65535) by lia.
  assert (Hr : no_leading_digit "/tcp") by reflexivity.
  exact (proj1 (validatePort_lenient_prefix 443 "/tcp" Hn Hr)).
Defined.

(** ** Retry with backoff *)

Section RetryFacts.
Context {W A : Type}.
Variable fn : W -> @settled A * W.

Lemma retry_loop_resolves o k : forall remaining i last w n ds a,
  (k < remaining)%nat ->
  Z.of_nat i + Z.of_nat remaining = maxRetries o ->
  (forall j, (j < k)%nat -> exists m, attempt fn w j = Rejected m) ->
  attempt fn w k = Resolved a ->
  retry_loop fn o remaining i last w n ds =
  {| result := Returned a; world_after := world_at fn w (S k);
     calls := (n + S k)%nat;
     slept := (ds ++ map (backoff o) (seq i k))%list |}.
Proof.
  induction k as [|k IH]; intros remaining i last w n ds a Hk Hinv Hrej Hres;
    destruct remaining as [|remaining]; try lia; simpl.
  - unfold attempt in Hres. simpl in Hres.
    destruct (fn w) as [[b|m] w']; simpl in *; [|done].
    inversion Hres; subst. rewrite app_nil_r. f_equal. lia.
  - destruct (Hrej 0%nat ltac:(lia)) as [m Hm].
    unfold attempt in Hm. simpl in Hm.
    destruct (fn w) as [[b|m'] w'] eqn:Hfn; simpl in *; [done|].
    assert (Hlt : (Z.of_nat i <? maxRetries o - 1) = true) by lia.
    rewrite Hlt.
    rewrite (IH remaining (S i) (Some m') w' (S n) _ a); try lia.
    + simpl. rewrite <- app_assoc. simpl. f_equal. lia.
    + intros j Hj. specialize (Hrej (S j) ltac:(lia)).
      unfold attempt in *. simpl in Hrej. by rewrite Hfn in Hrej.
    + unfold attempt in *. simpl in Hres. by rewrite Hfn in Hres.
Qed.

Lemma retry_loop_exhausted o msg : forall remaining i last w n ds,
  Z.of_nat i + Z.of_nat remaining = maxRetries o ->
  (forall j, (j < remaining)%nat -> attempt fn w j = Rejected (msg j)) ->
  retry_loop fn o remaining i last w n ds =
  {| result := match remaining with
                | O => match last with Some m => Failed m | None => ThrewTypeError end
                | S r => Failed (msg r)
                end;
     world_after := world_at fn w remaining;
     calls := (n + remaining)%nat;
     slept := (ds ++ map (backoff o) (seq i (Nat.pred remaining)))%list |}.
Proof.
  intros remaining. revert msg.
  induction remaining as [|remaining IH]; intros msg i last w n ds Hinv Hrej; simpl.
  - rewrite app_nil_r. f_equal. lia.
  - pose proof (Hrej 0%nat ltac:(lia)) as Hm.
    unfold attempt in Hm. simpl in Hm.
    destruct (fn w) as [[b|m'] w'] eqn:Hfn; simpl in *; [done|].
    inversion Hm; subst m'.
    rewrite (IH (fun j => msg (S j))); try lia.
    + f_equal.
      * destruct remaining; reflexivity.
      * lia.
      * destruct remaining as [|remaining]; simpl.
        -- assert (Hge : (Z.of_nat i <? maxRetries o - 1) = false) by lia.
           by rewrite Hge.
        -- assert (Hlt : (Z.of_nat i <? maxRetries o - 1) = true) by lia.
           rewrite Hlt, <- app_assoc. reflexivity.
    + intros j Hj. specialize (Hrej (S j) ltac:(lia)).
      unfold attempt in *. simpl in Hrej. by rewrite Hfn in Hrej.
Qed.


End RetryFacts.


(** ** The config store *)

Create HintDb sys discriminated.
Global Hint Unfold mbind mret M_bind M_ret throw exit try_catch emit
  log.info log.success log.error log.warn get_trace expand
  fs.existsSync fs.readFileSync
  keytar.setPassword keytar.getPassword keytar.deletePassword
  loadConfig saveConfig : sys.

Tactic Notation "run" := autounfold with sys; simpl.
Tactic Notation "run" "in" hyp(H) := autounfold with sys in H; simpl in H.

Lemma field_json (server : gmap string value) (k : string) :
  field (json server) k = field server k.
Proof.
  unfold field, json.
  destruct (server !! k) as [v|] eqn:E; simpl.
  - destruct (decide (v = VUndefined)) as [->|Hv].
    + rewrite map_lookup_filter_None_2; [done|]. right. intros v' ?. simpl. congruence.
    + erewrite map_lookup_filter_Some_2; eauto.
  - rewrite map_lookup_filter_None_2; [done|]. by left.
Qed.

Lemma lookup_json_defined (server : gmap string value) (k : string) (v : value) :
  v <> VUndefined -> server !! k = Some v -> json server !! k = Some v.
Proof. intros Hv E. unfold json. by apply map_lookup_filter_Some_2. Qed.

Lemma lookup_json_None (server : gmap string value) (k : string) :
  server !! k = None -> json server !! k = None.
Proof. intros E. unfold json. apply map_lookup_filter_None_2. by left. Qed.

Lemma lookup_json_Some (server : gmap string value) (k : string) (v : value) :
  json server !! k = Some v -> server !! k = Some v /\ v <> VUndefined.
Proof. unfold json. intros [? ?]%map_lookup_filter_Some. done. Qed.

Lemma addServer_returns (name : string) (obj : object) (w w' : world) :
  addServer name obj w = (Return tt, w') ->
  config_json w' = Some (json <$> set (stored w) name (built obj)) /\
  keychain w' =
    (if truthy (field obj "passphrase") then
       match field obj "passphrase" with
       | VStr p => <[account name := p]> (keychain w)
       | _ => keychain w
       end
     else keychain w) /\
  files w' = files w /\ homedir w' = homedir w.
Proof.
  unfold addServer, built, stored. run.
  destruct (truthy (field obj "passphrase")); [|by intros [= <-]].
  destruct (field obj "passphrase"); try done.
  destruct (keychain_error w); [done|]. by intros [= <-].
Qed.

Lemma lookup_set (cfg : config) (name : string) (server server' : gmap string value) :
  set cfg name server !! name = Some server' -> server' = server.
Proof.
  unfold set. case_match.
  - apply andb_prop in H as [_ H%bool_decide_eq_true_1]. congruence.
  - rewrite lookup_insert_eq. congruence.
Qed.

Lemma lookup_set_ne (cfg : config) (name other : string) (server : gmap string value) :
  other <> name -> set cfg name server !! other = cfg !! other.
Proof. intros Hne. unfold set. case_match; [done|]. by rewrite lookup_insert_ne. Qed.

Lemma lookup_set_plain (cfg : config) (name : string) (server : gmap string value) :
  name <> "__proto__" -> set cfg name server !! name = Some server.
Proof.
  intros Hne. unfold set. rewrite bool_decide_eq_false_2 by done. simpl.
  apply lookup_insert_eq.
Qed.

Lemma built_lookup (obj : object) (k : string) :
  built obj !! k =
    if decide (k = "authType") then Some (VStr "key")
    else if decide (k = "host") then Some (field obj "host")
    else if decide (k = "user") then Some (field obj "user")
    else if decide (k = "keyPath") then
      (if truthy (field obj "keyPath") then Some (field obj "keyPath") else None)
    else None.
Proof.
  unfold built.
  destruct (truthy (field obj "keyPath")); repeat case_decide; subst;
    simplify_map_eq; done.
Qed.

Lemma truthy_defined (v : value) : truthy v = true -> v <> VUndefined.
Proof. by destruct v. Qed.

(** The entry of the alias after addServer is the built object as JSON
    keeps it. *)
Lemma addServer_entry (name : string) (obj : object) (w w' : world)
    (server : gmap string value) :
  addServer name obj w = (Return tt, w') ->
  stored w' !! name = Some server ->
  server = json (built obj).
Proof.
  intros (Hcfg & _)%addServer_returns H.
  assert (Hst : stored w' = json <$> set (stored w) name (built obj))
    by (unfold stored at 1; by rewrite Hcfg).
  rewrite Hst, lookup_fmap in H.
  destruct (set (stored w) name (built obj) !! name) as [s|] eqn:E; [|done].
  apply lookup_set in E as ->. simpl in H. by injection H as <-.
Qed.

(** C9: the entry addServer writes to the config file holds authType
    "key", the host and the user it was given, the keyPath when one was
    supplied, and no other field: whatever else the argument carries, port
    and passphrase included, is not written.  The passphrase goes to the
    secret store only, and the other aliases keep their entries. *)
Theorem addServer_frame (name : string) (obj : object) (w w' : world) :
  addServer name obj w = (Return tt, w') ->
  (name <> "__proto__" -> is_Some (stored w' !! name)) /\
  (forall server, stored w' !! name = Some server ->
     server !! "authType" = Some (VStr "key") /\
     field server "host" = field obj "host" /\
     field server "user" = field obj "user" /\
     server !! "keyPath" =
       (if truthy (field obj "keyPath") then Some (field obj "keyPath") else None) /\
     (forall k, k ∉ ["host"; "user"; "authType"; "keyPath"] -> server !! k = None) /\
     server !! "port" = None /\
     server !! "passphrase" = None) /\
  keychain w' =
    match field obj "passphrase" with
    | VStr p => if truthy (VStr p) then <[account name := p]> (keychain w)
                else keychain w
    | _ => keychain w
    end /\
  (forall other, other <> name -> stored w' !! other = json <$> stored w !! other).
Proof.
  intros (Hcfg & Hkey & _)%addServer_returns.
  assert (Hst : stored w' = json <$> set (stored w) name (built obj))
    by (unfold stored at 1; by rewrite Hcfg).
  rewrite Hst. clear Hst Hcfg. split; [|split; [|split]].
  - intros Hne. rewrite lookup_fmap, lookup_set_plain by done. by eexists.
  - intros server H. rewrite lookup_fmap in H.
    destruct (set (stored w) name (built obj) !! name) as [s|] eqn:E; [|done].
    apply lookup_set in E as ->. simpl in H. injection H as <-.
    split; [|split; [|split; [|split; [|split; [|split]]]]].
    + apply lookup_json_defined; [done|]. by rewrite built_lookup.
    + rewrite field_json. unfold field at 1. by rewrite built_lookup.
    + rewrite field_json. unfold field at 1. by rewrite built_lookup.
    + destruct (truthy (field obj "keyPath")) eqn:Ht.
      * apply lookup_json_defined; [by apply truthy_defined|].
        by rewrite built_lookup, Ht.
      * apply lookup_json_None. by rewrite built_lookup, Ht.
    + intros k Hk. apply lookup_json_None. rewrite built_lookup.
      repeat case_decide; subst; try done; exfalso; apply Hk; set_solver.
    + apply lookup_json_None. by rewrite built_lookup.
    + apply lookup_json_None. by rewrite built_lookup.
  - rewrite Hkey. destruct (field obj "passphrase"); try done; by case_match.
  - intros other Hne. by rewrite lookup_fmap, lookup_set_ne.
Qed.

Lemma addServer_frame_witness :
  exists w' server,
    addServer "web1" init_fields w0 = (Return tt, w') /\
    stored w' !! "web1" = Some server /\
    server !! "port" = None /\ server !! "passphrase" = None /\
    keychain w' !! "web1:passphrase" = Some "s3cret".
Proof.
  pose (w' := (addServer "web1" init_fields w0).2).
  assert (Hrun : addServer "web1" init_fields w0 = (Return tt, w'))
    by (vm_compute; reflexivity).
  destruct (addServer_frame "web1" init_fields w0 w' Hrun)
    as (Hsome & Hfields & Hkey & _).
  destruct (Hsome ltac:(done)) as [server Hserver].
  destruct (Hfields server Hserver) as (_ & _ & _ & _ & _ & Hport & Hpass).
  exists w', server. split; [done|split; [done|split; [done|split; [done|]]]].
  rewrite Hkey. reflexivity.
Defined.

(** C1 (the code departs from the claim): with the fields init passes,
    port 22 included, addServer followed by getServer returns host, user,
    authType and keyPath as given, but no port: the record read back has no
    port field at all.  The same holds at the end of a successful init. *)
Theorem addServer_getServer_port_lost :
  let fields : object :=
    {[ "host" := VStr "203.0.113.10"; "user" := VStr "deploy";
       "port" := VNum 22; "authType" := VStr "key";
       "keyPath" := VStr "~/.ssh/id_rsa" ]} in
  let read (r : outcome (option object)) (k : string) : option value :=
    match r with
    | Return (Some server) => Some (field server k)
    | _ => None
    end in
  let direct := (getServer "web1" (addServer "web1" fields w0).2).1 in
  let provisioned := (getServer "web1" (Init.init env0 "web1" w0).2).1 in
  field fields "port" = VNum 22 /\
  read direct "port" = Some VUndefined /\
  read direct "host" = Some (VStr "203.0.113.10") /\
  read direct "user" = Some (VStr "deploy") /\
  read direct "authType" = Some (VStr "key") /\
  read direct "keyPath" = Some (VStr "~/.ssh/id_rsa") /\
  (Init.init env0 "web1" w0).1 = Return tt /\
  answer_port env0 = VNum 22 /\
  read provisioned "port" = Some VUndefined.
Proof. vm_compute. repeat split. Qed.

(** Whatever port addServer is given, the record getServer reads back
    has none. *)
Lemma addServer_getServer_no_port (name : string) (obj r : object) (w w1 w2 : world) :
  addServer name obj w = (Return tt, w1) ->
  getServer name w1 = (Return (Some r), w2) ->
  r !! "port" = None.
Proof.
  intros Hadd Hget.
  assert (Hport : json (built obj) !! "port" = None)
    by (apply lookup_json_None; by rewrite built_lookup).
  unfold getServer in Hget. run in Hget. fold (stored w1) in Hget.
  unfold get in Hget.
  destruct (stored w1 !! name) as [server|] eqn:E.
  - rewrite (addServer_entry _ _ _ _ _ Hadd E) in Hget.
    case_bool_decide.
    + destruct (keychain_error w1); [done|]. injection Hget as <- _.
      by rewrite lookup_insert_ne.
    + by injection Hget as <- _.
  - case_bool_decide; [|done]. by injection Hget as <- _.
Qed.

(** C6: when the secret store holds no entry for an alias, getServer of a
    stored key-authenticated record returns the record with a null
    passphrase and does not throw, and removeServer succeeds, also when the
    secret service itself is failing. *)
Theorem secret_absence_is_not_an_error (name : string) (w : world) :
  keychain w !! account name = None ->
  (forall cfg,
      keychain_error w = None ->
      stored w !! name = Some cfg ->
      field cfg "authType" = VStr "key" ->
      getServer name w = (Return (Some (<["passphrase" := VNull]> cfg)), w)) /\
  (exists w',
      removeServer name w = (Return tt, w') /\
      stored w' !! name = None /\
      keychain w' !! account name = None).
Proof.
  intros Habsent. split.
  - intros cfg Hup Hcfg Hkey. unfold getServer. run.
    fold (stored w). unfold get. rewrite Hcfg.
    rewrite bool_decide_eq_true_2 by done. by rewrite Hup, Habsent.
  - unfold removeServer. run. fold (stored w).
    destruct (keychain_error w) eqn:Hup; simpl;
      eexists; (split; [reflexivity|]); unfold stored; simpl;
      rewrite lookup_fmap, lookup_delete_eq; split; try done.
    by rewrite lookup_delete_eq.
Qed.

Lemma secret_absence_is_not_an_error_witness :
  exists r,
    getServer "web1" stored_web1 = (Return (Some r), stored_web1) /\
    r !! "passphrase" = Some VNull.
Proof.
  assert (Habsent : keychain stored_web1 !! account "web1" = None) by reflexivity.
  destruct (secret_absence_is_not_an_error "web1" stored_web1 Habsent) as [Hget _].
  eexists. split.
  - apply Hget; [reflexivity|vm_compute; reflexivity|vm_compute; reflexivity].
  - by rewrite lookup_insert_eq.
Defined.

(** ** The installer's two commands are told apart *)

Lemma sextet_not_quote (n : Z) : Ascii.eqb (sextet n) "'" = false.
Proof.
  unfold sextet.
  assert (Hm : (Z.to_nat (n mod 64) < 64)%nat)
    by (pose proof (Z.mod_pos_bound n 64 ltac:(lia)); lia).
  generalize dependent (Z.to_nat (n mod 64)). intros m Hm.
  do 64 (destruct m as [|m]; [reflexivity|]). lia.
Qed.

Lemma after_quote_cons (a : ascii) (s : string) :
  Ascii.eqb a "'" = false -> after_quote (String a s) = after_quote s.
Proof. simpl. by intros ->. Qed.

Lemma after_quote_base64 (s t : string) :
  after_quote (base64 s +:+ t) = after_quote t.
Proof.
  cut (after_quote (base64 s +:+ t) = after_quote t /\
       (forall a, after_quote (base64 (String a s) +:+ t) = after_quote t) /\
       (forall a b, after_quote (base64 (String a (String b s)) +:+ t)
                    = after_quote t)); [tauto|].
  induction s as [|c s (IH0 & IH1 & IH2)].
  - split; [reflexivity|]. split.
    + intros a.
      change (base64 (String a "") +:+ t)
        with (let n := code a * 65536 in
              String (sextet (n / 262144)) (String (sextet (n / 4096))
                (String "=" (String "=" t)))).
      cbv zeta. rewrite !after_quote_cons by apply sextet_not_quote.
      reflexivity.
    + intros a b.
      change (base64 (String a (String b "")) +:+ t)
        with (let n := code a * 65536 + code b * 256 in
              String (sextet (n / 262144)) (String (sextet (n / 4096))
                (String (sextet (n / 64)) (String "=" t)))).
      cbv zeta. rewrite !after_quote_cons by apply sextet_not_quote.
      reflexivity.
  - split; [exact (IH1 c)|]. split; [intros a; exact (IH2 a c)|]. intros a b.
    change (base64 (String a (String b (String c s))) +:+ t)
      with (let n := code a * 65536 + code b * 256 + code c in
            String (sextet (n / 262144)) (String (sextet (n / 4096))
              (String (sextet (n / 64)) (String (sextet n) (base64 s +:+ t))))).
    cbv zeta. rewrite !after_quote_cons by apply sextet_not_quote. apply IH0.
Qed.

Lemma after_quote_escaped (k t : string) :
  after_quote (replaceAll k "'" "'\''" +:+ String "'" t) = Some t \/
  exists r, after_quote (replaceAll k "'" "'\''" +:+ String "'" t)
            = Some (String "\" r).
Proof.
  induction k as [|a k IH]; [by left|].
  simpl. destruct (Ascii.eqb a "'") eqn:E.
  - right. eexists. reflexivity.
  - change (String a ?x +:+ ?y) with (String a (x +:+ y)).
    by rewrite after_quote_cons.
Qed.

Lemma command1_ne_command2 (k k' : string) :
  Init.command1 k <> Init.command2 k'.
Proof.
  unfold Init.command1, Init.command2. intros H.
  apply (inj (String.app "echo '")) in H.
  apply (f_equal after_quote) in H.
  change ("' >> ~/.ssh/authorized_keys")
    with (String "'" " >> ~/.ssh/authorized_keys") in H.
  change ("' | base64 -d >> ~/.ssh/authorized_keys")
    with (String "'" " | base64 -d >> ~/.ssh/authorized_keys") in H.
  rewrite after_quote_base64 in H.
  destruct (after_quote_escaped k " >> ~/.ssh/authorized_keys") as [E|[r E]];
    rewrite E in H; discriminate.
Qed.

(** ** The remote installer *)

Global Hint Unfold Init.execCommand Init.connect Init.dispose
  Init.execSync_ssh_keygen Init.generateSSHKey Init.getPublicKeyContent
  Init.checkServerSSHConfig Init.tryDirectAppendMethod Init.tryBase64Method
  Init.addPublicKeyToRemote Init.testSSHKeyAuthentication
  Init.logAuthenticationInfo : sys.

(** Case analysis on the innermost stuck scrutinee. *)
Ltac case_inner :=
  match goal with
  | |- context [match ?x with _ => _ end] =>
      lazymatch x with
      | context [match _ with _ => _ end] => fail
      | _ => destruct x eqn:?
      end
  end.

Ltac explore := repeat (simpl; case_inner); simpl.

Lemma succeeded_false (c : option Z) :
  Init.succeeded c = false -> exists z, c = Some z /\ z <> 0.
Proof. destruct c as [z|]; simpl; [|done]. intros. exists z. split; [done|lia]. Qed.

Lemma command2_not_chmod (k : string) (P : Prop) :
  Init.command2 k = "chmod 600 ~/.ssh/authorized_keys" -> P.
Proof. discriminate. Qed.

Lemma command2_not_mkdir (k : string) (P : Prop) :
  Init.command2 k = "mkdir -p ~/.ssh && chmod 700 ~/.ssh" -> P.
Proof. discriminate. Qed.

Lemma command1_not_chmod (k : string) (P : Prop) :
  Init.command1 k = "chmod 600 ~/.ssh/authorized_keys" -> P.
Proof. discriminate. Qed.

Lemma command1_not_mkdir (k : string) (P : Prop) :
  Init.command1 k = "mkdir -p ~/.ssh && chmod 700 ~/.ssh" -> P.
Proof. discriminate. Qed.

Lemma SshExec_inj (c c' : string) (r r' : exec_response) :
  SshExec c r = SshExec c' r' -> c = c' /\ r = r'.
Proof. by intros [= -> ->]. Qed.

Lemma Log_inj (l l' : level) (m m' : string) :
  Log l m = Log l' m' -> l = l' /\ m = m'.
Proof. by intros [= -> ->]. Qed.

(** Membership in, and positions of, an explicit list of events. *)
Ltac events :=
  repeat match goal with
  | H : Init.succeeded ?c = false |- _ =>
      let z := fresh "z" in
      apply succeeded_false in H as (z & -> & H)
  | H : _ ∈ [] |- _ => by apply elem_of_nil in H
  | H : _ ∈ _ :: _ |- _ => apply elem_of_cons in H as [H|H]
  | H : [] !! _ = Some _ |- _ => by rewrite lookup_nil in H
  | H : (_ :: _) !! ?j = Some _ |- _ => destruct j as [|j]; simpl in H
  | H : Some ?x = Some ?y |- _ =>
      assert (x = y) by congruence; clear H
  | H : Init.command1 _ = Init.command2 _ |- _ => by apply command1_ne_command2 in H
  | H : Init.command2 _ = Init.command1 _ |- _ =>
      symmetry in H; by apply command1_ne_command2 in H
  | H : @eq string _ _ |- _ => discriminate H
  | H : @eq event _ _ |- _ => discriminate H
  | H : SshExec _ _ = SshExec _ _ |- _ =>
      let H' := fresh in apply SshExec_inj in H as [H H']
  | H : Log _ _ = Log _ _ |- _ =>
      let H' := fresh in apply Log_inj in H as [H H']
  | H : SshConnect _ _ _ _ _ = SshConnect _ _ _ _ _ |- _ =>
      inversion H; clear H
  | H : @eq exec_response _ _ |- _ => discriminate H
  | H : @eq exec_response _ _ |- _ => injection H as ? ?
  | H : @eq (outcome _) _ _ |- _ => discriminate H
  | H : Some _ = None |- _ => discriminate H
  | H : None = Some _ |- _ => discriminate H
  | H : true = false |- _ => discriminate H
  | H : false = true |- _ => discriminate H
  end; subst.

(** Exhibit an element, or a position, of an explicit list. *)
Ltac member :=
  solve [ repeat first [ apply elem_of_cons; left; reflexivity
                       | apply elem_of_cons; right ] ].

Ltac position :=
  first [ exists 0%nat; solve [eauto 6 with lia]
        | exists 1%nat; solve [eauto 6 with lia]
        | exists 2%nat; solve [eauto 6 with lia]
        | exists 3%nat; solve [eauto 6 with lia]
        | exists 4%nat; solve [eauto 6 with lia]
        | exists 5%nat; solve [eauto 6 with lia]
        | exists 6%nat; solve [eauto 6 with lia]
        | exists 7%nat; solve [eauto 6 with lia]
        | exists 8%nat; solve [eauto 6 with lia] ].

Lemma succeeded_ok (c : option Z) :
  Init.succeeded c = true -> c = None \/ c = Some 0.
Proof. destruct c as [z|]; simpl; [|by left]. intros. right. f_equal. lia. Qed.

Lemma failed_not_ok (z : Z) : z <> 0 -> ~ (Some z = None \/ Some z = Some 0).
Proof. intros Hz [?|?]; congruence. Qed.

(** C4, amended: the installer starts with mkdir and runs Method 1 (the
    shell-escaped append) first; Method 2 (the base64 append) is issued
    exactly when Method 1's append came back with a non-zero exit code, and
    after it; the installer returns true exactly when the append of one of
    the methods exits with code 0 (or null) and the chmod that follows it
    is answered; when both appends come back with a non-zero code it
    returns false and logs the stderr of both; when a command is rejected,
    also the chmod after a successful append, it returns false. *)
Theorem addPublicKeyToRemote_fallback (env : environment) (pub : string)
    (w w' : world) (r : outcome bool) :
  Init.addPublicKeyToRemote env pub w = (r, w') ->
  let keyLine := trim pub in
  let mkdir := SshExec "mkdir -p ~/.ssh && chmod 700 ~/.ssh" in
  let append1 :=
    SshExec ("echo '" +:+ replaceAll keyLine "'" "'\''"
             +:+ "' >> ~/.ssh/authorized_keys") in
  let append2 :=
    SshExec ("echo '" +:+ base64 (keyLine +:+ nl)
             +:+ "' | base64 -d >> ~/.ssh/authorized_keys") in
  let chmod := SshExec "chmod 600 ~/.ssh/authorized_keys" in
  let ok (code : option Z) := code = None \/ code = Some 0 in
  exists new,
    trace w' = (trace w ++ new)%list /\
    (r = Return true \/ r = Return false) /\
    (exists a rest,
        new = Log INFO (nl +:+ " Adding public key to remote server...")
              :: mkdir a :: rest) /\
    (forall c e, mkdir (ExecResolves c e) ∈ new -> exists a1, append1 a1 ∈ new) /\
    ((exists a2, append2 a2 ∈ new) <->
     (exists c e, append1 (ExecResolves c e) ∈ new /\ ~ ok c)) /\
    (forall j a2,
        new !! j = Some (append2 a2) ->
        exists i a1, (i < j)%nat /\ new !! i = Some (append1 a1)) /\
    (r = Return true <->
     exists c e c' e',
       (append1 (ExecResolves c e) ∈ new \/ append2 (ExecResolves c e) ∈ new) /\
       ok c /\ chmod (ExecResolves c' e') ∈ new) /\
    (forall c1 e1 c2 e2,
        append1 (ExecResolves c1 e1) ∈ new -> ~ ok c1 ->
        append2 (ExecResolves c2 e2) ∈ new -> ~ ok c2 ->
        r = Return false /\
        Log ERROR "Both methods failed" ∈ new /\
        Log ERROR ("Method 1 stderr: " +:+ e1) ∈ new /\
        Log ERROR ("Method 2 stderr: " +:+ e2) ∈ new) /\
    (forall command m,
        SshExec command (ExecRejects m) ∈ new ->
        r = Return false /\
        Log ERROR ("Error adding public key to remote: " +:+ m) ∈ new).
Proof.
  intros H keyLine mkdir append1 append2 chmod ok. revert H.
  subst mkdir append1 append2 chmod ok keyLine. cbv beta.
  change ("echo '" +:+ replaceAll (trim pub) "'" "'\''"
          +:+ "' >> ~/.ssh/authorized_keys") with (Init.command1 (trim pub)).
  change ("echo '" +:+ base64 (trim pub +:+ nl)
          +:+ "' | base64 -d >> ~/.ssh/authorized_keys")
    with (Init.command2 (trim pub)).
  run. explore; intros [= <- <-]; simpl; rewrite <- ?app_assoc; simpl;
    (eexists; split; [reflexivity|]).
  all: split; [by auto|].
  all: split; [eexists _, _; reflexivity|].
  all: split; [intros c e Hmk; events; try (eexists; member)|].
  all: split; [split;
    [ intros [a2 H2]; events;
      try (eexists _, _; split; [member|by apply failed_not_ok])
    | intros (c & e & H1 & Hc);
      try (apply elem_of_list_here || fail);
      events; try (eexists; member);
      try (exfalso; apply Hc; by apply succeeded_ok) ]|].
  all: split; [intros j a2 Hj; events; try position|].
  all: split; [split;
    [ intros Hr; events;
      try (eexists _, _, _, _; split; [left; member|];
           split; [by apply succeeded_ok|member]);
      try (eexists _, _, _, _; split; [right; member|];
           split; [by apply succeeded_ok|member])
    | intros (c & e & c' & e' & [H1|H1] & Hc & H2); events; try done;
      try (exfalso; by eapply failed_not_ok) ]|].
  all: split; [intros c1 e1 c2 e2 H1 Hc1 H2 Hc2; events; try done;
               try (exfalso;
                    first [ apply Hc1; by apply succeeded_ok
                          | apply Hc2; by apply succeeded_ok ]);
               try (split; [done|repeat split; member])|].
  all: intros command m Hrej; events;
       try match goal with
           | H : ExecRejects _ = ExecRejects _ |- _ => injection H as ->
           end;
       try (split; [done|member]).
Qed.

Lemma addPublicKeyToRemote_fallback_witness :
  (Init.addPublicKeyToRemote env_escaping_fails "ssh-rsa AAAA it's me" w0).1
  = Return true.
Proof.
  pose (run := Init.addPublicKeyToRemote env_escaping_fails "ssh-rsa AAAA it's me" w0).
  assert (Hrun : Init.addPublicKeyToRemote env_escaping_fails "ssh-rsa AAAA it's me" w0
                 = (run.1, run.2)) by (vm_compute; reflexivity).
  destruct (addPublicKeyToRemote_fallback _ _ _ _ _ Hrun)
    as (new & Htrace & _ & _ & _ & _ & _ & Hsuccess & _).
  assert (Hnew : new = trace run.2) by (rewrite Htrace; reflexivity).
  apply Hsuccess. exists (Some 0), "", (Some 0), "".
  split; [|split].
  - right. rewrite Hnew. vm_compute. member.
  - by right.
  - rewrite Hnew. vm_compute. member.
Defined.

(** C4, the claim as first stated: a method can succeed without the install
    reporting success.  Here Method 1's append exits with code 0 and the
    installer logs that the key is installed; the channel closes at the
    chmod that follows, and the installer returns false, without trying
    Method 2. *)
Lemma addPublicKeyToRemote_append_succeeds_install_fails :
  exists w',
    Init.addPublicKeyToRemote env_chmod_rejected "ssh-rsa AAAA fastssh" w0
    = (Return false, w') /\
    SshExec "echo 'ssh-rsa AAAA fastssh' >> ~/.ssh/authorized_keys"
      (ExecResolves (Some 0) "") ∈ trace w' /\
    Log SUCCESS "Public key installed successfully" ∈ trace w' /\
    Forall (fun e => match e with
                     | SshExec command _ => includes command "base64" = false
                     | _ => True
                     end) (trace w').
Proof.
  eexists. split; [vm_compute; reflexivity|].
  split; [member|]. split; [member|]. repeat constructor.
Qed.

(** ** Connecting *)

Global Hint Unfold Connect.validateServerName Connect.validateServerConfig
  Connect.expand_field Connect.validatePrivateKeyExists
  Connect.handleConnectionError Connect.requestShell Connect.authType
  Connect.connect getServer : sys.

(** The events a run added to the trace. *)
Ltac added :=
  simpl; rewrite <- ?app_assoc; simpl;
  first [ eexists; split; [reflexivity|]
        | exists []; split; [symmetry; apply app_nil_r|] ].

(** C3 (the code departs from the claim): when the session of connect
    fails to open, whatever the error text, connect classifies nothing: its
    catch clause reads the unbound identifier authType, a ReferenceError is
    thrown in place of the call of handleConnectionError, and the failed
    connection attempt is the last thing the run did. *)
Theorem connect_failure_not_classified (env : environment) (name : string)
    (w w' : world) (r : outcome unit) :
  Connect.connect env name w = (r, w') ->
  exists new,
    trace w' = (trace w ++ new)%list /\
    forall host user port c m,
      SshConnect host user port c (Some m) ∈ new ->
      r = Throw (ReferenceError "authType is not defined") /\
      last new = Some (SshConnect host user port c (Some m)).
Proof.
  run. explore; intros [= <- <-]; added.
  all: intros host user port c m Hc; events; done.
Qed.

(** ** Provisioning *)

Global Hint Unfold Init.provision Init.init hasServer findServerByHostUser
  removeServer : sys.

Lemma addServer_without_passphrase (name : string) (obj : object) (w : world) :
  field obj "passphrase" = VUndefined ->
  addServer name obj w =
  (Return tt,
   record_event (ConfigWritten (json <$> set (stored w) name (built obj)))
     (with_config (json <$> set (stored w) name (built obj)) w)).
Proof. intros H. unfold addServer, built, stored. run. rewrite H. reflexivity. Qed.

Ltac stored_record :=
  match goal with
  | H : addServer _ _ _ = _ |- _ =>
      rewrite addServer_without_passphrase in H by (vm_compute; reflexivity);
      inversion H; clear H; subst
  end.

(** *** The monitor *)

Lemma written_after_verification_verified (name : string) (tr : list event) :
  written_after_verification name true tr = true.
Proof. induction tr as [|e tr IH]; [done|]. simpl. rewrite IH. by case_match. Qed.

Lemma written_after_verification_app (name : string) (v : bool) (l1 l2 : list event) :
  written_after_verification name v l1 = true ->
  (forall v', written_after_verification name v' l2 = true) ->
  written_after_verification name v (l1 ++ l2) = true.
Proof.
  revert v. induction l1 as [|e l1 IH]; intros v H1 H2; simpl in *; [done|].
  apply andb_prop in H1 as [-> H1]. simpl. by apply IH.
Qed.

Lemma written_after_verification_quiet (name : string) (v : bool) (tr : list event) :
  Forall (fun e => records name e = false) tr ->
  written_after_verification name v tr = true.
Proof.
  intros H. revert v. induction H as [|e tr He _ IH]; intros v; [done|].
  simpl. by rewrite He, IH.
Qed.

(** *** The installer, as the orchestrator sees it *)

Lemma addPublicKeyToRemote_summary (env : environment) (pub : string)
    (w w' : world) (r : outcome bool) :
  Init.addPublicKeyToRemote env pub w = (r, w') ->
  exists new,
    trace w' = (trace w ++ new)%list /\
    config_json w' = config_json w /\ keychain w' = keychain w /\
    files w' = files w /\ homedir w' = homedir w /\
    keychain_error w' = keychain_error w /\
    Forall (fun e => is_log e || is_exec e = true) new /\
    ((r = Return true /\ ~ install_failed new) \/ r = Return false).
Proof.
  run. explore; intros [= <- <-]; added.
  all: do 5 (split; [reflexivity|]).
  all: split; [repeat constructor|].
  all: try (by right).
  all: left; split; [reflexivity|];
       intros (k & c1 & e1 & c2 & e2 & H1 & Hc1 & H2 & Hc2); events;
       try done; try (simpl in *; lia).
Qed.

(** *** Stepping through a command *)

Lemma bind_eq {A B : Type} (m : M A) (f : A -> M B) (w : world) :
  (m ≫= f) w =
  match m w with
  | (Return a, w1) => f a w1
  | (Throw e, w1) => (Throw e, w1)
  | (Exit c, w1) => (Exit c, w1)
  end.
Proof. reflexivity. Qed.

Lemma ret_eq {A : Type} (a : A) (w : world) :
  (mret a : M A) w = (Return a, w).
Proof. reflexivity. Qed.

Lemma try_catch_eq {A : Type} (body : M A) (handler : exn -> M A) (w : world) :
  try_catch body handler w =
  match body w with
  | (Throw e, w1) => handler e w1
  | r => r
  end.
Proof. reflexivity. Qed.

(** One statement at a time: the primitives are computed, the calls that
    follow stay folded. *)
Ltac compute_head H :=
  cbv beta iota zeta delta
    [ emit throw exit get_trace expand
      log.info log.success log.error log.warn
      fs.existsSync fs.readFileSync
      record_event with_config with_files with_keychain
      homedir config_json files keychain keychain_error trace
      Init.execCommand Init.connect Init.dispose Init.execSync_ssh_keygen
      Init.generateSSHKey Init.getPublicKeyContent Init.checkServerSSHConfig
      Init.testSSHKeyAuthentication Init.logAuthenticationInfo
      loadConfig findServerByHostUser
      truthy ] in H.

Ltac case_stuck H :=
  match type of H with
  | context [match ?x with _ => _ end] =>
      lazymatch x with
      | context [match _ with _ => _ end] => fail
      | _ => destruct x eqn:?
      end
  end.

Ltac exec H :=
  repeat (try change (from_option VStr VNull (Some ?c)) with (VStr c) in H;
          try change (from_option VStr VNull None) with VNull in H;
          compute_head H;
          first [ rewrite bind_eq in H
                | rewrite try_catch_eq in H
                | rewrite ret_eq in H
                | case_stuck H ]).

Lemma command1_not_touch (k : string) (P : Prop) :
  Init.command1 k = "touch ~/.fastssh_test && rm ~/.fastssh_test && echo 'OK'" -> P.
Proof. discriminate. Qed.

(** What the calls that stayed folded did. *)
Ltac summaries :=
  repeat match goal with
  | E : Init.addPublicKeyToRemote _ _ _ = _ |- _ =>
      let new := fresh "installer" in
      let Hall := fresh "Hall" in
      let Hcase := fresh "Hcase" in
      apply addPublicKeyToRemote_summary in E
        as (new & ? & ? & ? & ? & ? & ? & Hall & Hcase);
      simpl in *; subst;
      destruct Hcase as [[? ?]|?]; try discriminate
  | E : addServer _ _ _ = _ |- _ =>
      rewrite addServer_without_passphrase in E by (vm_compute; reflexivity);
      inversion E; clear E; subst
  end.

Lemma installer_events_quiet (name : string) (l : list event) :
  Forall (fun e => is_log e || is_exec e = true) l ->
  Forall (fun e => records name e = false) l.
Proof. intros H. eapply Forall_impl; [exact H|]. by intros []. Qed.

Lemma installer_events_no_session (l : list event) (e : event) :
  Forall (fun e => is_log e || is_exec e = true) l ->
  e ∈ l -> is_key_reject e = true -> False.
Proof.
  intros Hall He Hrej. rewrite Forall_forall in Hall.
  specialize (Hall e He). by destruct e.
Qed.

(** Every write of the config file in [l] is behind an opened
    key-authenticated session. *)
Ltac monitor :=
  repeat first
    [ apply written_after_verification_verified
    | match goal with
      | |- written_after_verification _ _ [] = true => reflexivity
      | |- written_after_verification _ _ (?e :: _) = true =>
          change (written_after_verification ?n ?v (e :: ?l))
            with (written_after_verification n (v || is_key_accept e) l);
          cbn [is_key_accept orb]; rewrite ?orb_true_r, ?orb_false_r
      | |- written_after_verification _ _ (_ ++ _) = true =>
          apply written_after_verification_app;
          [ apply written_after_verification_quiet;
            eapply installer_events_quiet; eassumption
          | intros ? ]
      end ].

Lemma length_append (s t : string) :
  String.length (s +:+ t) = (String.length s + String.length t)%nat.
Proof.
  induction s as [|a s IH]; [done|].
  change (S (String.length (s +:+ t)) = S (String.length s + String.length t)).
  by rewrite IH.
Qed.

Lemma append_pub_ne (s : string) : s +:+ ".pub" <> s.
Proof.
  intros H. apply (f_equal String.length) in H.
  rewrite length_append in H. simpl in H. lia.
Qed.

Ltac in_trace H :=
  repeat first [ apply elem_of_cons in H as [H|H]
               | apply elem_of_app in H as [H|H] ].

Ltac no_install_failure :=
  let H1 := fresh "H1" in
  let H2 := fresh "H2" in
  intros (? & ? & ? & ? & ? & H1 & ? & H2 & ?);
  in_trace H1; try discriminate H1; try (by apply elem_of_nil in H1);
  in_trace H2; try discriminate H2; try (by apply elem_of_nil in H2);
  match goal with
  | Hnot : ~ install_failed _ |- _ =>
      apply Hnot; do 5 eexists; repeat split; eassumption
  end.

Ltac no_verification_failure :=
  let e := fresh "e" in
  let He := fresh "He" in
  let Hrej := fresh "Hrej" in
  intros (e & He & Hrej);
  in_trace He; subst; try discriminate Hrej;
  try (by apply elem_of_nil in He);
  first [ eapply installer_events_no_session; eassumption
        | match goal with
          | Hnot : ~ verification_failed _ |- _ =>
              apply Hnot; eexists; split; eassumption
          end ].

Ltac refute_key_ensured Hkey :=
  let Hk := fresh "Hk" in
  destruct Hkey as [Hk|[? Hk]];
  [ match goal with
    | E : bool_decide _ = false |- _ => by apply bool_decide_eq_false_1 in E
    end
  | congruence ].

Ltac key_exists :=
  first
    [ match goal with
      | E : bool_decide _ = true |- _ => by apply bool_decide_eq_true_1 in E
      end
    | rewrite lookup_insert_ne by apply append_pub_ne;
      rewrite lookup_insert_eq; by eexists ].

Ltac duplicate_rejected :=
  let existing := fresh "existing" in
  let Hfind := fresh "Hfind" in
  let Hne := fresh "Hne" in
  let Hkey := fresh "Hkey" in
  intros existing Hfind Hne Hkey;
  unfold stored, id_rsa in *; cbn [config_json homedir files] in *;
  first
    [ match goal with
      | E : findByHostUser _ _ _ = _ |- _ =>
          rewrite Hfind in E;
          first [ discriminate E
                | injection E as <-;
                  match goal with
                  | N : negb (_ =? _)%string = false |- _ =>
                      apply negb_false_iff, String.eqb_eq in N; contradiction
                  | N : negb (_ =? _)%string = true |- _ =>
                      split; [reflexivity|];
                      split; [member|];
                      split; [repeat constructor|key_exists]
                  end ]
      end
    | refute_key_ensured Hkey ].

Lemma provision_outcome (env : environment) (name : string) (w w' : world)
    (r : outcome unit) :
  Init.provision env name w = (r, w') ->
  exists new,
    trace w' = (trace w ++ new)%list /\
    keychain w' = keychain w /\
    written_after_verification name false new = true /\
    ((r = Return tt /\ ~ install_failed new /\ ~ verification_failed new) \/
     (r = Exit 1 /\ config_json w' = config_json w)) /\
    (forall existing,
        findByHostUser (stored w) (VStr (answer_host env)) (VStr (answer_user env))
          = Some existing ->
        existing <> "" ->
        (is_Some (files w !! id_rsa w) \/ exists pair, ssh_keygen env = inr pair) ->
        r = Exit 1 /\
        Log ERROR (" This IP and user combination already exist as '"
                   +:+ existing +:+ "'") ∈ new /\
        Forall (fun e => is_network e = false /\ is_store_write e = false) new /\
        is_Some (files w' !! id_rsa w)).
Proof.
  intros H. unfold Init.provision in H.
  destruct w as [home cfg fls kc ke tr]. exec H.
  all: summaries.
  all: pose proof (f_equal fst H) as Hr; pose proof (f_equal snd H) as Hw;
       cbn [fst snd] in Hr, Hw; clear H; subst r w'.
  all: cbn [trace keychain config_json files homedir]; rewrite <- ?app_assoc;
       cbn [app]; (eexists; split; [reflexivity|]).
  all: split; [reflexivity|].
  all: split; [monitor|].
  all: split;
    [ first [ right; split; reflexivity
            | left; split; [reflexivity|]; split;
              [no_install_failure|no_verification_failure] ] |].
  all: duplicate_rejected.
Qed.

(** *** init *)

Lemma get_Undefined (cfg : config) (name : string) :
  get cfg name = Undefined -> cfg !! name = None.
Proof. unfold get. destruct (cfg !! name); [done|]. by case_bool_decide. Qed.

Lemma removed_not_recorded (name : string) (cfg : config) :
  records name (ConfigWritten (json <$> delete name cfg)) = false.
Proof.
  unfold records. apply bool_decide_eq_false_2.
  rewrite lookup_fmap, lookup_delete_eq. by intros [? ?].
Qed.

Ltac compute_store H :=
  cbv beta iota zeta delta
    [ hasServer removeServer loadConfig saveConfig keytar.deletePassword
      Init.init emit log.info
      record_event with_config with_files with_keychain
      homedir config_json files keychain keychain_error trace ] in H.

Ltac exec_store H :=
  repeat (compute_store H;
          first [ rewrite bind_eq in H
                | rewrite try_catch_eq in H
                | rewrite ret_eq in H
                | case_stuck H ]).

Lemma written_after_verification_cons (name : string) (v : bool)
    (e : event) (l : list event) :
  records name e = false ->
  written_after_verification name v (e :: l)
  = written_after_verification name (v || is_key_accept e) l.
Proof. simpl. by intros ->. Qed.

Ltac provisioned H :=
  let new := fresh "new" in
  let Htrace := fresh "Htrace" in
  let Hkeychain := fresh "Hkeychain" in
  let Hmonitor := fresh "Hmonitor" in
  let Hcase := fresh "Hcase" in
  let Hduplicate := fresh "Hduplicate" in
  apply provision_outcome in H
    as (new & Htrace & Hkeychain & Hmonitor & Hcase & Hduplicate);
  cbn [trace keychain config_json files homedir] in *.

Ltac returned H :=
  let Hr := fresh "Hr" in
  let Hw := fresh "Hw" in
  pose proof (f_equal fst H) as Hr; pose proof (f_equal snd H) as Hw;
  cbn [fst snd] in Hr, Hw; clear H;
  match type of Hr with _ = ?r => subst r end;
  match type of Hw with _ = ?w => subst w end.

(** C2: in every run of init in which both installer methods fail or the
    key-based verification session fails to authenticate, the process
    exits with status 1 and the Config Store holds no entry for the alias
    afterwards; and whenever the config file is written with an entry for
    the alias, a key-authenticated session was opened before. *)
Theorem init_all_or_nothing (env : environment) (name : string)
    (w w' : world) (r : outcome unit) :
  Init.init env name w = (r, w') ->
  exists new,
    trace w' = (trace w ++ new)%list /\
    (install_failed new \/ verification_failed new ->
     stored w' !! name = None /\ r = Exit 1) /\
    written_after_verification name false new = true.
Proof.
  intros H. unfold Init.init in H.
  destruct w as [home cfg fls kc ke tr]. exec_store H.
  all: first [ provisioned H; rewrite Htrace | returned H ].
  all: cbn [trace]; rewrite <- ?app_assoc; cbn [app];
       (eexists; split; [reflexivity|]).
  all: split.
  all: try (rewrite ?written_after_verification_cons
              by first [apply removed_not_recorded | reflexivity];
            first [ assumption | reflexivity ]).
  all: intros Hfailed.
  all: try (exfalso; destruct Hfailed as [Hfailed|Hfailed]; revert Hfailed;
            [no_install_failure|no_verification_failure]).
  all: destruct Hcase as [(-> & Hinstalled & Hverified)|[-> Hconfig]];
    [ exfalso; destruct Hfailed as [Hfailed|Hfailed]; revert Hfailed;
      [no_install_failure|no_verification_failure] |].
  all: split; [|reflexivity]; unfold stored; rewrite Hconfig; simpl.
  all: first [ by rewrite lookup_fmap, lookup_delete_eq
             | by apply get_Undefined ].
Qed.

(** *** The duplicate check *)

Lemma findByHostUser_Some (cfg : config) (host user : value) (name : string) :
  findByHostUser cfg host user = Some name ->
  exists server,
    cfg !! name = Some server /\
    field server "host" = host /\ field server "user" = user.
Proof.
  unfold findByHostUser. intros H.
  destruct (List.find _ _) as [[n server]|] eqn:E; [|done].
  simpl in H. injection H as ->.
  apply find_some in E as [Hin Hmatch].
  apply andb_prop in Hmatch as [Hh Hu].
  exists server. split; [|split].
  - apply elem_of_map_to_list. by apply list_elem_of_In.
  - by apply bool_decide_eq_true_1 in Hh.
  - by apply bool_decide_eq_true_1 in Hu.
Qed.

Lemma findByHostUser_exists (cfg : config) (host user : value) (name : string)
    (server : gmap string value) :
  cfg !! name = Some server ->
  field server "host" = host -> field server "user" = user ->
  exists existing, findByHostUser cfg host user = Some existing.
Proof.
  intros Hcfg Hh Hu. unfold findByHostUser.
  destruct (List.find _ _) as [[n s]|] eqn:E; [by eexists|]. exfalso.
  assert (Hin : In (name, server) (map_to_list cfg))
    by (apply list_elem_of_In; by apply elem_of_map_to_list).
  pose proof (find_none _ _ E (name, server) Hin) as Hf. simpl in Hf.
  rewrite !bool_decide_eq_true_2 in Hf by done. discriminate.
Qed.

Lemma duplicate_found (cfg1 cfg : config) (name other : string)
    (server : gmap string value) (host user : value) :
  (cfg1 = cfg /\ cfg !! name = None) \/ cfg1 = json <$> delete name cfg ->
  other <> name ->
  cfg !! other = Some server ->
  field server "host" = host -> field server "user" = user ->
  (forall unnamed, cfg !! "" = Some unnamed ->
     ~ (field unnamed "host" = host /\ field unnamed "user" = user)) ->
  exists existing holder,
    findByHostUser cfg1 host user = Some existing /\
    existing <> "" /\ existing <> name /\
    cfg !! existing = Some holder /\
    field holder "host" = host /\ field holder "user" = user.
Proof.
  intros Hcfg1 Hother Hserver Hhost Huser Hempty.
  destruct Hcfg1 as [[-> Hname]| ->].
  - destruct (findByHostUser_exists cfg host user other server)
      as [existing Hfind]; try done.
    destruct (findByHostUser_Some _ _ _ _ Hfind) as (holder & Hh & ? & ?).
    exists existing, holder. repeat split; try done; [|congruence].
    intros ->. by eapply Hempty.
  - destruct (findByHostUser_exists (json <$> delete name cfg) host user
                other (json server)) as [existing Hfind].
    + by rewrite lookup_fmap, lookup_delete_ne, Hserver.
    + by rewrite field_json.
    + by rewrite field_json.
    + destruct (findByHostUser_Some _ _ _ _ Hfind) as (holder & Hh & Hhh & Hhu).
      rewrite lookup_fmap in Hh.
      destruct (decide (existing = name)) as [->|Hne];
        [by rewrite lookup_delete_eq in Hh|].
      rewrite lookup_delete_ne in Hh by done.
      destruct (cfg !! existing) as [holder0|] eqn:E; [|done].
      simpl in Hh. injection Hh as <-. rewrite field_json in Hhh, Hhu.
      exists existing, holder0. repeat split; try done.
      intros ->. by eapply Hempty.
Qed.

Lemma not_store_write_not_recorded (name : string) (e : event) :
  is_store_write e = false -> records name e = false.
Proof. by destruct e. Qed.

(** C5, amended: when the entered (host, user) pair is already held by
    another alias and not by the empty alias, the alias given to init is
    new or its re-creation was confirmed, and the local key exists or can
    be generated, init is rejected with the dedicated conflict message
    naming an alias that holds the pair and exits with status 1.  The
    rejection comes after the local key pair was ensured or generated, and
    before any network activity; for a new alias it comes before any store
    write; for an alias that is re-created the only store writes before it
    are those that remove the old entry, and no entry for the alias is
    written. *)
Theorem init_rejects_duplicate (env : environment) (name other : string)
    (server : gmap string value) (w w' : world) (r : outcome unit) :
  Init.init env name w = (r, w') ->
  other <> name ->
  stored w !! other = Some server ->
  field server "host" = VStr (answer_host env) ->
  field server "user" = VStr (answer_user env) ->
  (forall unnamed, stored w !! "" = Some unnamed ->
     ~ (field unnamed "host" = VStr (answer_host env) /\
        field unnamed "user" = VStr (answer_user env))) ->
  get (stored w) name = Undefined \/ answer_replace env = true ->
  is_Some (files w !! id_rsa w) \/ (exists pair, ssh_keygen env = inr pair) ->
  exists new existing holder,
    trace w' = (trace w ++ new)%list /\
    r = Exit 1 /\
    Log ERROR (" This IP and user combination already exist as '"
               +:+ existing +:+ "'") ∈ new /\
    existing <> name /\
    stored w !! existing = Some holder /\
    field holder "host" = VStr (answer_host env) /\
    field holder "user" = VStr (answer_user env) /\
    Forall (fun e => is_network e = false) new /\
    Forall (fun e => records name e = false) new /\
    (get (stored w) name = Undefined ->
     Forall (fun e => is_store_write e = false) new) /\
    Forall (fun e => is_store_write e = true ->
                     e = ConfigWritten (json <$> delete name (stored w)) \/
                     e = KeychainDelete (account name)) new /\
    is_Some (files w' !! id_rsa w) /\
    stored w' !! name = None.
Proof.
  intros H Hother Hserver Hhost Huser Hempty Hreached Hkey.
  unfold Init.init in H.
  destruct w as [home cfg fls kc ke tr].
  unfold stored, id_rsa in *. cbn [config_json homedir files] in *.
  exec_store H.
  all: try (destruct Hreached; congruence).
  all: provisioned H.
  all: unfold stored, id_rsa in Hduplicate;
       cbn [config_json homedir files] in Hduplicate.
  all: match type of Hduplicate with
       | forall _, findByHostUser ?cfg1 _ _ = _ -> _ =>
           destruct (duplicate_found cfg1 (default ∅ cfg) name other server
                       (VStr (answer_host env)) (VStr (answer_user env)))
             as (existing & holder & Hfind & Hne & Hnn & Hholder & Hh & Hu);
           try done;
           [ first [ right; reflexivity
                   | left; split; [reflexivity|by apply get_Undefined] ] |]
       end.
  all: destruct (Hduplicate existing Hfind Hne Hkey)
         as (-> & Hlog & Hquiet & Hfile).
  all: destruct Hcase as [[? _]|[_ Hconfig]]; [discriminate|].
  all: rewrite Htrace; rewrite <- ?app_assoc; cbn [app].
  all: eexists _, existing, holder; split; [reflexivity|].
  all: split; [reflexivity|].
  all: split; [rewrite ?elem_of_cons; auto 6|].
  all: do 4 (split; [assumption|]).
  all: split;
    [ repeat (apply Forall_cons; split; [reflexivity|]);
      eapply Forall_impl; [exact Hquiet|]; by intros ? [? ?] |].
  all: split;
    [ repeat (apply Forall_cons; split;
              [first [reflexivity | apply removed_not_recorded]|]);
      eapply Forall_impl; [exact Hquiet|];
      intros ? [? ?]; by apply not_store_write_not_recorded |].
  all: split;
    [ intros Hnew;
      first [ eapply Forall_impl; [exact Hquiet|]; by intros ? [? ?]
            | exfalso; clear - Hnew Heqp; congruence
            | exfalso; congruence ] |].
  all: split;
    [ repeat (apply Forall_cons; split;
              [intros Hs; first [ discriminate Hs
                                | left; reflexivity
                                | right; reflexivity ]|]);
      eapply Forall_impl; [exact Hquiet|];
      intros ? [_ Hs] Hs'; rewrite Hs in Hs'; discriminate Hs' |].
  all: split; [assumption|].
  all: rewrite Hconfig; simpl.
  all: first [ by rewrite lookup_fmap, lookup_delete_eq
             | by apply get_Undefined ].
Qed.

(** *** Concrete runs *)

Lemma init_all_or_nothing_witness :
  stored (Init.init env_key_refused "web1" w0).2 !! "web1" = None /\
  (Init.init env_key_refused "web1" w0).1 = Exit 1.
Proof.
  pose (run := Init.init env_key_refused "web1" w0).
  assert (Hrun : Init.init env_key_refused "web1" w0 = (run.1, run.2))
    by (vm_compute; reflexivity).
  destruct (init_all_or_nothing _ _ _ _ _ Hrun) as (new & Htrace & Hfail & _).
  assert (Hnew : new = trace run.2) by (rewrite Htrace; reflexivity).
  apply Hfail. right.
  exists (SshConnect (VStr "203.0.113.10") (VStr "deploy") (VNum 22)
            (PrivateKey "PRIV" VUndefined)
            (Some "All configured authentication methods failed")).
  split; [|reflexivity]. rewrite Hnew. vm_compute. member.
Defined.

(** C5, the claim as first stated: with no local key and the pair already
    held by web1, init of a new alias generates the key pair before it
    reports the duplicate; when the alias being re-created is confirmed for
    replacement, its entry is removed from the store (a store write) before
    the duplicate is reported; and when the pair is held by the empty alias
    only, nothing is rejected: findServerByHostUser answers the empty
    string, which is falsy, and init provisions the new alias for the same
    pair. *)
Lemma init_duplicate_found_after_keygen :
  let fresh := Init.init env0 "web3" w_taken in
  let again := Init.init env_replace "web2" w_taken in
  let unnamed := Init.init env0 "web3" w_unnamed in
  files w_taken !! "/home/u/.ssh/id_rsa" = None /\
  fresh.1 = Exit 1 /\
  trace fresh.2 =
    [ Prompt "IP:"; Prompt "User:"; Prompt "SSH Port:";
      Log INFO (nl +:+ " SSH key not found. Generating a new SSH key for you...");
      Log INFO (nl +:+ " Generating RSA-4096 SSH key at: ~/.ssh/id_rsa");
      SshKeygen "/home/u/.ssh/id_rsa";
      Log SUCCESS " SSH key generated successfully!";
      Log ERROR " This IP and user combination already exist as 'web1'";
      Log INFO "Please use a different IP or user, or remove 'web1' first." ] /\
  files fresh.2 !! "/home/u/.ssh/id_rsa" = Some (Readable "PRIV") /\
  again.1 = Exit 1 /\
  field (default ∅ (stored w_taken !! "web2")) "host" = VStr "198.51.100.7" /\
  stored again.2 !! "web2" = None /\
  trace again.2 !! 1%nat
    = Some (ConfigWritten (json <$> delete "web2" (stored w_taken))) /\
  trace again.2 !! 2%nat = Some (KeychainDelete "web2:passphrase") /\
  trace again.2 !! 10%nat
    = Some (Log ERROR " This IP and user combination already exist as 'web1'") /\
  field (default ∅ (stored w_unnamed !! "")) "host" = VStr (answer_host env0) /\
  field (default ∅ (stored w_unnamed !! "")) "user" = VStr (answer_user env0) /\
  findByHostUser (stored w_unnamed) (VStr (answer_host env0))
    (VStr (answer_user env0)) = Some "" /\
  unnamed.1 = Return tt /\
  field (default ∅ (stored unnamed.2 !! "web3")) "host" = VStr (answer_host env0) /\
  field (default ∅ (stored unnamed.2 !! "web3")) "user" = VStr (answer_user env0).
Proof.
  cbv zeta.
  repeat (split; [vm_compute; reflexivity|]).
  vm_compute; reflexivity.
Qed.

Lemma init_rejects_duplicate_witness :
  (Init.init env0 "web3" w_taken).1 = Exit 1.
Proof.
  pose (run := Init.init env0 "web3" w_taken).
  pose (holder := {[ "host" := VStr "203.0.113.10"; "user" := VStr "deploy";
                     "authType" := VStr "key";
                     "keyPath" := VStr "~/.ssh/id_rsa" ]} : gmap string value).
  assert (Hrun : Init.init env0 "web3" w_taken = (run.1, run.2))
    by (vm_compute; reflexivity).
  assert (Hother : "web1" <> "web3") by discriminate.
  assert (Hserver : stored w_taken !! "web1" = Some holder)
    by (vm_compute; reflexivity).
  assert (Hhost : field holder "host" = VStr (answer_host env0))
    by (vm_compute; reflexivity).
  assert (Huser : field holder "user" = VStr (answer_user env0))
    by (vm_compute; reflexivity).
  assert (Hempty : forall unnamed, stored w_taken !! "" = Some unnamed ->
            ~ (field unnamed "host" = VStr (answer_host env0) /\
               field unnamed "user" = VStr (answer_user env0)))
    by (intros unnamed Hu; vm_compute in Hu; discriminate Hu).
  assert (Hreached : get (stored w_taken) "web3" = Undefined \/
                     answer_replace env0 = true)
    by (left; vm_compute; reflexivity).
  assert (Hkey : is_Some (files w_taken !! id_rsa w_taken) \/
                 (exists pair, ssh_keygen env0 = inr pair))
    by (right; eexists; reflexivity).
  destruct (init_rejects_duplicate env0 "web3" "web1" holder w_taken run.2 run.1
              Hrun Hother Hserver Hhost Huser Hempty Hreached Hkey)
    as (new & existing & who & _ & Hr & _).
  exact Hr.
Defined.

Lemma connect_failure_not_classified_witness :
  (Connect.connect env_refused "web1" w_ready).1
  = Throw (ReferenceError "authType is not defined").
Proof.
  pose (run := Connect.connect env_refused "web1" w_ready).
  assert (Hrun : Connect.connect env_refused "web1" w_ready = (run.1, run.2))
    by (vm_compute; reflexivity).
  destruct (connect_failure_not_classified _ _ _ _ _ Hrun)
    as (new & Htrace & Hfailure).
  assert (Hnew : new = trace run.2) by (rewrite Htrace; reflexivity).
  apply (Hfailure (VStr "203.0.113.10") (VStr "deploy") (VNum 22)
           (PrivateKey "PRIV" VUndefined) "connect ECONNREFUSED 203.0.113.10:22").
  rewrite Hnew. vm_compute. member.
Defined.
(** * Further properties of the code *)

Import Js EdgeCases Sys Store Observations Scenarios.

(** ** The config store, continued *)

Lemma addServer_keychain_error (name : string) (obj : object) (w w' : world) :
  addServer name obj w = (Return tt, w') ->
  keychain_error w' = keychain_error w.
Proof.
  unfold addServer. run.
  destruct (truthy (field obj "passphrase")); [|intros [= <-]; reflexivity].
  destruct (field obj "passphrase"); try done.
  destruct (keychain_error w) eqn:E; [done|]. intros [= <-]. simpl. by rewrite E.
Qed.

Lemma addServer_passphrase_string (name : string) (obj : object) (w w' : world) :
  addServer name obj w = (Return tt, w') ->
  truthy (field obj "passphrase") = true ->
  exists p, field obj "passphrase" = VStr p.
Proof.
  unfold addServer. run. intros H Ht. rewrite Ht in H.
  destruct (field obj "passphrase"); try done. by eexists.
Qed.

(** X1: what addServer stores, getServer reads back.  For an alias other
    than "__proto__" and a working secret service, getServer after
    addServer returns a record whose host, user and keyPath are those given
    (keyPath only when truthy), whose authType is "key", and whose
    passphrase is the one given; when none was given, the passphrase is
    whatever the secret store already held for the alias (null when
    nothing), since addServer does not clear it. *)
Theorem addServer_then_getServer (name : string) (obj : object) (w w1 : world) :
  name <> "__proto__" ->
  keychain_error w = None ->
  addServer name obj w = (Return tt, w1) ->
  exists r,
    getServer name w1 = (Return (Some r), w1) /\
    field r "host" = field obj "host" /\
    field r "user" = field obj "user" /\
    field r "authType" = VStr "key" /\
    field r "keyPath" =
      (if truthy (field obj "keyPath") then field obj "keyPath" else VUndefined) /\
    field r "passphrase" =
      (if truthy (field obj "passphrase") then field obj "passphrase"
       else from_option VStr VNull (keychain w !! account name)).
Proof.
  intros Hname Hup Hadd.
  pose proof (addServer_keychain_error _ _ _ _ Hadd) as Hup1. rewrite Hup in Hup1.
  pose proof Hadd as (Hcfg & Hkey & _)%addServer_returns.
  assert (Hentry : stored w1 !! name = Some (json (built obj))).
  { unfold stored at 1. rewrite Hcfg. simpl.
    by rewrite lookup_fmap, lookup_set_plain. }
  assert (Hauth : field (json (built obj)) "authType" = VStr "key").
  { rewrite field_json. unfold field. by rewrite built_lookup. }
  eexists. split.
  { unfold getServer. run. fold (stored w1). unfold get. rewrite Hentry.
    rewrite bool_decide_eq_true_2 by done. rewrite Hup1. reflexivity. }
  assert (Hother : forall k, k <> "passphrase" ->
            field (<["passphrase" := from_option VStr VNull (keychain w1 !! account name)]>
                     (json (built obj))) k = field (built obj) k).
  { intros k Hk. unfold field at 1. rewrite lookup_insert_ne by done.
    apply field_json. }
  split; [rewrite Hother by done; unfold field at 1; by rewrite built_lookup|].
  split; [rewrite Hother by done; unfold field at 1; by rewrite built_lookup|].
  split; [rewrite Hother by done; unfold field at 1; by rewrite built_lookup|].
  split.
  { rewrite Hother by done. unfold field at 1. rewrite built_lookup. simpl.
    by destruct (truthy (field obj "keyPath")). }
  unfold field at 1. rewrite lookup_insert_eq, Hkey.
  destruct (truthy (field obj "passphrase")) eqn:Ht; [|done].
  destruct (addServer_passphrase_string _ _ _ _ Hadd Ht) as [p ->].
  by rewrite lookup_insert_eq.
Qed.

Lemma addServer_then_getServer_witness :
  exists r,
    getServer "web1" (addServer "web1" init_fields w0).2
      = (Return (Some r), (addServer "web1" init_fields w0).2) /\
    field r "host" = VStr "203.0.113.10" /\
    field r "passphrase" = VStr "s3cret".
Proof.
  assert (Hname : "web1" <> "__proto__") by discriminate.
  assert (Hup : keychain_error w0 = None) by reflexivity.
  assert (Hadd : addServer "web1" init_fields w0
                 = (Return tt, (addServer "web1" init_fields w0).2))
    by (vm_compute; reflexivity).
  destruct (addServer_then_getServer _ _ _ _ Hname Hup Hadd)
    as (r & Hget & Hhost & _ & _ & _ & Hpass).
  exists r. split; [exact Hget|]. split; [exact Hhost|exact Hpass].
Defined.

Lemma removeServer_forgets (name : string) (w : world) :
  exists w',
    removeServer name w = (Return tt, w') /\
    stored w' !! name = None /\
    (forall other, other <> name ->
       stored w' !! other = json <$> stored w !! other).
Proof.
  unfold removeServer. run.
  destruct (keychain_error w); simpl;
    (eexists; split; [reflexivity|]); unfold stored; simpl;
    (split; [by rewrite lookup_fmap, lookup_delete_eq|]);
    intros other Hne; by rewrite lookup_fmap, lookup_delete_ne.
Qed.

(** X2: on the modelled machine, where the config file is parseable and
    can be written (loadConfig and saveConfig do not throw), removeServer
    returns normally, also when the secret service throws; afterwards the
    alias is gone: getServer answers undefined and hasServer answers false,
    except for the names every object inherits from Object.prototype
    (constructor, toString, ...), for which hasServer still answers true.
    The other aliases keep their entries, and with a working secret service
    the passphrase of the alias is deleted. *)
Theorem removeServer_then_lookup (name : string) (w : world) :
  exists w',
    removeServer name w = (Return tt, w') /\
    stored w' !! name = None /\
    hasServer name w' = (Return (bool_decide (name ∈ object_prototype)), w') /\
    (name ∉ object_prototype -> getServer name w' = (Return None, w')) /\
    (forall other, other <> name ->
       stored w' !! other = json <$> stored w !! other) /\
    (keychain_error w = None ->
     keychain w' = delete (account name) (keychain w)).
Proof.
  assert (Hlookup : forall w', stored w' !! name = None ->
            hasServer name w' = (Return (bool_decide (name ∈ object_prototype)), w') /\
            (name ∉ object_prototype -> getServer name w' = (Return None, w'))).
  { intros w' Hnone. split.
    - unfold hasServer. run. fold (stored w'). unfold get. rewrite Hnone.
      by case_bool_decide.
    - intros Hown. unfold getServer. run. fold (stored w'). unfold get.
      rewrite Hnone. by rewrite bool_decide_eq_false_2. }
  destruct (removeServer_forgets name w) as (w' & Hrm & Hnone & Hother).
  exists w'. split; [exact Hrm|]. split; [exact Hnone|].
  destruct (Hlookup _ Hnone) as [Hhas Hget].
  split; [exact Hhas|]. split; [exact Hget|]. split; [exact Hother|].
  intros Hup. revert Hrm. unfold removeServer. run. rewrite Hup. simpl.
  by intros [= <-].
Qed.

(** X3: findServerByHostUser reads only.  The alias it returns holds an
    entry whose host and user are strictly equal to the arguments, and it
    returns null exactly when no stored entry has that host and user. *)
Theorem findServerByHostUser_spec (host user : value) (w : world) :
  exists r,
    findServerByHostUser host user w = (Return r, w) /\
    (forall name, r = Some name ->
       exists server,
         stored w !! name = Some server /\
         field server "host" = host /\ field server "user" = user) /\
    (r = None <->
     forall name server,
       stored w !! name = Some server ->
       ~ (field server "host" = host /\ field server "user" = user)).
Proof.
  exists (findByHostUser (stored w) host user).
  split; [reflexivity|]. split.
  - intros name H. by apply findByHostUser_Some.
  - split.
    + intros Hnone name server Hs [Hh Hu].
      destruct (findByHostUser_exists (stored w) host user name server Hs Hh Hu)
        as [found Hfound]. congruence.
    + intros Hno.
      destruct (findByHostUser (stored w) host user) as [name|] eqn:E; [|done].
      apply findByHostUser_Some in E as (server & Hs & Hh & Hu).
      by destruct (Hno name server Hs).
Qed.

Lemma listServers_lists (w : world) :
  exists names,
    listServers w = (Return names, w) /\
    NoDup names /\
    (forall name, name ∈ names <-> is_Some (stored w !! name)).
Proof.
  exists ((map_to_list (stored w)).*1).
  split; [reflexivity|]. split.
  - apply NoDup_fst_map_to_list.
  - intros name. rewrite list_elem_of_fmap. split.
    + intros [[n s] [-> H%elem_of_map_to_list]]. by eexists.
    + intros [s H]. exists (name, s). split; [done|].
      by apply elem_of_map_to_list.
Qed.

(** X4: listServers follows the updates of the store.  After addServer
    the list holds, each once, the aliases stored before and the new alias
    (unless the alias is "__proto__", which creates no entry); after
    removeServer it holds the aliases stored before except the removed
    one. *)
Theorem listServers_after_update (name : string) (w : world) :
  (forall obj w1,
      addServer name obj w = (Return tt, w1) ->
      exists names,
        listServers w1 = (Return names, w1) /\ NoDup names /\
        forall n, n ∈ names <->
                  is_Some (stored w !! n) \/ (n = name /\ name <> "__proto__")) /\
  (exists w1 names,
      removeServer name w = (Return tt, w1) /\
      listServers w1 = (Return names, w1) /\ NoDup names /\
      forall n, n ∈ names <-> is_Some (stored w !! n) /\ n <> name).
Proof.
  split.
  - intros obj w1 (Hcfg & _)%addServer_returns.
    destruct (listServers_lists w1) as (names & Hlist & Hnodup & Hin).
    exists names. split; [done|]. split; [done|].
    intros n. rewrite Hin. unfold stored at 1. rewrite Hcfg. simpl.
    rewrite lookup_fmap, fmap_is_Some.
    destruct (decide (n = name)) as [->|Hne].
    + unfold set. case_match eqn:E.
      * apply andb_prop in E as [->%bool_decide_eq_true_1 Hnone%bool_decide_eq_true_1].
        rewrite Hnone. split; [by intros [? ?]|]. intros [[? ?]|[_ ?]]; done.
      * rewrite lookup_insert_eq. split; [|by eexists].
        intros _.
        destruct (decide (name = "__proto__")) as [->|Hp]; [|by right].
        left. rewrite bool_decide_eq_true_2 in E by done. simpl in E.
        apply bool_decide_eq_false_1 in E.
        by destruct (stored w !! "__proto__"); [eexists|].
    + rewrite lookup_set_ne by done. split; [by left|].
      intros [?|[? _]]; done.
  - destruct (removeServer_forgets name w) as (w1 & Hrm & Hnone & Hother).
    destruct (listServers_lists w1) as (names & Hlist & Hnodup & Hin).
    exists w1, names. split; [done|]. split; [done|]. split; [done|].
    intros n. rewrite Hin.
    destruct (decide (n = name)) as [->|Hne].
    + rewrite Hnone. split; [by intros [? ?]|]. by intros [_ ?].
    + rewrite Hother, fmap_is_Some by done. split; [done|]. by intros [? _].
Qed.

Lemma listServers_after_update_witness :
  exists names,
    listServers (addServer "web1" init_fields w0).2
      = (Return names, (addServer "web1" init_fields w0).2) /\
    "web1" ∈ names.
Proof.
  assert (Hadd : addServer "web1" init_fields w0
                 = (Return tt, (addServer "web1" init_fields w0).2))
    by (vm_compute; reflexivity).
  destruct (proj1 (listServers_after_update "web1" w0) _ _ Hadd)
    as (names & Hlist & _ & Hin).
  exists names. split; [exact Hlist|].
  apply Hin. right. split; [reflexivity|discriminate].
Defined.

(** ** init, continued *)

Import Scenarios2.

(** X5: init of a name hasServer reports as existing (a stored alias, or
    a name inherited from Object.prototype such as "constructor", even on
    an empty store) asks whether to replace it; when the user declines,
    init logs "Canceled." and returns, having changed nothing else: no
    prompt for the server, no key, no connection, no write. *)
Theorem init_declined_changes_nothing (env : environment) (name : string)
    (w : world) :
  get (stored w) name <> Undefined ->
  answer_replace env = false ->
  Init.init env name w =
  (Return tt,
   record_event (Log INFO "Canceled.")
     (record_event
        (Prompt ("Server '" +:+ name +:+ "' already exists. Remove and re-create it?"))
        w)).
Proof.
  intros Hknown Hdecline.
  unfold Init.init. rewrite bind_eq.
  unfold hasServer. rewrite bind_eq. unfold loadConfig. rewrite ret_eq.
  fold (stored w).
  destruct (get (stored w) name); try done;
    rewrite bind_eq; unfold emit; rewrite Hdecline; reflexivity.
Qed.

Lemma init_declined_changes_nothing_witness :
  Init.init env_decline "constructor" w0 =
  (Return tt,
   record_event (Log INFO "Canceled.")
     (record_event
        (Prompt "Server 'constructor' already exists. Remove and re-create it?")
        w0)).
Proof.
  apply (init_declined_changes_nothing env_decline "constructor" w0).
  - vm_compute. discriminate.
  - reflexivity.
Defined.

(** X6: init never throws: it returns or ends the process with status 1;
    and whenever it ends with status 1, whatever the failure (key
    generation, duplicate, password login, unreadable public key,
    installer, remote check, verification), the store holds no entry for
    the alias afterwards. *)
Theorem init_exit_leaves_no_entry (env : environment) (name : string)
    (w w' : world) (r : outcome unit) :
  Init.init env name w = (r, w') ->
  (r = Return tt \/ r = Exit 1) /\
  (r = Exit 1 -> stored w' !! name = None).
Proof.
  intros H. unfold Init.init in H.
  destruct w as [home cfg fls kc ke tr]. exec_store H.
  all: first [ provisioned H | returned H ].
  all: try (split; [by left|discriminate]).
  all: destruct Hcase as [(-> & _)|[-> Hconfig]];
    [ split; [by left|discriminate] |].
  all: split; [by right|]; intros _; unfold stored; rewrite Hconfig; simpl.
  all: first [ by rewrite lookup_fmap, lookup_delete_eq
             | by apply get_Undefined ].
Qed.

Lemma init_exit_leaves_no_entry_witness :
  stored (Init.init env_key_refused "web1" w0).2 !! "web1" = None.
Proof.
  pose (run := Init.init env_key_refused "web1" w0).
  assert (Hrun : Init.init env_key_refused "web1" w0 = (run.1, run.2))
    by (vm_compute; reflexivity).
  apply (proj2 (init_exit_leaves_no_entry _ _ _ _ _ Hrun)).
  vm_compute. reflexivity.
Defined.

(** X7: init never adds a secret to the secret store: every entry the
    secret store holds after init was there before.  In particular the
    one-time password is not kept there. *)
Theorem init_adds_no_secret (env : environment) (name : string)
    (w w' : world) (r : outcome unit) :
  Init.init env name w = (r, w') ->
  forall account secret,
    keychain w' !! account = Some secret -> keychain w !! account = Some secret.
Proof.
  intros H. unfold Init.init in H.
  destruct w as [home cfg fls kc ke tr]. exec_store H.
  all: first [ provisioned H; rewrite Hkeychain | returned H ].
  all: cbn [keychain]; intros a p Ha; try exact Ha.
  all: by apply lookup_delete_Some in Ha as [_ Ha].
Qed.

Lemma init_adds_no_secret_witness :
  keychain w_secret !! "db:passphrase" = Some "tr0ub4dor".
Proof.
  pose (run := Init.init env0 "web1" w_secret).
  assert (Hrun : Init.init env0 "web1" w_secret = (run.1, run.2))
    by (vm_compute; reflexivity).
  assert (Hafter : keychain run.2 !! "db:passphrase" = Some "tr0ub4dor")
    by (vm_compute; reflexivity).
  exact (init_adds_no_secret _ _ _ _ _ Hrun _ _ Hafter).
Defined.

(** X8: when the remote side rejects a command of the installer (the
    channel breaks, say), the installer does not throw: it logs the error
    and reports failure, and sends nothing more.  This also holds when the
    rejected command is the chmod that follows a successful append, so a
    key that was installed can be reported as not installed. *)
Theorem addPublicKeyToRemote_rejected_command (env : environment)
    (pub : string) (w w' : world) (r : outcome bool) :
  Init.addPublicKeyToRemote env pub w = (r, w') ->
  exists new,
    trace w' = (trace w ++ new)%list /\
    forall command m,
      SshExec command (ExecRejects m) ∈ new ->
      r = Return false /\
      exists before,
        new = (before ++ [SshExec command (ExecRejects m);
                          Log ERROR ("Error adding public key to remote: " +:+ m)])%list.
Proof.
  run. explore; intros [= <- <-]; added.
  all: intros command m Hc; events; try done.
  all: split; [reflexivity|].
  all: match goal with H : ExecRejects _ = ExecRejects _ |- _ => injection H as -> end.
  all: first [ by exists []
             | by eexists [_] | by eexists [_; _] | by eexists [_; _; _]
             | by eexists [_; _; _; _] | by eexists [_; _; _; _; _]
             | by eexists [_; _; _; _; _; _] | by eexists [_; _; _; _; _; _; _]
             | by eexists [_; _; _; _; _; _; _; _] ].
Qed.

Lemma addPublicKeyToRemote_rejected_command_witness :
  (Init.addPublicKeyToRemote env_chmod_rejected "ssh-rsa AAAA fastssh" w0).1
  = Return false.
Proof.
  pose (run := Init.addPublicKeyToRemote env_chmod_rejected "ssh-rsa AAAA fastssh" w0).
  assert (Hrun : Init.addPublicKeyToRemote env_chmod_rejected "ssh-rsa AAAA fastssh" w0
                 = (run.1, run.2)) by (vm_compute; reflexivity).
  destruct (addPublicKeyToRemote_rejected_command _ _ _ _ _ Hrun)
    as (new & Htrace & Hrejected).
  assert (Hnew : new = trace run.2) by (rewrite Htrace; reflexivity).
  apply (Hrejected "chmod 600 ~/.ssh/authorized_keys" "Channel closed").
  rewrite Hnew. vm_compute. member.
Defined.

(** ** connect, continued *)

Lemma trace_record_event (e : event) (w : world) :
  trace (record_event e w) = (trace w ++ [e])%list.
Proof. reflexivity. Qed.

(** X9: the classifier handleConnectionError, called with an authType:
    the lower-cased message is matched for hostname resolution first, then
    refusal, then timeout, then credential rejection, and is passed through
    otherwise; the key-specific guidance follows the credential line
    exactly when authType is "key".  The process then exits with status
    1. *)
Lemma handleConnectionError_precedence (err : exn) (name : string)
    (authType : value) (w : world) :
  let msg := toLowerCase (message err) in
  let resolution := includes msg "enotfound" || includes msg "getaddrinfo" in
  let refused := includes msg "econnrefused" in
  let timed_out := includes msg "etimedout" || includes msg "timeout" in
  let credential :=
    includes msg "authentication" || includes msg "permission denied" in
  exists w',
    Connect.handleConnectionError err name authType w = (Exit 1, w') /\
    exists lines,
    trace w' = (trace w ++ Log ERROR (nl +:+ "Connection failed!") :: lines)%list /\
    (resolution = true ->
     lines = [Log ERROR "  Cannot resolve hostname. Check network and host."]) /\
    (resolution = false -> refused = true ->
     lines = [Log ERROR "  Connection refused. Check SSH is running on that port."]) /\
    (resolution = false -> refused = false -> timed_out = true ->
     lines = [Log ERROR "  Connection timed out. Check network."]) /\
    (resolution = false -> refused = false -> timed_out = false ->
     credential = true ->
     head lines = Some (Log ERROR "  Authentication failed.") /\
     (authType = VStr "key" -> length lines = 7%nat) /\
     (authType <> VStr "key" -> length lines = 1%nat)) /\
    (resolution = false -> refused = false -> timed_out = false ->
     credential = false ->
     lines = [Log ERROR ("  " +:+ message err)]).
Proof.
  cbv zeta. unfold Connect.handleConnectionError.
  generalize (includes (toLowerCase (message err)) "enotfound"),
    (includes (toLowerCase (message err)) "getaddrinfo"),
    (includes (toLowerCase (message err)) "econnrefused"),
    (includes (toLowerCase (message err)) "etimedout"),
    (includes (toLowerCase (message err)) "timeout"),
    (includes (toLowerCase (message err)) "authentication"),
    (includes (toLowerCase (message err)) "permission denied").
  intros b1 b2 b3 b4 b5 b6 b7.
  destruct (b1 || b2) eqn:E1;
  [|destruct b3;
    [|destruct (b4 || b5) eqn:E3;
      [|destruct (b6 || b7) eqn:E4; [case_bool_decide|]]]];
  (eexists; split; [reflexivity|]);
  rewrite !trace_record_event, <- ?List.app_assoc;
  (eexists; split; [reflexivity|]);
  (split; [|split; [|split; [|split]]]); intros;
  try discriminate; try reflexivity;
  (split; [reflexivity|split]); intros;
  first [contradiction | reflexivity].
Qed.

Example handleConnectionError_scenarios :
  let lines (m : string) (authType : value) :=
    trace (Connect.handleConnectionError (Error m) "web1" authType w0).2 in
  lines "connect ECONNREFUSED 203.0.113.10:22" (VStr "key")
    = [Log ERROR (nl +:+ "Connection failed!");
       Log ERROR "  Connection refused. Check SSH is running on that port."] /\
  lines "getaddrinfo ENOTFOUND web1.example" (VStr "key")
    = [Log ERROR (nl +:+ "Connection failed!");
       Log ERROR "  Cannot resolve hostname. Check network and host."] /\
  lines "connect ETIMEDOUT 203.0.113.10:22" (VStr "key")
    = [Log ERROR (nl +:+ "Connection failed!");
       Log ERROR "  Connection timed out. Check network."] /\
  length (lines "All configured authentication methods failed" (VStr "key"))
    = 8%nat /\
  lines "All configured authentication methods failed" VUndefined
    = [Log ERROR (nl +:+ "Connection failed!");
       Log ERROR "  Authentication failed."].
Proof. cbv zeta. repeat split; vm_compute; reflexivity. Qed.

Lemma get_Own (cfg : config) (name : string) (server : gmap string value) :
  get cfg name = Own server -> cfg !! name = Some server.
Proof.
  unfold get. destruct (cfg !! name); [by intros [= ->]|]. by case_bool_decide.
Qed.

Lemma field_insert_ne (o : object) (k k' : string) (v : value) :
  k <> k' -> field (<[k := v]> o) k' = field o k'.
Proof. intros H. unfold field. by rewrite lookup_insert_ne. Qed.

(** X10: connect opens a session only for a stored alias whose private key
    file is present and readable: the alias is not empty, the store holds
    an entry for it, the entry's keyPath is a string, the file at the
    expanded path can be read, and the session is opened for the entry's
    host and user, on the entry's port or 22, with that key and never with
    a password. *)
Theorem connect_requires_record_and_key (env : environment) (name : string)
    (w w' : world) (r : outcome unit) :
  Connect.connect env name w = (r, w') ->
  exists new,
    trace w' = (trace w ++ new)%list /\
    forall host user port c rejected,
      SshConnect host user port c rejected ∈ new ->
      name <> "" /\
      exists cfg path key passphrase,
        stored w !! name = Some cfg /\
        field cfg "keyPath" = VStr path /\
        files w !! Js.replace path "~" (homedir w) = Some (Readable key) /\
        host = field cfg "host" /\ user = field cfg "user" /\
        port = or_else (field cfg "port") (VNum 22) /\
        c = PrivateKey key passphrase.
Proof.
  run. explore; intros [= <- <-]; added.
  all: intros host user port c rejected Hc; events; try done.
  all: match goal with H : get _ _ = Own _ |- _ => apply get_Own in H end.
  all: repeat match goal with
       | H : context [field (<["passphrase" := _]> _) "keyPath"] |- _ =>
           rewrite field_insert_ne in H by done
       end.
  all: rewrite ?(field_insert_ne _ "passphrase" "host"),
               ?(field_insert_ne _ "passphrase" "user"),
               ?(field_insert_ne _ "passphrase" "port") by done.
  all: split; [by intros ->|].
  all: eexists _, _, _, _; repeat split; eauto.
Qed.

Lemma connect_requires_record_and_key_witness :
  exists cfg path key,
    stored w_ready !! "web1" = Some cfg /\
    field cfg "keyPath" = VStr path /\
    files w_ready !! Js.replace path "~" (homedir w_ready) = Some (Readable key).
Proof.
  pose (run := Connect.connect env0 "web1" w_ready).
  assert (Hrun : Connect.connect env0 "web1" w_ready = (run.1, run.2))
    by (vm_compute; reflexivity).
  destruct (connect_requires_record_and_key _ _ _ _ _ Hrun)
    as (new & Htrace & Hsession).
  assert (Hnew : new = trace run.2) by (rewrite Htrace; reflexivity).
  destruct (Hsession (VStr "203.0.113.10") (VStr "deploy") (VNum 22)
              (PrivateKey "PRIV" VUndefined) None)
    as (_ & cfg & path & key & passphrase & Hcfg & Hpath & Hfile & _).
  - rewrite Hnew. vm_compute. member.
  - exists cfg, path, key. split; [exact Hcfg|]. split; [exact Hpath|exact Hfile].
Defined.

(** X11: the port given to addServer plays no part in later connections:
    for every record written by addServer, whatever port the input
    carried, connect opens its session on port 22. *)
Theorem connect_after_addServer_port_22 (env : environment) (name : string)
    (obj : object) (w w1 w2 : world) (r : outcome unit) :
  addServer name obj w = (Return tt, w1) ->
  Connect.connect env name w1 = (r, w2) ->
  exists new,
    trace w2 = (trace w1 ++ new)%list /\
    forall host user port c rejected,
      SshConnect host user port c rejected ∈ new -> port = VNum 22.
Proof.
  intros Hadd.
  assert (Hport : forall server, stored w1 !! name = Some server ->
                    field server "port" = VUndefined).
  { intros server Hs. rewrite (addServer_entry _ _ _ _ _ Hadd Hs), field_json.
    unfold field. by rewrite built_lookup. }
  clear Hadd. run. explore; intros [= <- <-]; added.
  all: intros host user port c rejected Hc; events; try done.
  all: match goal with H : get _ _ = Own _ |- _ => apply get_Own, Hport in H end.
  all: rewrite ?(field_insert_ne _ "passphrase" "port") by done.
  all: match goal with H : field _ "port" = _ |- _ => by rewrite H end.
Qed.

Lemma connect_after_addServer_port_22_witness :
  Forall (fun e => match e with
                   | SshConnect _ _ port _ _ => port = VNum 22
                   | _ => True
                   end)
    (trace (Connect.connect env0 "web1"
              (addServer "web1" {[ "host" := VStr "203.0.113.10";
                                   "user" := VStr "deploy";
                                   "port" := VNum 2222;
                                   "keyPath" := VStr "~/.ssh/id_rsa" ]}
                 w_ready).2).2).
Proof.
  pose (fields := ({[ "host" := VStr "203.0.113.10"; "user" := VStr "deploy";
                      "port" := VNum 2222;
                      "keyPath" := VStr "~/.ssh/id_rsa" ]} : object)).
  pose (w1 := (addServer "web1" fields w_ready).2).
  pose (run := Connect.connect env0 "web1" w1).
  assert (Hadd : addServer "web1" fields w_ready = (Return tt, w1))
    by (vm_compute; reflexivity).
  assert (Hrun : Connect.connect env0 "web1" w1 = (run.1, run.2))
    by (vm_compute; reflexivity).
  destruct (connect_after_addServer_port_22 _ _ _ _ _ _ _ Hadd Hrun)
    as (new & Htrace & Hport).
  fold fields. fold w1. fold run. rewrite Htrace.
  apply Forall_app. split.
  - vm_compute. repeat constructor.
  - apply Forall_forall. intros [] He; try exact I.
    eapply Hport. exact He.
Defined.

(** ** retryWithBackoff, continued *)

Section RetryBounds.
Context {W A : Type}.
Variable fn : W -> @settled A * W.

Lemma world_at_succ (w : W) (k : nat) :
  world_at fn w (S k) = world_at fn (snd (fn w)) k.
Proof. reflexivity. Qed.

Lemma retry_loop_bounds (o : retry_options) :
  forall remaining i last w n ds,
    Z.of_nat i + Z.of_nat remaining = maxRetries o ->
    (1 <= remaining)%nat ->
    exists k,
      (1 <= k <= remaining)%nat /\
      calls (retry_loop fn o remaining i last w n ds) = (n + k)%nat /\
      slept (retry_loop fn o remaining i last w n ds)
        = (ds ++ map (backoff o) (seq i (k - 1)))%list /\
      match result (retry_loop fn o remaining i last w n ds) with
      | Returned a => attempt fn w (k - 1) = Resolved a
      | Failed m => k = remaining /\ attempt fn w (k - 1) = Rejected m
      | ThrewTypeError => False
      end.
Proof.
  induction remaining as [|remaining IH]; intros i last w n ds Hinv Hpos; [lia|].
  simpl. destruct (fn w) as [[a|m] w1] eqn:Hfn.
  - exists 1%nat. simpl. rewrite app_nil_r. unfold attempt. simpl.
    rewrite Hfn. repeat split; lia || reflexivity.
  - destruct remaining as [|remaining].
    + assert (Hlast : (Z.of_nat i <? maxRetries o - 1) = false) by lia.
      rewrite Hlast. exists 1%nat. simpl. rewrite app_nil_r. unfold attempt.
      simpl. rewrite Hfn. repeat split; lia || reflexivity.
    + assert (Hmore : (Z.of_nat i <? maxRetries o - 1) = true) by lia.
      rewrite Hmore.
      destruct (IH (S i) (Some m) w1 (S n)
                  (ds ++ [initialDelay o * 2 ^ Z.of_nat i])%list)
        as (k & Hk & Hcalls & Hslept & Hresult); [lia|lia|].
      exists (S k). split; [lia|]. split; [rewrite Hcalls; lia|]. split.
      * rewrite Hslept, <- app_assoc. f_equal.
        replace (S k - 1)%nat with (S (k - 1)) by lia. reflexivity.
      * replace (S k - 1)%nat with (S (k - 1)) by lia.
        unfold attempt in *. rewrite world_at_succ, Hfn. simpl.
        destruct (result _); [done| |done].
        destruct Hresult as [-> ?]. by split.
Qed.

Lemma sum_backoff (o : retry_options) (k : nat) :
  fold_right Z.add 0 (map (backoff o) (seq 0 k))
  = initialDelay o * (2 ^ Z.of_nat k - 1).
Proof.
  induction k as [|k IH]; [simpl; lia|].
  rewrite seq_S, map_app, fold_right_app. simpl.
  assert (Hgen : forall l z, fold_right Z.add z l = fold_right Z.add 0 l + z).
  { induction l as [|x l IHl]; intros z; simpl; [lia|]. rewrite IHl. lia. }
  rewrite Hgen, IH. unfold backoff.
  rewrite Nat2Z.inj_succ, Z.pow_succ_r by lia. lia.
Qed.


End RetryBounds.


(** ** remove *)

Global Hint Unfold Remove.remove Remove.member : sys.

(** X13: remove of an empty name, or of a name hasServer does not know,
    logs one error line and returns; nothing is asked, contacted or
    written. *)
Theorem remove_unknown_changes_nothing (env : environment)
    (deleteRemote : bool) (name : string) (w : world) :
  name = "" \/ get (stored w) name = Undefined ->
  Remove.remove env deleteRemote name w =
  (Return tt,
   record_event
     (Log ERROR (if (name =? "")%string then "Provide server name"
                 else "Server '" +:+ name +:+ "' not found."))
     w).
Proof.
  intros H. unfold Remove.remove.
  destruct (String.eqb_spec name "") as [->|Hne]; [reflexivity|].
  destruct H as [?|H]; [done|].
  assert (Ht : truthy (VStr name) = true)
    by (simpl; by apply negb_true_iff, String.eqb_neq).
  rewrite Ht. change (negb true) with false. cbv iota.
  unfold hasServer, loadConfig. cbv [mbind M_bind mret M_ret].
  fold (stored w). rewrite H. reflexivity.
Qed.

Lemma remove_unknown_changes_nothing_witness :
  Remove.remove env0 true "web9" stored_web1 =
  (Return tt, record_event (Log ERROR "Server 'web9' not found.") stored_web1).
Proof.
  apply (remove_unknown_changes_nothing env0 true "web9" stored_web1).
  right. vm_compute. reflexivity.
Defined.

(** X14: once the alias is known and the secret service works, remove
    always completes the local removal, whatever the remote side does
    (connection refused, public key file missing, sed rejected or failing):
    it returns normally, the store has no entry and the secret store no
    passphrase for the alias, the other aliases keep their entries, and the
    last line logged is "Removed server: <name>".  When the user declines
    the remote deletion, nothing is sent over the network. *)
Theorem remove_completes_locally (env : environment) (deleteRemote : bool)
    (name : string) (w w' : world) (r : outcome unit) :
  keychain_error w = None ->
  name <> "" ->
  get (stored w) name <> Undefined ->
  Remove.remove env deleteRemote name w = (r, w') ->
  r = Return tt /\
  stored w' !! name = None /\
  keychain w' !! account name = None /\
  (forall other, other <> name ->
     stored w' !! other = json <$> stored w !! other) /\
  exists new,
    trace w' = (trace w ++ new)%list /\
    last new = Some (Log SUCCESS ("Removed server: " +:+ name)) /\
    (deleteRemote = false -> Forall (fun e => is_network e = false) new).
Proof.
  intros Hup Hname Hknown.
  destruct w as [home cfg fls kc ke tr]. simpl in Hup. subst ke.
  unfold stored in Hknown. simpl in Hknown.
  assert (Ht : truthy (VStr name) = true)
    by (simpl; by apply negb_true_iff, String.eqb_neq).
  unfold Remove.remove. rewrite Ht. change (negb true) with false. cbv iota.
  run. explore; intros [= <- <-]; try done.
  all: split; [reflexivity|].
  all: unfold stored; simpl.
  all: split; [by rewrite lookup_fmap, lookup_delete_eq|].
  all: split; [by rewrite lookup_delete_eq|].
  all: split; [intros other Hne; by rewrite lookup_fmap, lookup_delete_ne|].
  all: rewrite <- ?app_assoc; simpl; (eexists; split; [reflexivity|]).
  all: split; [reflexivity|].
  all: first [ intros _; by repeat constructor | intros [=] ].
Qed.

Lemma remove_completes_locally_witness :
  stored (Remove.remove env_refused true "web1" stored_web1).2 !! "web1" = None.
Proof.
  pose (run := Remove.remove env_refused true "web1" stored_web1).
  assert (Hup : keychain_error stored_web1 = None) by reflexivity.
  assert (Hname : "web1" <> "") by discriminate.
  assert (Hknown : get (stored stored_web1) "web1" <> Undefined)
    by (vm_compute; discriminate).
  assert (Hrun : Remove.remove env_refused true "web1" stored_web1 = (run.1, run.2))
    by (vm_compute; reflexivity).
  exact (proj1 (proj2 (remove_completes_locally _ _ _ _ _ _ Hup Hname Hknown Hrun))).
Defined.

(** X15: while the OS secret service is failing, remove cannot remove a
    key-authenticated alias: reading the record rejects with the secret
    service's error before anything is asked or written, although
    removeServer itself would have tolerated that failure. *)
Theorem remove_blocked_by_secret_service (env : environment)
    (deleteRemote : bool) (name : string) (cfg : gmap string value)
    (m : string) (w : world) :
  name <> "" ->
  stored w !! name = Some cfg ->
  field cfg "authType" = VStr "key" ->
  keychain_error w = Some m ->
  Remove.remove env deleteRemote name w = (Throw (Error m), w) /\
  exists w', removeServer name w = (Return tt, w') /\ stored w' !! name = None.
Proof.
  intros Hname Hcfg Hkey Hup. split.
  - assert (Ht : truthy (VStr name) = true)
      by (simpl; by apply negb_true_iff, String.eqb_neq).
    assert (Hhas : hasServer name w = (Return true, w)).
    { unfold hasServer. run. fold (stored w). unfold get. by rewrite Hcfg. }
    assert (Hget : getServer name w = (Throw (Error m), w)).
    { unfold getServer. run. fold (stored w). unfold get. rewrite Hcfg.
      rewrite bool_decide_eq_true_2 by done. by rewrite Hup. }
    unfold Remove.remove. rewrite Ht. change (negb true) with false. cbv iota.
    rewrite bind_eq, Hhas. change (negb true) with false. cbv iota.
    by rewrite bind_eq, Hget.
  - destruct (removeServer_forgets name w) as (w' & Hrm & Hnone & _).
    by exists w'.
Qed.

Lemma remove_blocked_by_secret_service_witness :
  (Remove.remove env0 false "web1" w_locked).1
  = Throw (Error "Cannot autolaunch D-Bus without X11 $DISPLAY").
Proof.
  assert (Hname : "web1" <> "") by discriminate.
  assert (Hcfg : stored w_locked !! "web1"
                 = Some {[ "host" := VStr "203.0.113.10"; "user" := VStr "deploy";
                           "authType" := VStr "key";
                           "keyPath" := VStr "~/.ssh/id_rsa" ]})
    by (vm_compute; reflexivity).
  assert (Hkey : field ({[ "host" := VStr "203.0.113.10"; "user" := VStr "deploy";
                           "authType" := VStr "key";
                           "keyPath" := VStr "~/.ssh/id_rsa" ]} : gmap string value)
                   "authType" = VStr "key") by (vm_compute; reflexivity).
  assert (Hup : keychain_error w_locked
                = Some "Cannot autolaunch D-Bus without X11 $DISPLAY") by reflexivity.
  rewrite (proj1 (remove_blocked_by_secret_service env0 false _ _ _ _
                    Hname Hcfg Hkey Hup)).
  reflexivity.
Defined.

(** ** The validators *)

Import Validation.

Lemma all_no_space (p : ascii -> bool) (s : string) :
  p " "%char = false -> all p s = true -> includes s " " = false.
Proof.
  intros Hp. induction s as [|a s IH]; [done|].
  simpl. intros [Ha Hs]%andb_prop. rewrite (IH Hs), orb_false_r.
  destruct (Ascii.eqb_spec " " a) as [<-|Hne]; [congruence|].
  destruct a as [[] [] [] [] [] [] [] []]; try done.
Qed.

Lemma validateHostname_accepts (s : string) :
  valid (validateHostname (VStr s)) = true ->
  s <> "" /\ trim s = s /\ all hostname_char s = true.
Proof.
  unfold validateHostname, validPattern. simpl truthy.
  destruct (String.eqb_spec s "") as [->|Hne]; [done|]. simpl negb.
  destruct (String.eqb_spec (trim s) s) as [Ht|_]; [|done]. simpl negb.
  destruct (all hostname_char s); [done|]. done.
Qed.

Lemma validateUsername_accepts (s : string) :
  valid (validateUsername (VStr s)) = true ->
  s <> "" /\ includes s " " = false /\ (String.length s <= 32)%nat.
Proof.
  unfold validateUsername. simpl truthy.
  destruct (String.eqb_spec s "") as [->|Hne]; [done|]. simpl negb.
  destruct (includes s " "); [done|].
  destruct (Nat.ltb_spec 32 (String.length s)); [done|]. intros _.
  repeat split; [done|lia].
Qed.

(** X16: the validators and the configuration check agree.  A
    configuration whose host passes validateHostname, whose user passes
    validateUsername, whose authType is "key" with a key path set, and
    whose port is absent (or zero) or passes validatePort, is reported by
    checkSSHConfigIssues as having no issues. *)
Theorem validated_config_has_no_issues (host user : string)
    (keyPath port : value) :
  valid (validateHostname (VStr host)) = true ->
  valid (validateUsername (VStr user)) = true ->
  truthy keyPath = true ->
  truthy port = false \/ valid (validatePort port) = true ->
  checkSSHConfigIssues
    {[ "host" := VStr host; "user" := VStr user; "authType" := VStr "key";
       "keyPath" := keyPath; "port" := port ]}
  = inr {| hasIssues := false; issues := [] |}.
Proof.
  intros (Hh & _ & Hchars)%validateHostname_accepts
         (Hu & Hspaces & _)%validateUsername_accepts Hk Hp.
  assert (Hhost : includes host " " = false) by by apply (all_no_space hostname_char).
  unfold checkSSHConfigIssues.
  replace (field _ "host") with (VStr host) by (unfold field; by simplify_map_eq).
  replace (field _ "user") with (VStr user) by (unfold field; by simplify_map_eq).
  replace (field _ "authType") with (VStr "key") by (unfold field; by simplify_map_eq).
  replace (field _ "keyPath") with keyPath by (unfold field; by simplify_map_eq).
  replace (field _ "port") with port by (unfold field; by simplify_map_eq).
  simpl truthy. simpl includes_space. rewrite Hhost, Hspaces, Hk.
  apply String.eqb_neq in Hh, Hu. rewrite Hh, Hu.
  rewrite bool_decide_eq_true_2 by done. cbn [negb andb push_if].
  destruct Hp as [->|Hp]; [reflexivity|].
  rewrite Hp. by destruct (truthy port).
Qed.

Lemma validated_config_has_no_issues_witness :
  checkSSHConfigIssues
    {[ "host" := VStr "build-01.example.org"; "user" := VStr "deploy";
       "authType" := VStr "key"; "keyPath" := VStr "~/.ssh/id_rsa";
       "port" := VStr "2222" ]}
  = inr {| hasIssues := false; issues := [] |}.
Proof.
  apply (validated_config_has_no_issues "build-01.example.org" "deploy"
           (VStr "~/.ssh/id_rsa") (VStr "2222")).
  - vm_compute. reflexivity.
  - vm_compute. reflexivity.
  - reflexivity.
  - right. vm_compute. reflexivity.
Defined.

Import Vocabulary2.

Lemma all_app (p : ascii -> bool) (s t : string) :
  all p (s +:+ t) = all p s && all p t.
Proof.
  induction s as [|a s IH]; [done|].
  change (p a && all p (s +:+ t) = p a && all p s && all p t).
  by rewrite IH, andb_assoc.
Qed.

Lemma all_impl (p q : ascii -> bool) (s : string) :
  (forall a, p a = true -> q a = true) -> all p s = true -> all q s = true.
Proof.
  intros Hpq. induction s as [|a s IH]; [done|]. simpl.
  intros [Ha Hs]%andb_prop. by rewrite (Hpq a Ha), IH.
Qed.

Lemma split_digits (s : string) :
  all is_digit s = true -> split s "." = [s].
Proof.
  induction s as [|a s IH]; [done|]. simpl. intros [Ha Hs]%andb_prop.
  rewrite (IH Hs).
  destruct (Ascii.eqb_spec a ".") as [->|_]; [done|reflexivity].
Qed.

Lemma split_digits_dot (s rest : string) :
  all is_digit s = true ->
  split (s +:+ "." +:+ rest) "." = s :: split rest ".".
Proof.
  change ("." +:+ rest) with (String "."%char rest).
  induction s as [|a s IH]; [done|]. simpl. intros [Ha Hs]%andb_prop.
  change (String a s +:+ String "." rest) with (String a (s +:+ String "." rest)).
  simpl. rewrite (IH Hs).
  destruct (Ascii.eqb_spec a ".") as [->|_]; [done|reflexivity].
Qed.

Lemma rev_string_rev_string (s acc acc' : string) :
  rev_string (rev_string s acc) acc' = rev_string acc (s +:+ acc').
Proof.
  revert acc. induction s as [|a s IH]; intros acc; [done|].
  simpl. by rewrite IH.
Qed.

Lemma all_rev_string (p : ascii -> bool) (s acc : string) :
  all p (rev_string s acc) = all p s && all p acc.
Proof.
  revert acc. induction s as [|a s IH]; intros acc; [done|].
  simpl. rewrite IH. simpl. destruct (p a), (all p s); simpl; auto.
Qed.

Lemma trimStart_all (p : ascii -> bool) (s : string) :
  (forall a, p a = true -> is_white_space a = false) ->
  all p s = true -> trimStart s = s.
Proof.
  intros Hp. destruct s as [|a s]; [done|]. simpl.
  intros [Ha _]%andb_prop. by rewrite (Hp a Ha).
Qed.

Lemma trim_all (p : ascii -> bool) (s : string) :
  (forall a, p a = true -> is_white_space a = false) ->
  all p s = true -> trim s = s.
Proof.
  intros Hp Hs. unfold trim, trimEnd.
  rewrite (trimStart_all p s Hp Hs).
  rewrite (trimStart_all p (rev_string s "") Hp)
    by (by rewrite all_rev_string, Hs).
  rewrite rev_string_rev_string. simpl. apply append_empty_r.
Qed.

Lemma hostname_char_not_white_space (a : ascii) :
  hostname_char a = true -> is_white_space a = false.
Proof. destruct a as [[] [] [] [] [] [] [] []]; done. Qed.

Lemma is_digit_hostname_char (a : ascii) :
  is_digit a = true -> hostname_char a = true.
Proof. destruct a as [[] [] [] [] [] [] [] []]; done. Qed.

(** Numerals of one to three digits, by enumeration. *)
Lemma small_numeral (n : Z) :
  0 <= n <= 999 ->
  all is_digit (toString (VNum n)) = true /\
  octet_shape (toString (VNum n)) = true /\
  Number (toString (VNum n)) = n.
Proof.
  intros Hn.
  assert (Hall : forallb (fun k =>
            let s := toString (VNum (Z.of_nat k)) in
            all is_digit s && octet_shape s && (Number s =? Z.of_nat k))
            (seq 0 1000) = true) by (vm_compute; reflexivity).
  rewrite forallb_forall in Hall.
  specialize (Hall (Z.to_nat n)). rewrite Z2Nat.id in Hall by lia.
  destruct (andb_prop _ _ (Hall ltac:(apply in_seq; lia))) as [[H1 H2]%andb_prop H3].
  repeat split; [done|done|lia].
Qed.

(** X17: validateHostname on dotted quads.  For four numbers between 0
    and 999 written in decimal and joined by dots, the hostname is accepted
    exactly when each number is at most 255. *)
Theorem validateHostname_dotted_quad (a b c d : Z) :
  0 <= a <= 999 -> 0 <= b <= 999 -> 0 <= c <= 999 -> 0 <= d <= 999 ->
  valid (validateHostname (VStr (dotted_quad a b c d))) = true
  <-> a <= 255 /\ b <= 255 /\ c <= 255 /\ d <= 255.
Proof.
  intros (Da & Oa & Na)%small_numeral (Db & Ob & Nb)%small_numeral
         (Dc & Oc & Nc)%small_numeral (Dd & Od & Nd)%small_numeral.
  unfold dotted_quad.
  set (sa := toString (VNum a)) in *. set (sb := toString (VNum b)) in *.
  set (sc := toString (VNum c)) in *. set (sd := toString (VNum d)) in *.
  assert (Hsplit : split (sa +:+ "." +:+ sb +:+ "." +:+ sc +:+ "." +:+ sd) "."
                   = [sa; sb; sc; sd]).
  { rewrite (split_digits_dot sa), (split_digits_dot sb),
            (split_digits_dot sc), (split_digits sd) by done. reflexivity. }
  assert (Hchars : all hostname_char (sa +:+ "." +:+ sb +:+ "." +:+ sc +:+ "." +:+ sd)
                   = true).
  { rewrite !all_app.
    rewrite (all_impl _ _ sa is_digit_hostname_char Da),
            (all_impl _ _ sb is_digit_hostname_char Db),
            (all_impl _ _ sc is_digit_hostname_char Dc),
            (all_impl _ _ sd is_digit_hostname_char Dd). reflexivity. }
  assert (Hne : (sa +:+ "." +:+ sb +:+ "." +:+ sc +:+ "." +:+ sd =? "")%string = false).
  { destruct sa; [done|reflexivity]. }
  unfold validateHostname, validPattern, ipPattern. simpl truthy.
  rewrite Hne, (trim_all hostname_char _ hostname_char_not_white_space Hchars).
  rewrite String.eqb_refl, Hchars, Hsplit, Oa, Ob, Oc, Od.
  cbn [negb andb existsb orb]. rewrite Na, Nb, Nc, Nd.
  destruct (Z.ltb_spec 255 a), (Z.ltb_spec 255 b), (Z.ltb_spec 255 c),
           (Z.ltb_spec 255 d); simpl; split; try done; try lia.
Qed.

Lemma validateHostname_dotted_quad_witness :
  valid (validateHostname (VStr "203.0.113.10")) = true /\
  valid (validateHostname (VStr "203.0.113.256")) = false.
Proof.
  assert (H0 : 0 <= 0 <= 999) by lia.
  assert (H10 : 0 <= 10 <= 999) by lia.
  assert (H113 : 0 <= 113 <= 999) by lia.
  assert (H203 : 0 <= 203 <= 999) by lia.
  assert (H256 : 0 <= 256 <= 999) by lia.
  split.
  - apply (validateHostname_dotted_quad 203 0 113 10 H203 H0 H113 H10). lia.
  - destruct (valid (validateHostname (VStr "203.0.113.256"))) eqn:E; [|reflexivity].
    apply (validateHostname_dotted_quad 203 0 113 256 H203 H0 H113 H256) in E. lia.
Defined.

(** ** The normalizers *)

Import Normalize.

Lemma occurs_app (c : ascii) (s t : string) :
  occurs c (s +:+ t) = occurs c s || occurs c t.
Proof.
  induction s as [|a s IH]; [done|].
  change (Ascii.eqb a c || occurs c (s +:+ t)
          = Ascii.eqb a c || occurs c s || occurs c t).
  by rewrite IH, orb_assoc.
Qed.

Lemma replaceAll_removes (c : ascii) (by_ s : string) :
  occurs c by_ = false -> occurs c (replaceAll s c by_) = false.
Proof.
  intros Hby. induction s as [|a s IH]; [done|]. simpl.
  destruct (Ascii.eqb a c) eqn:E.
  - by rewrite occurs_app, Hby, IH.
  - simpl. by rewrite E, IH.
Qed.

Lemma replaceAll_absent (c : ascii) (by_ s : string) :
  occurs c s = false -> replaceAll s c by_ = s.
Proof.
  induction s as [|a s IH]; [done|]. simpl.
  intros [-> Hs]%orb_false_elim. by rewrite IH.
Qed.

Lemma replaceAll2_absent (a b : ascii) (by_ s : string) :
  occurs a s = false -> replaceAll2 s a b by_ = s.
Proof.
  induction s as [|x s IH]; [done|].
  intros [Hx Hs]%orb_false_elim.
  change (match s with
          | String y s'' =>
              if Ascii.eqb x a && Ascii.eqb y b then by_ +:+ replaceAll2 s'' a b by_
              else String x (replaceAll2 s a b by_)
          | EmptyString => String x s
          end = String x s).
  destruct s as [|y s']; [done|]. rewrite Hx. simpl andb. cbv iota.
  by rewrite IH.
Qed.

(** X18: normalizeLineEndings leaves no carriage return in a text; a text
    without carriage returns is returned unchanged, so normalizing twice is
    the same as normalizing once. *)
Theorem normalizeLineEndings_no_carriage_return (s : string) :
  exists s',
    normalizeLineEndings (VStr s) = inr (VStr s') /\
    occurs cr s' = false /\
    (occurs cr s = false -> s' = s) /\
    normalizeLineEndings (VStr s') = inr (VStr s').
Proof.
  assert (Hshape : forall t,
            normalizeLineEndings (VStr t)
            = inr (VStr (replaceAll (replaceAll2 t cr lf nl) cr nl))).
  { intros t. unfold normalizeLineEndings. simpl truthy.
    destruct t; reflexivity. }
  assert (Hfix : forall t, occurs cr t = false ->
            replaceAll (replaceAll2 t cr lf nl) cr nl = t).
  { intros t Ht. by rewrite replaceAll2_absent, replaceAll_absent. }
  exists (replaceAll (replaceAll2 s cr lf nl) cr nl).
  split; [apply Hshape|].
  assert (Hnone : occurs cr (replaceAll (replaceAll2 s cr lf nl) cr nl) = false)
    by (by apply replaceAll_removes).
  split; [exact Hnone|]. split; [apply Hfix|].
  by rewrite Hshape, Hfix.
Qed.

Lemma replace_absent (c : ascii) (by_ s : string) :
  occurs c s = false -> replace s c by_ = s.
Proof.
  induction s as [|a s IH]; [done|]. simpl.
  intros [-> Hs]%orb_false_elim. by rewrite IH.
Qed.

Lemma strip_empty (s : string) :
  strip_trailing_slashes s = "" <-> all_slashes s = true.
Proof.
  destruct s as [|a s]; [done|].
  change (strip_trailing_slashes (String a s))
    with (if all_slashes (String a s) then EmptyString
          else String a (strip_trailing_slashes s)).
  by destruct (all_slashes (String a s)).
Qed.

Lemma occurs_strip (c : ascii) (s : string) :
  occurs c s = false -> occurs c (strip_trailing_slashes s) = false.
Proof.
  induction s as [|a s IH]; [done|].
  change (strip_trailing_slashes (String a s))
    with (if all_slashes (String a s) then EmptyString
          else String a (strip_trailing_slashes s)).
  simpl occurs at 1. intros [Ha Hs]%orb_false_elim.
  destruct (all_slashes (String a s)); [done|]. simpl. by rewrite Ha, IH.
Qed.

Lemma last_char_strip (s : string) :
  last_char (strip_trailing_slashes s) <> Some "/"%char.
Proof.
  induction s as [|a s IH]; [done|].
  change (strip_trailing_slashes (String a s))
    with (if all_slashes (String a s) then EmptyString
          else String a (strip_trailing_slashes s)).
  destruct (all_slashes (String a s)) eqn:E; [done|].
  destruct (strip_trailing_slashes s) as [|b t] eqn:Es.
  - apply strip_empty in Es. simpl in E. rewrite Es, andb_true_r in E.
    simpl. intros [= ->]. done.
  - exact IH.
Qed.

Lemma all_slashes_last (s : string) :
  all_slashes s = true -> s <> "" -> last_char s = Some "/"%char.
Proof.
  induction s as [|a s IH]; [done|]. simpl.
  intros [Ha Hs]%andb_prop _. apply Ascii.eqb_eq in Ha as ->.
  destruct s; [done|]. by apply IH.
Qed.

Lemma strip_fixed (s : string) :
  last_char s <> Some "/"%char -> strip_trailing_slashes s = s.
Proof.
  induction s as [|a s IH]; [done|]. intros Hlast.
  change (strip_trailing_slashes (String a s))
    with (if all_slashes (String a s) then EmptyString
          else String a (strip_trailing_slashes s)).
  destruct (all_slashes (String a s)) eqn:E.
  - by apply all_slashes_last in E.
  - destruct s as [|b t]; [done|]. by rewrite IH.
Qed.

(** X19: the shape of a normalized path.  For a non-empty path,
    normalizePath returns a non-empty string that contains no backslash and
    does not end with a slash unless it is the root "/"; and when the
    result holds no tilde any more, normalizing it again changes
    nothing. *)
Theorem normalizePath_shape (home s : string) :
  s <> "" ->
  exists p,
    normalizePath home (VStr s) = inr (VStr p) /\
    p <> "" /\
    occurs "\" p = false /\
    (p = "/" \/ last_char p <> Some "/"%char) /\
    (occurs "~" p = false -> normalizePath home (VStr p) = inr (VStr p)).
Proof.
  intros Hs.
  assert (Hshape : forall t, t <> "" ->
            normalizePath home (VStr t)
            = inr (VStr (let e := strip_trailing_slashes
                                    (replaceAll (replace t "~" home) "\" "/") in
                         if (e =? "")%string then "/" else e))).
  { intros t Ht. unfold normalizePath. simpl truthy.
    apply String.eqb_neq in Ht. by rewrite Ht. }
  eexists. split; [by apply Hshape|]. cbv zeta.
  set (e := strip_trailing_slashes (replaceAll (replace s "~" home) "\" "/")).
  assert (Hback : occurs "\" e = false)
    by (by apply occurs_strip, replaceAll_removes).
  assert (Hlast : last_char e <> Some "/"%char) by apply last_char_strip.
  destruct (String.eqb_spec e "") as [He|He].
  - split; [done|]. split; [done|]. split; [by left|].
    intros _. by rewrite Hshape.
  - split; [done|]. split; [done|]. split; [by right|].
    intros Htilde. rewrite Hshape by done. cbv zeta.
    rewrite replace_absent, replaceAll_absent, strip_fixed by done.
    apply String.eqb_neq in He. by rewrite He.
Qed.

Lemma normalizePath_shape_witness :
  exists p,
    normalizePath "/home/u" (VStr "~\projects\\") = inr (VStr p) /\ p <> "".
Proof.
  assert (Hs : "~\projects\\" <> "") by discriminate.
  destruct (normalizePath_shape "/home/u" "~\projects\\" Hs)
    as (p & Hp & Hne & _).
  exists p. split; [exact Hp|exact Hne].
Defined.

(** *** trim *)

Lemma trimStart_idem (s : string) : trimStart (trimStart s) = trimStart s.
Proof.
  induction s as [|a s IH]; [done|]. simpl.
  destruct (is_white_space a) eqn:E; [done|]. simpl. by rewrite E.
Qed.

Lemma trimStart_fixed (s : string) :
  trimStart s = s <-> s = "" \/ exists a t, s = String a t /\ is_white_space a = false.
Proof.
  split.
  - destruct s as [|a t]; [by left|]. intros H. right. exists a, t.
    split; [done|]. simpl in H. destruct (is_white_space a) eqn:E; [|done].
    exfalso. assert (Hlen : forall u, (String.length (trimStart u) <= String.length u)%nat).
    { induction u as [|b u IHu]; [done|]. simpl.
      destruct (is_white_space b); simpl; lia. }
    specialize (Hlen t). rewrite H in Hlen. simpl in Hlen. lia.
  - intros [->|(a & t & -> & Ha)]; [done|]. simpl. by rewrite Ha.
Qed.

Lemma append_assoc (s t u : string) : (s +:+ t) +:+ u = s +:+ t +:+ u.
Proof.
  induction s as [|a s IH]; [done|].
  change (String a ((s +:+ t) +:+ u) = String a (s +:+ t +:+ u)). by rewrite IH.
Qed.

Lemma rev_string_acc (s acc : string) :
  rev_string s acc = rev_string s "" +:+ acc.
Proof.
  revert acc. induction s as [|a s IH]; intros acc; [done|].
  simpl. rewrite (IH (String a acc)), (IH (String a "")).
  by rewrite append_assoc.
Qed.

Lemma rev_string_involutive (s : string) :
  rev_string (rev_string s "") "" = s.
Proof. rewrite rev_string_rev_string. simpl. apply append_empty_r. Qed.

Lemma rev_string_snoc (s : string) (a : ascii) :
  rev_string (s +:+ String a "") "" = String a (rev_string s "").
Proof.
  rewrite <- (rev_string_involutive s) at 1.
  rewrite <- (rev_string_acc (rev_string s "") (String a "")).
  change (rev_string (rev_string s "") (String a ""))
    with (rev_string (String a (rev_string s "")) "").
  apply rev_string_involutive.
Qed.

Lemma trimStart_snoc (s t : string) (a : ascii) :
  is_white_space a = false ->
  trimStart (s +:+ String a t) = trimStart s +:+ String a t.
Proof.
  intros Ha. induction s as [|b s IH].
  - change (trimStart (String a t) = String a t). simpl. by rewrite Ha.
  - change (trimStart (String b (s +:+ String a t))
            = trimStart (String b s) +:+ String a t).
    simpl. by destruct (is_white_space b).
Qed.

Lemma trimEnd_idem (s : string) : trimEnd (trimEnd s) = trimEnd s.
Proof.
  unfold trimEnd. by rewrite rev_string_involutive, trimStart_idem.
Qed.

Lemma trimStart_trimEnd (s : string) :
  trimStart s = s -> trimStart (trimEnd s) = trimEnd s.
Proof.
  intros [->|(a & t & -> & Ha)]%trimStart_fixed; [done|].
  assert (E : trimEnd (String a t)
              = String a (rev_string (trimStart (rev_string t "")) "")).
  { unfold trimEnd.
    change (rev_string (String a t) "") with (rev_string t (String a "")).
    by rewrite (rev_string_acc t), trimStart_snoc, rev_string_snoc. }
  rewrite E. simpl. by rewrite Ha.
Qed.

Lemma trim_idem (s : string) : trim (trim s) = trim s.
Proof.
  unfold trim.
  rewrite (trimStart_trimEnd (trimStart s)) by apply trimStart_idem.
  apply trimEnd_idem.
Qed.

(** X20: trimObjectStrings on an object with primitive fields.  The
    result has the fields of the argument except "__proto__"; its string
    fields carry no white space at either end (trimming them changes
    nothing), the other fields are those of the argument, and applying the
    function twice is the same as applying it once. *)
Theorem trimObjectStrings_spec (obj : object) :
  (forall k, is_Some (trimObjectStrings obj !! k)
             <-> is_Some (obj !! k) /\ k <> "__proto__") /\
  (forall k s, trimObjectStrings obj !! k = Some (VStr s) -> trim s = s) /\
  (forall k v, obj !! k = Some v -> k <> "__proto__" ->
               (forall s, v <> VStr s) -> trimObjectStrings obj !! k = Some v) /\
  trimObjectStrings (trimObjectStrings obj) = trimObjectStrings obj.
Proof.
  unfold trimObjectStrings.
  set (f := fun value => match value with VStr s => VStr (trim s) | _ => value end).
  assert (Hidem : forall v, f (f v) = f v).
  { intros []; simpl; try done. by rewrite trim_idem. }
  split; [|split; [|split]].
  - intros k. destruct (decide (k = "__proto__")) as [->|Hk].
    + rewrite lookup_delete_eq. split; [by intros [? ?]|]. by intros [_ ?].
    + rewrite lookup_delete_ne, lookup_fmap, fmap_is_Some by done. tauto.
  - intros k s. destruct (decide (k = "__proto__")) as [->|Hk].
    + by rewrite lookup_delete_eq.
    + rewrite lookup_delete_ne, lookup_fmap by done.
      destruct (obj !! k) as [[]|]; simpl; try done.
      intros [= <-]. apply trim_idem.
  - intros k v Hv Hk Hs. rewrite lookup_delete_ne, lookup_fmap, Hv by done.
    simpl. f_equal. destruct v; try done. by destruct (Hs s).
  - apply map_eq. intros k. destruct (decide (k = "__proto__")) as [->|Hk].
    + by rewrite !lookup_delete_eq.
    + rewrite !lookup_delete_ne, !lookup_fmap, lookup_delete_ne, lookup_fmap by done.
      destruct (obj !! k); simpl; [|done]. by rewrite Hidem.
Qed.

(** ** init, the successful run *)

Ltac in_new :=
  solve [ repeat first [ apply elem_of_cons; left; reflexivity
                       | apply elem_of_cons; right
                       | apply elem_of_app; right ] ].

Lemma provision_success (env : environment) (name : string) (w w' : world) :
  Init.provision env name w = (Return tt, w') ->
  exists new key,
    trace w' = (trace w ++ new)%list /\
    config_json w' = Some (json <$> set (stored w) name (built (init_record env))) /\
    SshConnect (VStr (answer_host env)) (VStr (answer_user env))
      (or_else (answer_port env) (VNum 22)) (PrivateKey key VUndefined) None ∈ new /\
    files w' !! id_rsa w = Some (Readable key) /\
    Log SUCCESS ("Setup complete. Connect with: fastssh " +:+ name) ∈ new.
Proof.
  intros H. unfold Init.provision in H.
  destruct w as [home cfg fls kc ke tr]. exec H.
  all: summaries.
  all: try discriminate H.
  all: pose proof (f_equal snd H) as Hw; cbn [fst snd] in Hw; clear H; subst w'.
  all: cbn [trace keychain config_json files homedir]; rewrite <- ?app_assoc;
       cbn [app].
  all: eexists _, _; (split; [reflexivity|]).
  all: split; [reflexivity|].
  all: split; [in_new|].
  all: split; [unfold id_rsa; cbn [homedir]; eassumption|].
  all: in_new.
Qed.

Lemma field_init_record (env : environment) :
  field (json (built (init_record env))) "host" = VStr (answer_host env) /\
  field (json (built (init_record env))) "user" = VStr (answer_user env) /\
  field (json (built (init_record env))) "authType" = VStr "key" /\
  field (json (built (init_record env))) "keyPath" = VStr "~/.ssh/id_rsa".
Proof.
  assert (Hk : field (init_record env) "keyPath" = VStr "~/.ssh/id_rsa")
    by (unfold field, init_record; by simplify_map_eq).
  repeat split; rewrite field_json; unfold field at 1; rewrite built_lookup;
    simpl; rewrite ?Hk; simpl; try reflexivity;
    unfold field, init_record; by simplify_map_eq.
Qed.

(** X21: what a successful init leaves behind.  When init returns
    normally, for an alias other than "__proto__" that was new or whose
    replacement the user confirmed, the store holds an entry for the alias
    with the host and user that were entered, authType "key" and keyPath
    "~/.ssh/id_rsa"; and during the run a session authenticated with the
    content of the local private key file was opened to that host and user
    and accepted. *)
Theorem init_success (env : environment) (name : string) (w w' : world) :
  Init.init env name w = (Return tt, w') ->
  name <> "__proto__" ->
  get (stored w) name = Undefined \/ answer_replace env = true ->
  exists server key new,
    stored w' !! name = Some server /\
    field server "host" = VStr (answer_host env) /\
    field server "user" = VStr (answer_user env) /\
    field server "authType" = VStr "key" /\
    field server "keyPath" = VStr "~/.ssh/id_rsa" /\
    trace w' = (trace w ++ new)%list /\
    SshConnect (VStr (answer_host env)) (VStr (answer_user env))
      (or_else (answer_port env) (VNum 22)) (PrivateKey key VUndefined) None ∈ new /\
    files w' !! id_rsa w = Some (Readable key).
Proof.
  intros H Hname Hfresh. unfold Init.init in H.
  destruct w as [home cfg fls kc ke tr]. unfold stored in Hfresh.
  cbn [config_json] in Hfresh. exec_store H.
  all: try (exfalso; destruct Hfresh as [Hfresh|Hfresh]; congruence).
  all: apply provision_success in H
         as (new & key & Htrace & Hcfg & Hconn & Hfile & _);
       cbn [trace keychain config_json files homedir] in *.
  all: destruct (field_init_record env) as (Hh & Hu & Ha & Hk).
  all: exists (json (built (init_record env))), key.
  all: eexists; split;
       [ unfold stored; rewrite Hcfg; simpl;
         by rewrite lookup_fmap, lookup_set_plain |].
  all: do 4 (split; [assumption|]).
  all: rewrite Htrace, <- ?app_assoc; cbn [app].
  all: split; [reflexivity|].
  all: split; [|exact Hfile].
  all: repeat first [ exact Hconn | apply elem_of_cons; right ].
Qed.

Lemma init_success_witness :
  exists server,
    stored (Init.init env0 "web1" w0).2 !! "web1" = Some server /\
    field server "host" = VStr "203.0.113.10".
Proof.
  assert (Hrun : Init.init env0 "web1" w0
                 = (Return tt, (Init.init env0 "web1" w0).2))
    by (vm_compute; reflexivity).
  assert (Hname : "web1" <> "__proto__") by discriminate.
  assert (Hfresh : get (stored w0) "web1" = Undefined \/ answer_replace env0 = true)
    by (left; vm_compute; reflexivity).
  destruct (init_success _ _ _ _ Hrun Hname Hfresh)
    as (server & key & new & Hs & Hh & _).
  exists server. split; [exact Hs|exact Hh].
Defined.

(** ** Frames *)

Lemma json_idem (server : gmap string value) : json (json server) = json server.
Proof.
  apply map_eq. intros k. unfold json.
  destruct (filter _ server !! k) as [v|] eqn:E.
  - apply map_lookup_filter_Some in E as [E Hv].
    apply map_lookup_filter_Some. split; [|done].
    by apply map_lookup_filter_Some.
  - apply map_lookup_filter_None. left. exact E.
Qed.

(** X22: init never alters the entry of another alias: after any run of
    init, successful or not, every other alias holds the entry it held
    before (as the config file keeps it). *)
Theorem init_keeps_other_aliases (env : environment) (name : string)
    (w w' : world) (r : outcome unit) :
  Init.init env name w = (r, w') ->
  forall other,
    other <> name ->
    stored w' !! other = stored w !! other \/
    stored w' !! other = json <$> stored w !! other.
Proof.
  intros H other Hother. unfold Init.init in H.
  destruct w as [home cfg fls kc ke tr]. exec_store H.
  all: try (returned H; by left).
  all: destruct r as [[]|e|c];
    [ apply provision_success in H as (new & key & _ & Hcfg & _)
    | apply provision_outcome in H as (new & _ & _ & _ & [[? _]|[? _]] & _);
      discriminate
    | apply provision_outcome in H as (new & _ & _ & _ & [[? _]|[_ Hcfg]] & _);
      [discriminate|] ].
  all: unfold stored in *; rewrite Hcfg; simpl.
  all: rewrite ?lookup_fmap, ?lookup_set_ne by done;
       rewrite ?lookup_fmap, ?lookup_delete_ne by done.
  all: first [ by left | right ].
  all: destruct (_ !! other); simpl; [|done].
  all: by rewrite ?json_idem.
Qed.

Lemma init_keeps_other_aliases_witness :
  stored (Init.init env_replace "web2" w_taken).2 !! "web1"
  = stored w_taken !! "web1".
Proof.
  pose (run := Init.init env_replace "web2" w_taken).
  assert (Hrun : Init.init env_replace "web2" w_taken = (run.1, run.2))
    by (vm_compute; reflexivity).
  assert (Hother : "web1" <> "web2") by discriminate.
  destruct (init_keeps_other_aliases _ _ _ _ _ Hrun "web1" Hother) as [H|H].
  - exact H.
  - change (stored run.2 !! "web1" = stored w_taken !! "web1").
    rewrite H. vm_compute. reflexivity.
Defined.

(** X23: hasServer and getServer agree.  With a working secret service,
    getServer returns a record exactly for the names hasServer answers
    true for, and undefined for the others; neither changes anything. *)
Theorem hasServer_getServer_agree (name : string) (w : world) :
  keychain_error w = None ->
  exists known found,
    hasServer name w = (Return known, w) /\
    getServer name w = (Return found, w) /\
    (known = true <-> is_Some found) /\
    (forall cfg, stored w !! name = Some cfg ->
       exists record, found = Some record /\
         forall k, k <> "passphrase" -> field record k = field cfg k).
Proof.
  intros Hup. unfold hasServer, getServer. run. fold (stored w). unfold get.
  destruct (stored w !! name) as [cfg|] eqn:E.
  - destruct (bool_decide (field cfg "authType" = VStr "key")); simpl;
      rewrite ?Hup.
    + exists true,
        (Some (<["passphrase" := from_option VStr VNull (keychain w !! account name)]> cfg)).
      split; [reflexivity|]. split; [reflexivity|].
      split; [split; [by eexists|done]|].
      intros ? [= <-]. eexists. split; [reflexivity|].
      intros k Hk. by rewrite field_insert_ne.
    + exists true, (Some cfg).
      split; [reflexivity|]. split; [reflexivity|].
      split; [split; [by eexists|done]|].
      intros ? [= <-]. by eexists.
  - destruct (bool_decide (name ∈ object_prototype)); simpl.
    + exists true, (Some ∅).
      split; [reflexivity|]. split; [reflexivity|].
      split; [split; [by eexists|done]|]. done.
    + exists false, None.
      split; [reflexivity|]. split; [reflexivity|].
      split; [split; [done|by intros [? ?]]|]. done.
Qed.

Lemma hasServer_getServer_agree_witness :
  exists found,
    getServer "web1" stored_web1 = (Return found, stored_web1) /\ is_Some found.
Proof.
  assert (Hup : keychain_error stored_web1 = None) by reflexivity.
  destruct (hasServer_getServer_agree "web1" stored_web1 Hup)
    as (known & found & Hhas & Hget & Hagree & _).
  exists found. split; [exact Hget|]. apply Hagree.
  assert (Hk : hasServer "web1" stored_web1 = (Return true, stored_web1))
    by (vm_compute; reflexivity).
  congruence.
Defined.

(** X24: connect reads only: whatever happens, it leaves the config file,
    the key files and the secret store as they were, and writes nothing to
    the store. *)
Theorem connect_changes_nothing_locally (env : environment) (name : string)
    (w w' : world) (r : outcome unit) :
  Connect.connect env name w = (r, w') ->
  config_json w' = config_json w /\
  files w' = files w /\
  keychain w' = keychain w /\
  exists new,
    trace w' = (trace w ++ new)%list /\
    Forall (fun e => is_store_write e = false /\ is_keygen e = false) new.
Proof.
  run. explore; intros [= <- <-]; simpl.
  all: do 3 (split; [reflexivity|]).
  all: rewrite <- ?app_assoc; simpl;
       first [ eexists; split; [reflexivity|]
             | exists []; split; [symmetry; apply app_nil_r|] ].
  all: repeat constructor.
Qed.

Lemma connect_changes_nothing_locally_witness :
  config_json (Connect.connect env_refused "web1" w_ready).2 = config_json w_ready /\
  files (Connect.connect env_refused "web1" w_ready).2 = files w_ready /\
  keychain (Connect.connect env_refused "web1" w_ready).2 = keychain w_ready.
Proof.
  pose (run := Connect.connect env_refused "web1" w_ready).
  assert (Hrun : Connect.connect env_refused "web1" w_ready = (run.1, run.2))
    by (vm_compute; reflexivity).
  destruct (connect_changes_nothing_locally _ _ _ _ _ Hrun)
    as (Hconfig & Hfiles & Hkeychain & _).
  split; [exact Hconfig|]. split; [exact Hfiles|exact Hkeychain].
Defined.

(** ** list *)

(** X25: list prints "No servers saved." when the store holds no alias,
    and otherwise one bullet line per stored alias, each alias once; it
    changes nothing. *)
Theorem list_prints_stored_aliases (w : world) :
  exists lines,
    ListCommand.list w = (Return lines, w) /\
    (stored w = ∅ -> lines = ["No servers saved."]) /\
    (stored w <> ∅ ->
     NoDup lines /\
     forall line, line ∈ lines <->
                  exists name, is_Some (stored w !! name) /\ line = "• " +:+ name).
Proof.
  unfold ListCommand.list, listServers. run. fold (stored w).
  destruct (decide (stored w = ∅)) as [He|Hne].
  - rewrite He, map_to_list_empty. simpl. eexists. split; [reflexivity|].
    split; [done|]. by intros [].
  - assert (Hlen : (length (map_to_list (stored w)).*1 =? 0)%nat = false).
    { destruct (map_to_list (stored w)) as [|[n s] l] eqn:El; [|done].
      by apply map_to_list_empty_iff in El. }
    rewrite Hlen.
    eexists. split; [reflexivity|]. split; [done|]. intros _. split.
    + apply NoDup_fmap_2; [|apply NoDup_fst_map_to_list].
      intros x y Hxy. by injection Hxy.
    + intros line. rewrite list_elem_of_fmap. split.
      * intros (name & -> & Hin). exists name. split; [|done].
        apply list_elem_of_fmap in Hin as [[n' s'] [-> Hin]].
        apply elem_of_map_to_list in Hin. by eexists.
      * intros (name & [s' Hs] & ->). exists name. split; [done|].
        apply list_elem_of_fmap. exists (name, s'). split; [done|].
        by apply elem_of_map_to_list.
Qed.

(** ** Key format *)

Import Validation.

Lemma prefix_app (n s t : string) :
  String.prefix n s = true -> String.prefix n (s +:+ t) = true.
Proof.
  revert s. induction n as [|a n IH]; intros s.
  { intros _. destruct s; [by destruct t|done]. }
  destruct s as [|b s]; [done|].
  change (String b s +:+ t) with (String b (s +:+ t)). simpl.
  destruct (ascii_dec a b); [apply IH|done].
Qed.

Lemma includes_cons (a : ascii) (s n : string) :
  includes (String a s) n = String.prefix n (String a s) || includes s n.
Proof. reflexivity. Qed.

Lemma includes_app_l (s t n : string) :
  includes s n = true -> includes (s +:+ t) n = true.
Proof.
  induction s as [|a s IH].
  - simpl. rewrite orb_false_r. intros H. destruct n; [by destruct t|done].
  - change (String a s +:+ t) with (String a (s +:+ t)).
    rewrite !includes_cons. intros [H|H]%orb_prop.
    + pose proof (prefix_app n (String a s) t H) as Hp.
      change (String a s +:+ t) with (String a (s +:+ t)) in Hp.
      by rewrite Hp.
    + by rewrite (IH H), orb_true_r.
Qed.

Lemma includes_app_r (s t n : string) :
  includes t n = true -> includes (s +:+ t) n = true.
Proof.
  intros H. induction s as [|a s IH]; [done|].
  change (String a s +:+ t) with (String a (s +:+ t)).
  by rewrite includes_cons, IH, orb_true_r.
Qed.

Lemma validateKeyFormat_marks (s : string) :
  includes s "BEGIN RSA PRIVATE KEY" = true
  \/ includes s "BEGIN OPENSSH PRIVATE KEY" = true ->
  includes s "END" = true ->
  validateKeyFormat (VStr s) = accepted.
Proof.
  intros Hbegin Hend. unfold validateKeyFormat. simpl truthy.
  destruct (String.eqb_spec s "") as [->|_]; [done|]. simpl negb.
  rewrite Hend. destruct Hbegin as [Hb|Hb]; rewrite Hb; simpl; [reflexivity|].
  by destruct (includes s "BEGIN RSA PRIVATE KEY").
Qed.

(** X26: validateKeyFormat accepts every PEM-armoured RSA or OpenSSH
    private key, whatever its body: a text that starts with the BEGIN line
    of one of the two kinds and ends with an END line. *)
Theorem validateKeyFormat_accepts_pem (kind body : string) :
  kind = "RSA" \/ kind = "OPENSSH" ->
  validateKeyFormat
    (VStr ("-----BEGIN " +:+ kind +:+ " PRIVATE KEY-----" +:+ body
           +:+ "-----END " +:+ kind +:+ " PRIVATE KEY-----"))
  = accepted.
Proof.
  intros Hkind.
  set (text := "-----BEGIN " +:+ kind +:+ " PRIVATE KEY-----" +:+ body
               +:+ "-----END " +:+ kind +:+ " PRIVATE KEY-----").
  assert (Hend : includes text "END" = true).
  { unfold text. do 4 apply includes_app_r. apply includes_app_l.
    reflexivity. }
  assert (Hbegin : includes text "BEGIN RSA PRIVATE KEY" = true
                   \/ includes text "BEGIN OPENSSH PRIVATE KEY" = true).
  { unfold text. destruct Hkind as [Hk|Hk]; rewrite Hk; [left|right];
      rewrite <- !append_assoc; do 4 apply includes_app_l; reflexivity. }
  by apply validateKeyFormat_marks.
Qed.

Lemma validateKeyFormat_accepts_pem_witness :
  validateKeyFormat
    (VStr ("-----BEGIN " +:+ "RSA" +:+ " PRIVATE KEY-----" +:+ "MIIJKAIBAAKCAgEA"
           +:+ "-----END " +:+ "RSA" +:+ " PRIVATE KEY-----"))
  = accepted.
Proof.
  apply (validateKeyFormat_accepts_pem "RSA" "MIIJKAIBAAKCAgEA").
  left. reflexivity.
Defined.
